(** * g-search-mcp: the search engine driver (googleSearch / multiGoogleSearch)

    A shallow embedding of the search module (the fingerprint synthesizer
    [getHostMachineConfig], the single-query controller [googleSearch] with
    its CAPTCHA recovery, the result extractor and the multi-query
    coordinator [multiGoogleSearch]) and of [src/utils/storageConfig.ts],
    together with the properties the specification states about them.  Line
    numbers in the comments are those of the search module.

    The browser automation library, the file system and the target site are
    outside the program.  Every call the program makes to them is answered by
    an explicit environment (records [Host] and [World] below), and the calls
    and log lines the program issues are recorded in a trace.  Timeouts are
    arguments of those calls only: a wait that times out is a call that
    throws. *)

From Stdlib Require Import String Ascii List ZArith Lia Bool Arith.
From Stdlib Require Import DecimalString DecimalNat.
Import ListNotations.

Set Warnings "-register-all,-notation-for-abbreviation".
Local Open Scope string_scope.
Local Open Scope list_scope.
Local Open Scope Z_scope.

Infix "^^" := String.append (at level 60, right associativity).

(** ** JavaScript values and string operations used by the source *)

Module JS.

(** The double-quote character of a template string. *)
Definition quote : string := String (ascii_of_nat 34) EmptyString.

(** Truthiness of a string: the empty string is falsy. *)
Definition truthy (s : string) : bool := negb (String.eqb s EmptyString).

(** [a || b] where [a] may be [undefined]. *)
Definition or_else (a : option string) (b : string) : string :=
  match a with
  | Some s => if truthy s then s else b
  | None => b
  end.

Definition startsWith (s pat : string) : bool := prefix pat s.

(** [s.includes(pat)] *)
Fixpoint includes (s pat : string) : bool :=
  prefix pat s ||
  match s with
  | EmptyString => false
  | String _ s' => includes s' pat
  end.

(** [s.slice(n)] for a non-negative [n]. *)
Fixpoint drop (n : nat) (s : string) : string :=
  match n, s with
  | O, _ => s
  | S n', String _ s' => drop n' s'
  | S _, EmptyString => EmptyString
  end.

(** [s.replace(pat, rep)] with a string pattern: only the first occurrence
    is replaced. *)
Fixpoint replace (s pat rep : string) : string :=
  if prefix pat s then rep ^^ drop (String.length pat) s
  else match s with
       | EmptyString => EmptyString
       | String c s' => String c (replace s' pat rep)
       end.

(** [arr.slice(0, end)]: a negative [end] counts from the end of the array. *)
Definition slice0 {A : Type} (fin : Z) (l : list A) : list A :=
  let len := Z.of_nat (List.length l) in
  let k := if fin <? 0 then Z.max (len + fin) 0 else Z.min fin len in
  firstn (Z.to_nat k) l.

(** Decimal rendering of an array index or a length in a template string. *)
Definition showNat (n : nat) : string := NilZero.string_of_uint (Nat.to_uint n).

(** A thrown value: an [Error] object (with its [name] and [message]), or
    any other value, kept through its [String(...)] rendering. *)
Inductive Exn : Type :=
| Error (name message : string)
| Value (rendering : string).

(** [new Error(msg)] *)
Definition newError (msg : string) : Exn := Error "Error" msg.

(** [String(e)], as [Error.prototype.toString] computes it. *)
Definition String_ (e : Exn) : string :=
  match e with
  | Error name msg =>
      if negb (truthy name) then msg
      else if negb (truthy msg) then name
      else name ^^ ": " ^^ msg
  | Value r => r
  end.

(** [error instanceof Error ? error.message : String(error)] *)
Definition messageOf (e : Exn) : string :=
  match e with
  | Error _ msg => msg
  | Value r => r
  end.

End JS.

(** ** Data model (the interfaces of the source) *)

Inductive ColorScheme := dark | light.
Inductive ReducedMotion := reduce | no_preference.
Inductive ForcedColors := active | none.

Record FingerprintConfig : Type := mkFingerprint {
  deviceName : string;
  fp_locale : string;
  timezoneId : string;
  colorScheme : ColorScheme;
  reducedMotion : ReducedMotion;
  forcedColors : ForcedColors
}.

(** What the variable [savedState] holds.  It starts as the object literal
    of line 127; line 144 replaces it by whatever [JSON.parse] makes of the
    sidecar text, unchecked: another object, an array, a primitive value or
    [null]. *)
Inductive Shape : Type :=
| plainObject
| arrayObject                             (* keeps named properties, serializes none *)
| primitiveValue (description : string)   (* as a TypeError words it: number '5' *)
| nullValue.

(** The interface [SavedState], and what the value really is. *)
Record SavedState : Type := mkSavedState {
  fingerprint : option FingerprintConfig;
  googleDomain : option string;
  shape : Shape
}.

(** The value of [JSON.parse(text)] when it does not throw. *)
Inductive Parsed : Type :=
| parsedObject (fp : option FingerprintConfig) (domain : option string)
| parsedArray
| parsedPrimitive (description : string)
| parsedNull.

(** [savedState = JSON.parse(...)]: an array, a primitive and [null] have
    neither property. *)
Definition stored (parsed : Parsed) : SavedState :=
  match parsed with
  | parsedObject fp domain => mkSavedState fp domain plainObject
  | parsedArray => mkSavedState None None arrayObject
  | parsedPrimitive description => mkSavedState None None (primitiveValue description)
  | parsedNull => mkSavedState None None nullValue
  end.

(** [SearchOptions]: every field is optional in the source. *)
Record SearchOptions : Type := mkOptions {
  limit : option Z;
  timeout : option Z;
  stateFile : option string;
  noSaveState : option bool;
  locale : option string;
  debug : option bool
}.

Record SearchResult : Type := mkResult {
  title : string;
  link : string;
  snippet : string
}.

Record SearchResponse : Type := mkResponse {
  query : string;
  results : list SearchResult
}.

(** ** FingerprintSynthesizer: [getHostMachineConfig]

    The host signals the function reads ([process.env.LANG],
    [new Date().getTimezoneOffset()], [new Date().getHours()],
    [os.platform()]) are its explicit arguments here. *)

Record HostSignals : Type := mkSignals {
  env_LANG : option string;
  timezoneOffset : Z;
  hours : Z;
  platform : string
}.

Definition getHostMachineConfig (sig : HostSignals) (userLocale : option string)
  : FingerprintConfig :=
  let systemLocale :=
    JS.or_else userLocale (JS.or_else (env_LANG sig) "en-US") in
  let timezoneOffset := timezoneOffset sig in
  let timezoneId := "America/New_York" in
  let timezoneId :=
    if (timezoneOffset <=? -480) && (timezoneOffset >? -600) then "Asia/Shanghai"
    else if timezoneOffset <=? -540 then "Asia/Tokyo"
    else if (timezoneOffset <=? -420) && (timezoneOffset >? -480) then "Asia/Bangkok"
    else if (timezoneOffset <=? 0) && (timezoneOffset >? -60) then "Europe/London"
    else if (timezoneOffset <=? 60) && (timezoneOffset >? 0) then "Europe/Berlin"
    else if (timezoneOffset <=? 300) && (timezoneOffset >? 240) then "America/New_York"
    else timezoneId in
  let hour := hours sig in
  let colorScheme := if (hour >=? 19) || (hour <? 7) then dark else light in
  let reducedMotion := no_preference in
  let forcedColors := none in
  let platform := platform sig in
  let deviceName := "Desktop Chrome" in
  let deviceName :=
    if (platform =? "darwin")%string then "Desktop Safari"
    else if (platform =? "win32")%string then "Desktop Edge"
    else if (platform =? "linux")%string then "Desktop Firefox"
    else deviceName in
  (* We are using Chrome *)
  let deviceName := "Desktop Chrome" in
  {| deviceName := deviceName;
     fp_locale := systemLocale;
     timezoneId := timezoneId;
     colorScheme := colorScheme;
     reducedMotion := reducedMotion;
     forcedColors := forcedColors |}.

(** *** The timezone table as the specification words it

    A table of offset ranges read top to bottom, first match wins, with a
    default for unmatched offsets. *)

Inductive Range : Type :=
| ClosedOpen (lo hi : Z)   (* [lo, hi) *)
| OpenClosed (lo hi : Z)   (* (lo, hi] *)
| AtMost (hi : Z).         (* (-inf, hi] *)

Definition inRange (x : Z) (r : Range) : bool :=
  match r with
  | ClosedOpen lo hi => (lo <=? x) && (x <? hi)
  | OpenClosed lo hi => (lo <? x) && (x <=? hi)
  | AtMost hi => x <=? hi
  end.

Fixpoint lookupZone (table : list (Range * string)) (default : string) (x : Z)
  : string :=
  match table with
  | [] => default
  | (r, zone) :: rest => if inRange x r then zone else lookupZone rest default x
  end.

(** The table as the specification states it. *)
Definition statedZoneTable : list (Range * string) :=
  [ (ClosedOpen (-600) (-480), "Asia/Shanghai");
    (AtMost (-540), "Asia/Tokyo");
    (ClosedOpen (-480) (-420), "Asia/Bangkok");
    (OpenClosed (-60) 0, "Europe/London");
    (OpenClosed 0 60, "Europe/Berlin");
    (OpenClosed 240 300, "America/New_York") ].

(** The table the code implements: the two Asian ranges are open below and
    closed above, like the others. *)
Definition implementedZoneTable : list (Range * string) :=
  [ (OpenClosed (-600) (-480), "Asia/Shanghai");
    (AtMost (-540), "Asia/Tokyo");
    (OpenClosed (-480) (-420), "Asia/Bangkok");
    (OpenClosed (-60) 0, "Europe/London");
    (OpenClosed 0 60, "Europe/Berlin");
    (OpenClosed 240 300, "America/New_York") ].

(** ** The page as the extraction callbacks observe it

    A DOM element is known to the program only through the members the
    callbacks read: its text, its [href] attribute, whether it is an
    [HTMLAnchorElement] (and then its resolved [href]), its parent, and the
    first descendant matching a selector. *)

Inductive Element : Type := mkElement {
  textContent : option string;
  getAttribute_href : option string;
  anchorHref : option string;        (* [Some u] iff [el instanceof HTMLAnchorElement] *)
  parentElement : option Element;
  querySelector : string -> option Element
}.

(** ** The environment *)

(** The playwright device registry maps a device name to a descriptor; only
    the identity of the descriptor matters here. *)
Definition DeviceDescriptor : Type := string.

Record BrowserContextOptions : Type := mkContextOptions {
  co_device : option DeviceDescriptor;   (* the descriptor spread into the options *)
  co_locale : string;
  co_timezoneId : string;
  co_colorScheme : ColorScheme;
  co_reducedMotion : ReducedMotion;
  co_forcedColors : ForcedColors;
  co_isMobile : option bool;
  co_hasTouch : option bool;
  co_storageState : option string
}.

(** The calls the program makes to the automation library and to the file
    system.  Timeouts and launch flags are constants of the call sites and are
    left out. *)
Inductive Call : Type :=
| chromium_launch (headless : bool)
| browser_newContext (o : BrowserContextOptions)
| browser_close
| context_addInitScript
| context_newPage
| context_storageState (path : string)
| context_close
| page_addInitScript
| page_goto (url : string)
| page_url
| page_close
| page_waitForNavigation
| page_query (selector : string)              (* page.$ *)
| page_evalAll (selector : string)            (* page.$$eval *)
| page_waitForSelector (selector : string)
| page_waitForLoadState
| page_waitForTimeout (ms : nat)
| searchInput_click
| keyboard_type (text : string) (delay : nat)
| keyboard_press (key : string)
| newBrowser_newContext (o : BrowserContextOptions)
| tempContext_newPage
| newBrowser_close
| fs_existsSync (path : string)
| fs_readFileSync (path : string)
| fs_mkdirSync (path : string)
| fs_writeFileSync (path : string) (data : SavedState).

Inductive Level := LInfo | LWarn | LError.

(** What a run leaves behind: its log lines, its external calls, and a mark
    for each entry into [performSearch]. *)
Inductive Event : Type :=
| ELog (level : Level) (message : string)
| ECall (c : Call)
| EEnter (headless : bool).

(** The part of the environment that does not change during a run. *)
Record Host : Type := mkHost {
  signals : HostSignals;
  env_STORAGE_STATE_PATH : option string;
  homedir : string;
  path_join : list string -> string;
  path_dirname : string -> string;
  devices : string -> option DeviceDescriptor;
  JSON_parse : string -> JS.Exn + Parsed   (* [JSON.parse]: throws, or any JSON
                                              value *)
}.

(** The part that answers calls.  The answer may depend on the instant of the
    call (the number of calls the run has made so far), so that a page may
    change between two observations, and a call may succeed once and fail
    later. *)
Record World : Type := mkWorld {
  fails : nat -> Call -> option JS.Exn;      (* the call made now throws *)
  url_at : nat -> string;                    (* page.url() *)
  response_at : nat -> option string;        (* URL of the response of goto, if not null *)
  found_at : nat -> string -> bool;          (* page.$(sel) is not null *)
  elements_at : nat -> string -> list Element;   (* elements matching sel *)
  exists_at : nat -> string -> bool;         (* fs.existsSync *)
  file_at : nat -> string -> string;         (* fs.readFileSync *)
  random_at : nat -> nat                     (* the source of Math.random *)
}.

(** ** A monad for the controller: state, trace and exceptions

    The state is the mutable [savedState] of [googleSearch] and the clock of
    the environment.  An exception keeps the state and the trace reached so
    far, as in JavaScript. *)

Inductive Result (A : Type) : Type :=
| Ok (a : A)
| Throw (e : JS.Exn)
| OutOfFuel.
Arguments Ok {A} a.
Arguments Throw {A} e.
Arguments OutOfFuel {A}.

Record St : Type := mkSt {
  savedState : SavedState;
  clock : nat
}.

Record Run (A : Type) : Type := mkRun {
  out : Result A;
  final : St;
  trace : list Event
}.
Arguments mkRun {A} out final trace.
Arguments out {A} r.
Arguments final {A} r.
Arguments trace {A} r.

Definition M (A : Type) : Type := St -> Run A.

Definition ret {A} (a : A) : M A := fun s => mkRun (Ok a) s [].

Definition throw {A} (e : JS.Exn) : M A := fun s => mkRun (Throw e) s [].

Definition outOfFuel {A} : M A := fun s => mkRun OutOfFuel s [].

Definition bind {A B} (m : M A) (f : A -> M B) : M B :=
  fun s =>
    let r := m s in
    match out r with
    | Ok a => let r' := f a (final r) in
              mkRun (out r') (final r') (trace r ++ trace r')
    | Throw e => mkRun (Throw e) (final r) (trace r)
    | OutOfFuel => mkRun OutOfFuel (final r) (trace r)
    end.

(** [try { m } catch (e) { h e }] *)
Definition try_catch {A} (m : M A) (h : JS.Exn -> M A) : M A :=
  fun s =>
    let r := m s in
    match out r with
    | Throw e => let r' := h e (final r) in
                 mkRun (out r') (final r') (trace r ++ trace r')
    | _ => r
    end.

(** [try { m } finally { f }] *)
Definition try_finally {A} (m : M A) (f : M unit) : M A :=
  fun s =>
    let r := m s in
    let r' := f (final r) in
    match out r' with
    | Ok _ => mkRun (out r) (final r') (trace r ++ trace r')
    | Throw e => mkRun (Throw e) (final r') (trace r ++ trace r')
    | OutOfFuel => mkRun OutOfFuel (final r') (trace r ++ trace r')
    end.

Declare Scope js_scope.
Delimit Scope js_scope with js.
Notation "x <- c1 ;; c2" := (bind c1 (fun x => c2))
  (at level 61, c1 at next level, right associativity) : js_scope.
Notation "' pat <- c1 ;; c2" := (bind c1 (fun x => match x with pat => c2 end))
  (at level 61, pat pattern, c1 at next level, right associativity) : js_scope.
Notation "c1 ;; c2" := (bind c1 (fun _ => c2))
  (at level 61, right associativity) : js_scope.
Local Open Scope js_scope.

Definition emit (ev : Event) : M unit := fun s => mkRun (Ok tt) s [ev].

Definition getSavedState : M SavedState := fun s => mkRun (Ok (savedState s)) s [].

Definition setSavedState (v : SavedState) : M unit :=
  fun s => mkRun (Ok tt) (mkSt v (clock s)) [].

(** [savedState.property], read: [null] has no properties, every other value
    answers (the modules of the program are strict code). *)
Definition readProperty (property : string) : M SavedState :=
  fun s =>
    match shape (savedState s) with
    | nullValue =>
        mkRun (Throw (JS.Error "TypeError"
                        ("Cannot read properties of null (reading '"
                         ^^ property ^^ "')"))) s []
    | _ => mkRun (Ok (savedState s)) s []
    end.

(** [savedState.property = ...]: [updated] is the value with the property
    set.  Neither [null] nor a primitive value takes a property. *)
Definition assignProperty (property : string) (updated : SavedState) : M unit :=
  fun s =>
    match shape (savedState s) with
    | nullValue =>
        mkRun (Throw (JS.Error "TypeError"
                        ("Cannot set properties of null (setting '"
                         ^^ property ^^ "')"))) s []
    | primitiveValue description =>
        mkRun (Throw (JS.Error "TypeError"
                        ("Cannot create property '" ^^ property ^^ "' on "
                         ^^ description))) s []
    | _ => mkRun (Ok tt) (mkSt updated (clock s)) []
    end.

(** The instant of the next call; the clock advances. *)
Definition tick : M nat :=
  fun s => mkRun (Ok (clock s)) (mkSt (savedState s) (S (clock s))) [].

Definition logger_info (msg : string) : M unit := emit (ELog LInfo msg).
Definition logger_warn (msg : string) : M unit := emit (ELog LWarn msg).
Definition logger_error (msg : string) : M unit := emit (ELog LError msg).

Definition when (b : bool) (m : M unit) : M unit := if b then m else ret tt.

Definition initialState : St := mkSt (mkSavedState None None plainObject) 0.

(** A call from outside: the saved state is empty and the clock at zero. *)
Definition run {A} (m : M A) : Run A := m initialState.

Section Environment.

Variable host : Host.
Variable world : World.

(** An external call that may throw and returns a value read off the
    environment. *)
Definition ask {A} (c : Call) (answer : nat -> A) : M A :=
  t <- tick ;;
  emit (ECall c) ;;
  match fails world t c with
  | Some e => throw e
  | None => ret (answer t)
  end.

(** An external call made for its effect. *)
Definition call (c : Call) : M unit := ask c (fun _ => tt).

(** A synchronous observation that never throws ([page.url()],
    [fs.existsSync]). *)
Definition observe {A} (c : Call) (answer : nat -> A) : M A :=
  t <- tick ;;
  emit (ECall c) ;;
  ret (answer t).

(** [Math.floor(Math.random() * n)] *)
Definition randomBelow (n : nat) : M nat :=
  t <- tick ;;
  ret (Nat.modulo (random_at world t) n).

(** *** storageConfig.ts *)

Definition expandPath (inputPath : string) : string :=
  if JS.startsWith inputPath "~/" then
    path_join host [homedir host; JS.drop 2 inputPath]
  else if JS.startsWith inputPath "$HOME/" then
    path_join host [homedir host; JS.drop 6 inputPath]
  else if (inputPath =? "~")%string || (inputPath =? "$HOME")%string then
    homedir host
  else inputPath.

(** The directory [getStorageStateDir] decides on, before it creates it. *)
Definition storageDirPath : string :=
  let envPath := env_STORAGE_STATE_PATH host in
  let defaultPath := path_join host [homedir host; ".local"; "mcp"; "share"] in
  match envPath with
  | Some p => if JS.truthy p then expandPath p else defaultPath
  | None => defaultPath
  end.

Definition getStorageStateDir : M string :=
  let storageDir := storageDirPath in
  ex <- observe (fs_existsSync storageDir) (fun t => exists_at world t storageDir) ;;
  when (negb ex) (call (fs_mkdirSync storageDir)) ;;
  ret storageDir.

Definition getStateFilePath (filename : string) : M string :=
  storageDir <- getStorageStateDir ;;
  ret (path_join host [storageDir; filename]).

(** *** googleSearch: constants of the closure *)

Definition deviceList : list string :=
  [ "Desktop Chrome"; "Desktop Edge"; "Desktop Firefox"; "Desktop Safari" ].

Definition timezoneList : list string :=
  [ "America/New_York"; "Europe/London"; "Asia/Shanghai"; "Europe/Berlin";
    "Asia/Tokyo" ].

Definition googleDomains : list string :=
  [ "https://www.google.com"; "https://www.google.co.uk";
    "https://www.google.ca"; "https://www.google.com.au" ].

Definition captchaPatterns : list string :=
  [ "google.com/sorry/index"; "google.com/sorry"; "recaptcha"; "captcha";
    "unusual traffic" ].

Definition searchInputSelectors : list string :=
  [ "textarea[name='q']"; "input[name='q']"; "textarea[title='Search']";
    "input[title='Search']"; "textarea[aria-label='Search']";
    "input[aria-label='Search']"; "textarea" ].

Definition searchResultSelectors : list string :=
  [ "#search"; "#rso"; ".g"; "[data-sokoban-container]"; "div[role='main']" ].

Record ResultSelector : Type := mkSelector {
  sel_container : string;
  sel_title : string;
  sel_snippet : string
}.

Definition resultSelectors : list ResultSelector :=
  [ mkSelector "#search .g" "h3" ".VwiC3b";
    mkSelector "#rso .g" "h3" ".VwiC3b";
    mkSelector ".g" "h3" ".VwiC3b";
    mkSelector "[data-sokoban-container] > div" "h3" "[data-sncf='1']";
    mkSelector "div[role='main'] .g" "h3" "[data-sncf='1']" ].

Definition showColorScheme (c : ColorScheme) : string :=
  match c with dark => "dark" | light => "light" end.

(** *** ResultExtractor: the callbacks evaluated in the page *)

(** [item.title && item.link] *)
Definition nonEmptyItem (item : SearchResult) : bool :=
  JS.truthy (title item) && JS.truthy (link item).

Definition structuredItem (titleSelector snippetSelector : string) (el : Element)
  : SearchResult :=
  let titleElement := querySelector el titleSelector in
  let linkElement := querySelector el "a" in
  let snippetElement := querySelector el snippetSelector in
  {| title := match titleElement with
              | Some t => JS.or_else (textContent t) EmptyString
              | None => EmptyString
              end;
     link := match linkElement with
             | Some l => match anchorHref l with Some h => h | None => EmptyString end
             | None => EmptyString
             end;
     snippet := match snippetElement with
                | Some sn => JS.or_else (textContent sn) EmptyString
                | None => EmptyString
                end |}.

Definition structuredCallback (maxResults : Z) (titleSelector snippetSelector : string)
  (elements : list Element) : list SearchResult :=
  filter nonEmptyItem
    (map (structuredItem titleSelector snippetSelector)
       (JS.slice0 maxResults elements)).

(** The loop [for (let i = 0; i < 3 && parent; i++)] of the fallback scan. *)
Fixpoint surroundingText (rounds : nat) (parent : option Element)
  (title snippet : string) : string :=
  match rounds, parent with
  | S rounds', Some p =>
      let text := JS.or_else (textContent p) EmptyString in
      let snippet :=
        if (String.length snippet <? String.length text)%nat
           && negb (text =? title)%string
        then text else snippet in
      surroundingText rounds' (parentElement p) title snippet
  | _, _ => snippet
  end.

Definition externalLink (el : Element) : bool :=
  let href := JS.or_else (getAttribute_href el) EmptyString in
  JS.startsWith href "http"
  && negb (JS.includes href "google.com/")
  && negb (JS.includes href "accounts.google")
  && negb (JS.includes href "support.google").

Definition fallbackItem (el : Element) : SearchResult :=
  let title := JS.or_else (textContent el) EmptyString in
  let link := match anchorHref el with
              | Some h => h
              | None => JS.or_else (getAttribute_href el) EmptyString
              end in
  let snippet := surroundingText 3 (parentElement el) title EmptyString in
  {| title := title; link := link; snippet := snippet |}.

Definition fallbackCallback (maxResults : Z) (elements : list Element)
  : list SearchResult :=
  filter nonEmptyItem
    (map fallbackItem (JS.slice0 maxResults (filter externalLink elements))).

(** The synthetic result of the failure path. *)
Definition failureResult (error : JS.Exn) : SearchResult :=
  {| title := "Search failed";
     link := EmptyString;
     snippet := "Unable to complete search, error message: " ^^ JS.messageOf error |}.

(** *** googleSearch: the closure of one call

    The destructured options (with their defaults applied) and the values
    computed before [performSearch] is first called. *)

Section Closure.

Variable query : string.
Variable limit : Z.
Variable stateFile : string.
Variable noSaveState : bool.
Variable locale : string.
Variable debug : bool.                    (* truthiness of [options.debug] *)
Variable existingBrowser : bool.          (* a browser was supplied by the caller *)
Variable storageState : option string.
Variable fingerprintFile : string.

Definition getDeviceConfig : M (string * option DeviceDescriptor) :=
  savedState <- readProperty "fingerprint" ;;
  let saved :=
    match fingerprint savedState with
    | Some fp =>
        if JS.truthy (deviceName fp) then
          match devices host (deviceName fp) with
          | Some d => Some (deviceName fp, Some d)
          | None => None
          end
        else None
    | None => None
    end in
  match saved with
  | Some r => ret r
  | None =>
      i <- randomBelow (List.length deviceList) ;;
      let randomDevice := nth i deviceList EmptyString in
      ret (randomDevice, devices host randomDevice)
  end.

Definition getRandomDelay (min max : nat) : M nat :=
  r <- randomBelow (max - min + 1) ;;
  ret (r + min)%nat.

Definition acquireBrowser (headless : bool) : M bool :=
  if existingBrowser then
    logger_info "[GoogleSearch] Using existing browser instance" ;;
    ret true
  else
    logger_info ("[GoogleSearch] Preparing to launch browser in "
                 ^^ (if headless then "headless" else "non-headless") ^^ " mode...") ;;
    call (chromium_launch headless) ;;
    logger_info "[GoogleSearch] Browser launched successfully!" ;;
    ret false.

Definition contextOptionsOf (device : option DeviceDescriptor) (fp : FingerprintConfig)
  : BrowserContextOptions :=
  {| co_device := device;
     co_locale := fp_locale fp;
     co_timezoneId := timezoneId fp;
     co_colorScheme := colorScheme fp;
     co_reducedMotion := reducedMotion fp;
     co_forcedColors := forcedColors fp;
     co_isMobile := Some false;
     co_hasTouch := Some false;
     co_storageState := None |}.

Definition withStorageState (o : BrowserContextOptions) (path : string)
  : BrowserContextOptions :=
  {| co_device := co_device o;
     co_locale := co_locale o;
     co_timezoneId := co_timezoneId o;
     co_colorScheme := co_colorScheme o;
     co_reducedMotion := co_reducedMotion o;
     co_forcedColors := co_forcedColors o;
     co_isMobile := co_isMobile o;
     co_hasTouch := co_hasTouch o;
     co_storageState := Some path |}.

(** Lines 256-312: the context options, from the saved fingerprint or from
    the host machine. *)
Definition resolveContextOptions : M BrowserContextOptions :=
  ' (deviceName_, deviceConfig) <- getDeviceConfig ;;
  savedState <- readProperty "fingerprint" ;;
  match fingerprint savedState with
  | Some fp =>
      logger_info "[GoogleSearch] Using saved browser fingerprint configuration" ;;
      ret (contextOptionsOf deviceConfig fp)
  | None =>
      let hostConfig := getHostMachineConfig (signals host) (Some locale) in
      device <-
        (if negb (deviceName hostConfig =? deviceName_)%string then
           logger_info ("[GoogleSearch] Using device type based on host machine settings: "
                        ^^ deviceName hostConfig) ;;
           ret (devices host (deviceName hostConfig))
         else ret deviceConfig) ;;
      assignProperty "fingerprint"
        (mkSavedState (Some hostConfig) (googleDomain savedState) (shape savedState)) ;;
      logger_info ("[GoogleSearch] Generated new browser fingerprint config based on host machine: locale="
                   ^^ fp_locale hostConfig ^^ ", timezone=" ^^ timezoneId hostConfig
                   ^^ ", colorScheme=" ^^ showColorScheme (colorScheme hostConfig)
                   ^^ ", deviceType=" ^^ deviceName hostConfig) ;;
      ret (contextOptionsOf device hostConfig)
  end.

(** *** One invocation of [performSearch] *)

(** How the guarded region is left: [return { query, results }] or
    [return performSearch(false)]. *)
Inductive Step : Type :=
| Return (r : SearchResponse)
| Retry.

(** How a CAPTCHA checkpoint is left. *)
Inductive Flow : Type :=
| Continue
| ReturnRetry.

Section Invocation.

Variable headless : bool.
Variable browserWasProvided : bool.
Variable contextOptions : BrowserContextOptions.

(** The headless branch of the three CAPTCHA checkpoints (lines 410-478,
    544-614, 665-735): the three copies differ in their log lines only. *)
Definition restartVisible (detected detectedExternal : string) : M Flow :=
  logger_warn detected ;;
  call page_close ;;
  call context_close ;;
  if browserWasProvided then
    logger_warn detectedExternal ;;
    call (chromium_launch false) ;;
    try_catch
      (call (newBrowser_newContext contextOptions) ;;
       call tempContext_newPage ;;
       call newBrowser_close ;;
       ret ReturnRetry)
      (fun error => call newBrowser_close ;; throw error)
  else
    call browser_close ;;
    ret ReturnRetry.

Definition isBlocked (url : string) : bool :=
  existsb (fun pattern => JS.includes url pattern) captchaPatterns.

(** Lines 800-851: the structured strategies. *)
Fixpoint structuredLoop (selectors : list ResultSelector) (results : list SearchResult)
  : M (list SearchResult) :=
  match selectors with
  | [] => ret results
  | selector :: rest =>
      ' (results, break) <-
        try_catch
          (results <- ask (page_evalAll (sel_container selector))
                        (fun t => structuredCallback limit (sel_title selector)
                                    (sel_snippet selector)
                                    (elements_at world t (sel_container selector))) ;;
           if (0 <? List.length results)%nat then
             logger_info ("[GoogleSearch] Successfully extracted results with selector: "
                          ^^ sel_container selector) ;;
             ret (results, true)
           else ret (results, false))
          (fun _ => ret (results, false)) ;;
      if break then ret results else structuredLoop rest results
  end.

(** Lines 798-899. *)
Definition extractResults : M (list SearchResult) :=
  results <- structuredLoop resultSelectors [] ;;
  results <-
    (if (List.length results =? 0)%nat then
       logger_warn "[GoogleSearch] Using fallback method to extract search results..." ;;
       ask (page_evalAll "a[href^='http']")
         (fun t => fallbackCallback limit (elements_at world t "a[href^='http']"))
     else ret results) ;;
  logger_info ("[GoogleSearch] Successfully retrieved search results: "
               ^^ JS.showNat (List.length results) ^^ " items") ;;
  ret results.

(** Lines 901-932. *)
Definition saveStateOnSuccess : M unit :=
  try_catch
    (if negb noSaveState then
       logger_info "[GoogleSearch] Saving browser state..." ;;
       let stateDir := path_dirname host stateFile in
       ex <- observe (fs_existsSync stateDir) (fun t => exists_at world t stateDir) ;;
       when (negb ex) (call (fs_mkdirSync stateDir)) ;;
       call (context_storageState stateFile) ;;
       logger_info "[GoogleSearch] Browser state saved successfully!" ;;
       try_catch
         (savedState <- getSavedState ;;
          call (fs_writeFileSync fingerprintFile savedState) ;;
          logger_info "[GoogleSearch] Fingerprint configuration saved")
         (fun fingerprintError =>
            logger_error ("[GoogleSearch] Error saving fingerprint configuration: "
                          ^^ JS.String_ fingerprintError))
     else
       logger_info "[GoogleSearch] Not saving browser state as per user setting")
    (fun error =>
       logger_error ("[GoogleSearch] Error saving browser state: " ^^ JS.String_ error)).

(** Lines 934-940 and 976-982: the same text on both paths. *)
Definition closeOrKeep : M unit :=
  if negb browserWasProvided && negb debug then
    logger_info "[GoogleSearch] Closing browser..." ;;
    call browser_close
  else
    logger_info "[GoogleSearch] Keeping browser instance open".

(** Lines 776-946. *)
Definition extractAndReturn : M Step :=
  delay <- getRandomDelay 200 500 ;;
  call (page_waitForTimeout delay) ;;
  logger_info "[GoogleSearch] Extracting search results..." ;;
  results <- extractResults ;;
  saveStateOnSuccess ;;
  closeOrKeep ;;
  ret (Return (mkResponse query results)).

(** The two loops over [searchResultSelectors] (lines 646-655, 753-762). *)
Fixpoint waitForResults (found : string) (selectors : list string) : M bool :=
  match selectors with
  | [] => ret false
  | selector :: rest =>
      resultsFound <-
        try_catch
          (call (page_waitForSelector selector) ;;
           logger_info (found ^^ selector) ;;
           ret true)
          (fun _ => ret false) ;;
      if resultsFound then ret true else waitForResults found rest
  end.

(** Lines 634-774. *)
Definition awaitResults : M Step :=
  url <- observe page_url (url_at world) ;;
  logger_info ("[GoogleSearch] Waiting for search results to load... URL: " ^^ url) ;;
  resultsFound <-
    waitForResults "[GoogleSearch] Found search results with selector: "
      searchResultSelectors ;;
  flow <-
    (if negb resultsFound then
       currentUrl <- observe page_url (url_at world) ;;
       let isBlockedDuringResults := isBlocked currentUrl in
       if isBlockedDuringResults then
         if headless then
           restartVisible
             "[GoogleSearch] CAPTCHA detected while waiting for results, will restart browser in non-headless mode..."
             "[GoogleSearch] CAPTCHA detected while waiting for results with external browser instance, creating new browser instance..."
         else
           logger_warn "[GoogleSearch] CAPTCHA detected while waiting for results, please complete verification in browser..." ;;
           call page_waitForNavigation ;;
           logger_info "[GoogleSearch] CAPTCHA verification completed, continuing with search..." ;;
           resultsFound <-
             waitForResults
               "[GoogleSearch] Found search results after verification with selector: "
               searchResultSelectors ;;
           if negb resultsFound then
             logger_error "[GoogleSearch] Could not find search result elements" ;;
             throw (JS.newError "Could not find search result elements")
           else ret Continue
       else
         logger_error "[GoogleSearch] Could not find search result elements" ;;
         throw (JS.newError "Could not find search result elements")
     else ret Continue) ;;
  match flow with
  | ReturnRetry => ret Retry
  | Continue => extractAndReturn
  end.

(** The loop over [searchInputSelectors] (lines 508-515). *)
Fixpoint findSearchInput (selectors : list string) : M bool :=
  match selectors with
  | [] => ret false
  | selector :: rest =>
      searchInput <- ask (page_query selector) (fun t => found_at world t selector) ;;
      if searchInput then
        logger_info ("[GoogleSearch] Found search box with selector: " ^^ selector) ;;
        ret true
      else findSearchInput rest
  end.

(** Lines 495-632. *)
Definition submitQuery : M Step :=
  logger_info ("[GoogleSearch] Entering search keyword: " ^^ query) ;;
  searchInput <- findSearchInput searchInputSelectors ;;
  (if negb searchInput then
     logger_error "[GoogleSearch] Could not find search box" ;;
     throw (JS.newError "Could not find search box")
   else ret tt) ;;
  call searchInput_click ;;
  delay <- getRandomDelay 10 30 ;;
  call (keyboard_type query delay) ;;
  pause <- getRandomDelay 100 300 ;;
  call (page_waitForTimeout pause) ;;
  call (keyboard_press "Enter") ;;
  logger_info "[GoogleSearch] Waiting for page to load..." ;;
  call page_waitForLoadState ;;
  searchUrl <- observe page_url (url_at world) ;;
  let isBlockedAfterSearch := isBlocked searchUrl in
  flow <-
    (if isBlockedAfterSearch then
       if headless then
         restartVisible
           "[GoogleSearch] CAPTCHA detected after search, will restart browser in non-headless mode..."
           "[GoogleSearch] CAPTCHA detected after search with external browser instance, creating new browser instance..."
       else
         logger_warn "[GoogleSearch] CAPTCHA detected after search, please complete verification in browser..." ;;
         call page_waitForNavigation ;;
         logger_info "[GoogleSearch] CAPTCHA verification completed, continuing with search..." ;;
         call page_waitForLoadState ;;
         ret Continue
     else ret Continue) ;;
  match flow with
  | ReturnRetry => ret Retry
  | Continue => awaitResults
  end.

(** Lines 372-493. *)
Definition selectDomain : M string :=
  savedState <- readProperty "googleDomain" ;;
  let saved := match googleDomain savedState with
               | Some d => if JS.truthy d then Some d else None
               | None => None
               end in
  match saved with
  | Some selectedDomain =>
      logger_info ("[GoogleSearch] Using saved Google domain: " ^^ selectedDomain) ;;
      ret selectedDomain
  | None =>
      i <- randomBelow (List.length googleDomains) ;;
      let selectedDomain := nth i googleDomains EmptyString in
      assignProperty "googleDomain"
        (mkSavedState (fingerprint savedState) (Some selectedDomain) (shape savedState)) ;;
      logger_info ("[GoogleSearch] Randomly selected Google domain: " ^^ selectedDomain) ;;
      ret selectedDomain
  end.

(** The guarded region: the [try] block of lines 371-947. *)
Definition searchBody : M Step :=
  selectedDomain <- selectDomain ;;
  logger_info "[GoogleSearch] Visiting Google search page..." ;;
  response <- ask (page_goto selectedDomain) (response_at world) ;;
  currentUrl <- observe page_url (url_at world) ;;
  let isBlockedPage :=
    existsb (fun pattern =>
               JS.includes currentUrl pattern
               || match response with
                  | Some responseUrl => JS.includes responseUrl pattern
                  | None => false
                  end) captchaPatterns in
  flow <-
    (if isBlockedPage then
       if headless then
         restartVisible
           "[GoogleSearch] CAPTCHA detected, will restart browser in non-headless mode..."
           "[GoogleSearch] CAPTCHA detected with external browser instance, creating new browser instance..."
       else
         logger_warn "[GoogleSearch] CAPTCHA detected, please complete verification in browser..." ;;
         call page_waitForNavigation ;;
         logger_info "[GoogleSearch] CAPTCHA verification completed, continuing with search..." ;;
         ret Continue
     else ret Continue) ;;
  match flow with
  | ReturnRetry => ret Retry
  | Continue => submitQuery
  end.

(** Lines 950-974. *)
Definition saveStateOnError : M unit :=
  try_catch
    (when (negb noSaveState)
       (logger_info "[GoogleSearch] Saving browser state after error..." ;;
        let stateDir := path_dirname host stateFile in
        ex <- observe (fs_existsSync stateDir) (fun t => exists_at world t stateDir) ;;
        when (negb ex) (call (fs_mkdirSync stateDir)) ;;
        call (context_storageState stateFile) ;;
        try_catch
          (savedState <- getSavedState ;;
           call (fs_writeFileSync fingerprintFile savedState) ;;
           logger_info "[GoogleSearch] Fingerprint configuration saved after error")
          (fun fingerprintError =>
             logger_error ("[GoogleSearch] Error saving fingerprint configuration: "
                           ^^ JS.String_ fingerprintError))))
    (fun stateError =>
       logger_error ("[GoogleSearch] Error saving browser state: " ^^ JS.String_ stateError)).

(** The handler: the [catch] block of lines 947-997. *)
Definition onSearchError (error : JS.Exn) : M Step :=
  logger_error ("[GoogleSearch] Error during search: " ^^ JS.String_ error) ;;
  saveStateOnError ;;
  closeOrKeep ;;
  ret (Return (mkResponse query [failureResult error])).

End Invocation.

(** The [try { ... } catch (error) { ... }] of lines 371-997. *)
Definition guarded (headless browserWasProvided : bool)
  (contextOptions : BrowserContextOptions) : M Step :=
  try_catch (searchBody headless browserWasProvided contextOptions)
    (onSearchError browserWasProvided).

(** One activation of [performSearch] (lines 206-998), up to the statement
    that leaves it; [activation] marks the entry in the trace. *)
Definition prepareAndSearch (headless : bool) : M Step :=
  browserWasProvided <- acquireBrowser headless ;;
  contextOptions <- resolveContextOptions ;;
  when (match storageState with Some p => JS.truthy p | None => false end)
    (logger_info "[GoogleSearch] Loading saved browser state...") ;;
  call (browser_newContext
          (match storageState with
           | Some p => if JS.truthy p then withStorageState contextOptions p
                       else contextOptions
           | None => contextOptions
           end)) ;;
  call context_addInitScript ;;
  call context_newPage ;;
  call page_addInitScript ;;
  guarded headless browserWasProvided contextOptions.

Definition activation (headless : bool) : M Step :=
  emit (EEnter headless) ;;
  prepareAndSearch headless.

(** [performSearch].  The recursive calls are the
    [return performSearch(false)] of the CAPTCHA checkpoints; they are not
    awaited inside the [try], so the callee's outcome is the caller's. *)
Fixpoint performSearch (fuel : nat) (headless : bool) : M SearchResponse :=
  match fuel with
  | O => outOfFuel
  | S fuel' =>
      step <- activation headless ;;
      match step with
      | Return r => ret r
      | Retry => performSearch fuel' false
      end
  end.

End Closure.

(** The path of the identity sidecar, derived from the snapshot path. *)
Definition fingerprintFileOf (stateFile : string) : string :=
  JS.replace stateFile ".json" "-fingerprint.json".

(** Lines 127-154: the storage snapshot to load, and the saved identity. *)
Definition loadSavedState (stateFile fingerprintFile : string) : M (option string) :=
  ex <- observe (fs_existsSync stateFile) (fun t => exists_at world t stateFile) ;;
  if ex then
    logger_info "[GoogleSearch] Found browser state file, will use saved browser state to avoid bot detection" ;;
    ex' <- observe (fs_existsSync fingerprintFile)
             (fun t => exists_at world t fingerprintFile) ;;
    when ex'
      (try_catch
         (fingerprintData <- ask (fs_readFileSync fingerprintFile)
                               (fun t => file_at world t fingerprintFile) ;;
          match JSON_parse host fingerprintData with
          | inl e => throw e
          | inr parsed => setSavedState (stored parsed)
          end ;;
          logger_info "[GoogleSearch] Loaded saved browser fingerprint configuration")
         (fun e =>
            logger_warn "[GoogleSearch] Cannot load fingerprint file, will create new fingerprint")) ;;
    ret (Some stateFile)
  else
    logger_info "[GoogleSearch] No browser state file found, will create new browser session and fingerprint" ;;
    ret None.

(** The state file of a call: the option, or the default path. *)
Definition stateFileOf (options : SearchOptions) : string :=
  match stateFile options with
  | Some p => p
  | None => path_join host [storageDirPath; "browser-state.json"]
  end.

(** The destructuring of [options], with the defaults of the source. *)
Definition limitOf (options : SearchOptions) : Z :=
  match limit options with Some n => n | None => 10 end.

Definition noSaveStateOf (options : SearchOptions) : bool :=
  match noSaveState options with Some b => b | None => false end.

Definition localeOf (options : SearchOptions) : string :=
  match locale options with Some l => l | None => "en-US" end.

(** Truthiness of [options.debug]. *)
Definition debugOf (options : SearchOptions) : bool :=
  match debug options with Some b => b | None => false end.

(** [googleSearch]: lines 108-1002. *)
Definition googleSearch (fuel : nat) (query : string) (options : SearchOptions)
  (existingBrowser : bool) : M SearchResponse :=
  let limit := limitOf options in
  stateFile <-
    match stateFile options with
    | Some p => ret p
    | None => getStateFilePath "browser-state.json"
    end ;;
  let noSaveState := noSaveStateOf options in
  let locale := localeOf options in
  let useHeadless := negb (debugOf options) in
  let debug := debugOf options in
  logger_info "[GoogleSearch] Initializing browser..." ;;
  let fingerprintFile := fingerprintFileOf stateFile in
  storageState <- loadSavedState stateFile fingerprintFile ;;
  performSearch query limit stateFile noSaveState locale debug existingBrowser
    storageState fingerprintFile fuel useHeadless.

End Environment.

(** ** MultiQueryCoordinator: [multiGoogleSearch] (lines 1010-1079)

    Each query runs in a browsing context of its own, so each has an
    environment of its own ([sessions i]); the coordinator's own calls are
    answered by [world].  The traces of the queries are listed in query
    order: the interleaving of the concurrent runs is not represented, except
    for the one thing the outcome depends on, which rejection [Promise.all]
    sees first ([race]). *)

Section Coordinator.

Variable host : Host.
Variable world : World.
Variable sessions : nat -> World.
Variable fuel : nat.
Variable race : nat.   (* the scheduling: which rejected run is rejected first *)

(** A started [googleSearch(query, searchOptions, browser)]: a promise that
    settles with the outcome of the run. *)
Definition startSearch (index : nat) (query : string) (searchOptions : SearchOptions)
  : M (Result SearchResponse) :=
  fun s =>
    let r := googleSearch host (sessions index) fuel query searchOptions true initialState in
    mkRun (Ok (out r)) s (trace r).

(** The values of the promises, when every one of them is fulfilled. *)
Fixpoint fulfilled {A} (settled : list (Result A)) : option (list A) :=
  match settled with
  | [] => Some []
  | Ok a :: rest =>
      match fulfilled rest with
      | Some l => Some (a :: l)
      | None => None
      end
  | _ :: _ => None
  end.

(** The rejections among the promises, in input order. *)
Fixpoint rejections {A} (settled : list (Result A)) : list JS.Exn :=
  match settled with
  | [] => []
  | Throw e :: rest => e :: rejections rest
  | _ :: rest => rejections rest
  end.

(** [Promise.all]: the values in input order when every promise is
    fulfilled; otherwise the rejection of the promise rejected first in time,
    which [race] picks among the rejected ones.  (A run out of fuel is a
    promise that does not settle.) *)
Definition promiseAll {A} (race : nat) (settled : list (Result A)) : Result (list A) :=
  match fulfilled settled with
  | Some values => Ok values
  | None =>
      match nth_error (rejections settled)
              (Nat.modulo race (List.length (rejections settled))) with
      | Some e => Throw e
      | None => OutOfFuel
      end
  end.

Definition await {A} (settled : Result A) : M A :=
  match settled with
  | Ok a => ret a
  | Throw e => throw e
  | OutOfFuel => outOfFuel
  end.

(** [queries.map((query, index) => ...)] *)
Fixpoint startAll (options : SearchOptions) (index : nat) (queries : list string)
  : M (list (Result SearchResponse)) :=
  match queries with
  | [] => ret []
  | query :: rest =>
      stateFile_ <-
        (let indexed :=
           match stateFile options with
           | Some p => if JS.truthy p then Some (p ^^ "-" ^^ JS.showNat index) else None
           | None => None
           end in
         match indexed with
         | Some p => ret p
         | None => getStateFilePath host world
                     ("browser-state-" ^^ JS.showNat index ^^ ".json")
         end) ;;
      let searchOptions :=
        {| limit := limit options;
           timeout := timeout options;
           stateFile := Some stateFile_;
           noSaveState := noSaveState options;
           locale := locale options;
           debug := debug options |} in
      logger_info ("[MultiSearch] Starting search #" ^^ JS.showNat (index + 1)
                   ^^ " for query: " ^^ JS.quote ^^ query ^^ JS.quote) ;;
      promise <- startSearch index query searchOptions ;;
      promises <- startAll options (S index) rest ;;
      ret (promise :: promises)
  end.

Definition multiGoogleSearch (queries : list string) (options : SearchOptions)
  : M (list SearchResponse) :=
  match queries with
  | [] => throw (JS.newError "At least one search query is required")
  | _ :: _ =>
      let debug := match debug options with Some b => b | None => false end in
      logger_info ("[MultiSearch] Starting multiple searches for "
                   ^^ JS.showNat (List.length queries) ^^ " queries...") ;;
      call world (chromium_launch (negb debug)) ;;
      try_finally
        (promises <- startAll options 0 queries ;;
         searches <- await (promiseAll race promises) ;;
         logger_info "[MultiSearch] All searches completed successfully" ;;
         ret searches)
        (if negb debug then
           logger_info "[MultiSearch] Closing main browser instance" ;;
           call world browser_close
         else
           logger_info "[MultiSearch] Keeping browser instance open for debug mode")
  end.

End Coordinator.

(** ** Example environments

    Concrete hosts, pages and worlds on which the model is run. *)

Module Examples.

Definition defaultOptions : SearchOptions :=
  {| limit := None; timeout := None; stateFile := Some "/data/state.json";
     noSaveState := None; locale := None; debug := None |}.

Definition signalsUTC8 : HostSignals :=
  {| env_LANG := None; timezoneOffset := -480; hours := 12; platform := "linux" |}.

Definition savedIdentity : SavedState :=
  {| fingerprint := Some {| deviceName := "Desktop Safari"; fp_locale := "fr-FR";
                            timezoneId := "Europe/Paris"; colorScheme := dark;
                            reducedMotion := reduce; forcedColors := active |};
     googleDomain := Some "https://www.google.ca";
     shape := plainObject |}.

(** The sidecar text that parses to [savedIdentity]. *)
Definition parsedIdentity : Parsed :=
  parsedObject (fingerprint savedIdentity) (googleDomain savedIdentity).

(** A host whose JSON parser knows four texts and rejects the rest. *)
Definition host : Host :=
  {| signals := signalsUTC8;
     env_STORAGE_STATE_PATH := None;
     homedir := "/home/u";
     path_join := fun parts => String.concat "/" parts;
     path_dirname := fun _ => "/data";
     devices := fun name => if existsb (String.eqb name) deviceList then Some name else None;
     JSON_parse := fun text =>
       if (text =? "{identity}")%string then inr parsedIdentity
       else if (text =? "null")%string then inr parsedNull
       else if (text =? "5")%string then inr (parsedPrimitive "number '5'")
       else if (text =? "[]")%string then inr parsedArray
       else inl (JS.Error "SyntaxError" "Unexpected token") |}.

Definition leaf (text : string) : Element :=
  mkElement (Some text) None None None (fun _ => None).

Definition anchor (href text : string) (parent : option Element) : Element :=
  mkElement (Some text) (Some href) (Some href) parent (fun _ => None).

(** A result block: a heading, a link and a snippet. *)
Definition resultBlock (heading href text : string) : Element :=
  mkElement (Some (heading ^^ text)) None None None
    (fun sel =>
       if (sel =? "h3")%string then Some (leaf heading)
       else if (sel =? "a")%string then Some (anchor href heading None)
       else if (sel =? ".VwiC3b")%string then Some (leaf text)
       else None).

Definition threeBlocks : list Element :=
  [ resultBlock "Rocq" "https://rocq-prover.org/" "The Rocq prover";
    resultBlock "OCaml" "https://ocaml.org/" "The OCaml language";
    resultBlock "Inria" "https://inria.fr/" "Research institute" ].

(** A world in which nothing fails, the results page is reached without a
    challenge and the first structured strategy matches three blocks.  No
    file exists. *)
Definition calm : World :=
  {| fails := fun _ _ => None;
     url_at := fun _ => "https://www.google.com/search?q=test";
     response_at := fun _ => Some "https://www.google.com/";
     found_at := fun _ _ => true;
     elements_at := fun _ sel => if (sel =? "#search .g")%string then threeBlocks else [];
     exists_at := fun _ _ => false;
     file_at := fun _ _ => "{identity}";
     random_at := fun _ => 0%nat |}.

(** The same world, except that calls satisfying [bad] throw. *)
Definition failing (bad : Call -> bool) (w : World) : World :=
  {| fails := fun t c => if bad c then Some (JS.Error "Error" "browser unavailable")
                         else fails w t c;
     url_at := url_at w; response_at := response_at w; found_at := found_at w;
     elements_at := elements_at w; exists_at := exists_at w; file_at := file_at w;
     random_at := random_at w |}.

Definition isLaunch (c : Call) : bool :=
  match c with chromium_launch _ => true | _ => false end.

Definition isGoto (c : Call) : bool :=
  match c with page_goto _ => true | _ => false end.

(** The target answers every navigation with its challenge page. *)
Definition challenged (w : World) : World :=
  {| fails := fails w;
     url_at := fun _ => "https://www.google.com/sorry/index?continue=x";
     response_at := response_at w; found_at := found_at w;
     elements_at := elements_at w; exists_at := exists_at w; file_at := file_at w;
     random_at := random_at w |}.

(** The files selected by [present] exist, with the given sidecar text. *)
Definition withFiles (present : string -> bool) (text : string) (w : World) : World :=
  {| fails := fails w; url_at := url_at w; response_at := response_at w;
     found_at := found_at w; elements_at := elements_at w;
     exists_at := fun _ path => present path;
     file_at := fun _ _ => text;
     random_at := random_at w |}.

Definition withLimit (n : Z) (o : SearchOptions) : SearchOptions :=
  {| limit := Some n; timeout := timeout o; stateFile := stateFile o;
     noSaveState := noSaveState o; locale := locale o; debug := debug o |}.

(** Two sessions: the navigation of the first query fails, the second
    query meets the calm world. *)
Definition firstFails (index : nat) : World :=
  match index with
  | O => failing isGoto calm
  | S _ => calm
  end.

Definition isNewContext (c : Call) : bool :=
  match c with browser_newContext _ => true | _ => false end.

(** Two sessions: the browsing context of the first query cannot be
    created. *)
Definition firstHasNoContext (index : nat) : World :=
  match index with
  | O => failing isNewContext calm
  | S _ => calm
  end.

(** Two sessions: the context of the first query cannot be created, and
    the sidecar of the second holds [null]. *)
Definition twoRejections (index : nat) : World :=
  match index with
  | O => failing isNewContext calm
  | S _ => withFiles (fun _ => true) "null" calm
  end.

(** Only the sidecar of [defaultOptions] exists, and it parses. *)
Definition sidecarOnly : World :=
  withFiles (fun path => (path =? "/data/state-fingerprint.json")%string)
    "{identity}" calm.

(** Only the sidecar exists, and it does not parse. *)
Definition corruptedSidecarOnly : World :=
  withFiles (fun path => (path =? "/data/state-fingerprint.json")%string)
    "{identi" calm.

(** Snapshot and sidecar exist; the sidecar does not parse. *)
Definition corruptedSidecar : World :=
  withFiles (fun _ => true) "{identi" calm.

(** Snapshot and sidecar exist; the sidecar parses. *)
Definition returningUser : World :=
  withFiles (fun _ => true) "{identity}" calm.

(** Snapshot and sidecar exist; the sidecar holds [null]. *)
Definition nullSidecar : World :=
  withFiles (fun _ => true) "null" calm.

Definition presentsLocale (l : string) (ev : Event) : bool :=
  match ev with
  | ECall (browser_newContext o) => (co_locale o =? l)%string
  | _ => false
  end.

Definition withNoSaveState (o : SearchOptions) : SearchOptions :=
  {| limit := limit o; timeout := timeout o; stateFile := stateFile o;
     noSaveState := Some true; locale := locale o; debug := debug o |}.

End Examples.

(** ** Specification vocabulary *)

(** [triple I E Q m]: started in a state whose [savedState] satisfies [I],
    the computation [m] keeps [I], records only events satisfying [E], and
    every value it returns satisfies [Q]. *)
Definition triple {A} (I : SavedState -> Prop) (E : Event -> Prop) (Q : A -> Prop)
  (m : M A) : Prop :=
  forall s, I (savedState s) ->
    I (savedState (final (m s)))
    /\ Forall E (trace (m s))
    /\ (forall a, out (m s) = Ok a -> Q a).

Definition anyState : SavedState -> Prop := fun _ => True.
Definition anyEvent : Event -> Prop := fun _ => True.
Definition anyValue {A} : A -> Prop := fun _ => True.

(** [m] never runs out of fuel. *)
Definition terminates {A} (m : M A) : Prop :=
  forall s, out (m s) <> OutOfFuel.

(** [m] returns a value, and the value satisfies [Q]. *)
Definition total {A} (Q : A -> Prop) (m : M A) : Prop :=
  forall s, exists a, out (m s) = Ok a /\ Q a.

Definition isEnter (ev : Event) : bool :=
  match ev with EEnter _ => true | _ => false end.

(** The number of activations of [performSearch] a trace records. *)
Definition entries (tr : list Event) : nat := List.length (filter isEnter tr).

(** The calls that write the storage snapshot or the identity sidecar. *)
Definition isStateWrite (ev : Event) : bool :=
  match ev with
  | ECall (context_storageState _) => true
  | ECall (fs_writeFileSync _ _) => true
  | _ => false
  end.

Definition isFileRead (ev : Event) : bool :=
  match ev with
  | ECall (fs_readFileSync _) => true
  | _ => false
  end.

(** The calls [googleSearch] makes outside the [try] of [performSearch] (or
    inside its [catch]): resolving the default state path, acquiring the
    browser, creating the context and the page, and closing the browser. *)
Definition outsideGuard (c : Call) : bool :=
  match c with
  | chromium_launch _ | browser_newContext _ | context_addInitScript
  | context_newPage | page_addInitScript | browser_close | fs_mkdirSync _ => true
  | _ => false
  end.

(** An environment in which none of these calls ever throws. *)
Definition dependable (w : World) : Prop :=
  forall t c, outsideGuard c = true -> fails w t c = None.

(** The saved state is an object, plain or an array: its properties can be
    read and assigned. *)
Definition isObject (s : SavedState) : Prop :=
  shape s = plainObject \/ shape s = arrayObject.

(** The sidecar text, whenever it parses, holds an object. *)
Definition sidecarIsObject (host : Host) (world : World) (sidecar : string) : Prop :=
  forall t parsed,
    JSON_parse host (file_at world t sidecar) = inr parsed -> isObject (stored parsed).

(** Started in a state satisfying [J], [m] returns a value satisfying [Q] and
    leaves a state satisfying [J]. *)
Definition totalOn {A} (J : SavedState -> Prop) (Q : A -> Prop) (m : M A) : Prop :=
  forall s, J (savedState s) ->
    exists a, out (m s) = Ok a /\ Q a /\ J (savedState (final (m s))).

(** The identity a browsing context presents. *)
Definition presents (o : BrowserContextOptions) (fp : FingerprintConfig) : Prop :=
  co_locale o = fp_locale fp
  /\ co_timezoneId o = timezoneId fp
  /\ co_colorScheme o = colorScheme fp
  /\ co_reducedMotion o = reducedMotion fp
  /\ co_forcedColors o = forcedColors fp.

(** A result with a title and a link. *)
Definition wellFormed (item : SearchResult) : Prop :=
  title item <> EmptyString /\ link item <> EmptyString.

(** Calls of the page and of the browsers: everything except the file
    system and the creation of the browsing context. *)
Definition pageCall (c : Call) : bool :=
  match c with
  | browser_newContext _ | context_storageState _ | fs_existsSync _
  | fs_readFileSync _ | fs_mkdirSync _ | fs_writeFileSync _ _ => false
  | _ => true
  end.

(** [m] returns only values satisfying [Q]. *)
Definition returns {A} (Q : A -> Prop) (m : M A) : Prop :=
  forall s a, out (m s) = Ok a -> Q a.

(** What the extractor promises about a result sequence. *)
Definition extracted (limit : Z) (results : list SearchResult) : Prop :=
  Forall wellFormed results
  /\ (0 <= limit -> Z.of_nat (List.length results) <= limit).

(** What an activation of [performSearch] for [query] may leave with: a
    response carrying extracted results or the lone diagnostic entry, or a
    retry, which only a headless activation asks for. *)
Definition stepSpec (q : string) (limit : Z) (headless : bool) (st : Step) : Prop :=
  match st with
  | Return r =>
      query r = q
      /\ (extracted limit (results r) \/ exists e, results r = [failureResult e])
  | Retry => headless = true
  end.

Definition responseSpec (q : string) (limit : Z) (r : SearchResponse) : Prop :=
  query r = q
  /\ (extracted limit (results r) \/ exists e, results r = [failureResult e]).

(** A checkpoint asks for a retry only in a headless activation. *)
Definition retryOnlyHeadless (headless : bool) (flow : Flow) : Prop :=
  flow = ReturnRetry -> headless = true.

(** The options [multiGoogleSearch] passes to the run of the query at
    [index]: the caller's options with a state file of its own. *)
Definition queryStateFile (host : Host) (options : SearchOptions) (index : nat) : string :=
  let default :=
    path_join host [storageDirPath host; "browser-state-" ^^ JS.showNat index ^^ ".json"] in
  match stateFile options with
  | Some p => if JS.truthy p then p ^^ "-" ^^ JS.showNat index else default
  | None => default
  end.

Definition queryOptions (host : Host) (options : SearchOptions) (index : nat)
  : SearchOptions :=
  {| limit := limit options;
     timeout := timeout options;
     stateFile := Some (queryStateFile host options index);
     noSaveState := noSaveState options;
     locale := locale options;
     debug := debug options |}.

(** The outcomes of the runs of the queries, each in its own environment,
    numbered from [index]. *)
Fixpoint settledFrom (host : Host) (sessions : nat -> World) (fuel : nat)
  (options : SearchOptions) (index : nat) (queries : list string)
  : list (Result SearchResponse) :=
  match queries with
  | [] => []
  | q :: rest =>
      out (run (googleSearch host (sessions index) fuel q
                  (queryOptions host options index) true))
      :: settledFrom host sessions fuel options (S index) rest
  end.

(** The trace of these runs, each after the log line of its start. *)
Fixpoint tracesFrom (host : Host) (sessions : nat -> World) (fuel : nat)
  (options : SearchOptions) (index : nat) (queries : list string) : list Event :=
  match queries with
  | [] => []
  | q :: rest =>
      ELog LInfo ("[MultiSearch] Starting search #" ^^ JS.showNat (index + 1)
                  ^^ " for query: " ^^ JS.quote ^^ q ^^ JS.quote)
      :: trace (run (googleSearch host (sessions index) fuel q
                       (queryOptions host options index) true))
      ++ tracesFrom host sessions fuel options (S index) rest
  end.

(** The fingerprint a call of [googleSearch] synthesizes on this host. *)
Definition hostFingerprint (host : Host) (options : SearchOptions) : FingerprintConfig :=
  getHostMachineConfig (signals host) (Some (localeOf options)).

(** What [JSON.stringify] keeps of a saved state: the fingerprint of a plain
    object. *)
Definition records (data : SavedState) (fp : FingerprintConfig) : Prop :=
  shape data = plainObject /\ fingerprint data = Some fp.

(** The run presents the identity [fp] and records no other: every browsing
    context it creates, in its browser or in the disposable browser of the
    CAPTCHA recovery, presents [fp], and every sidecar it writes records
    [fp]. *)
Definition identityIs (fp : FingerprintConfig) (ev : Event) : Prop :=
  match ev with
  | ECall (browser_newContext o) => presents o fp
  | ECall (newBrowser_newContext o) => presents o fp
  | ECall (fs_writeFileSync _ data) => records data fp
  | _ => True
  end.

Definition isWarning (ev : Event) : bool :=
  match ev with ELog LWarn _ => true | _ => false end.

(** The warning of the load phase about a sidecar it cannot load. *)
Definition loadWarning : string :=
  "[GoogleSearch] Cannot load fingerprint file, will create new fingerprint".

Definition isLoadWarning (level : Level) (message : string) : bool :=
  match level with
  | LWarn => (message =? loadWarning)%string
  | _ => false
  end.

(** The sidecar is not consulted: no file is read, and the load warning is
    not logged. *)
Definition ignoresSidecar (ev : Event) : Prop :=
  match ev with
  | ELog level message => isLoadWarning level message = false
  | ECall (fs_readFileSync _) => False
  | _ => True
  end.

(** The log line of a fingerprint synthesized from the host. *)
Definition synthesisLog (fp : FingerprintConfig) : Event :=
  ELog LInfo
    ("[GoogleSearch] Generated new browser fingerprint config based on host machine: locale="
     ^^ fp_locale fp ^^ ", timezone=" ^^ timezoneId fp
     ^^ ", colorScheme=" ^^ showColorScheme (colorScheme fp)
     ^^ ", deviceType=" ^^ deviceName fp).

(** The saved state holds no fingerprint, or the one of the host. *)
Definition freshOrNone (fp : FingerprintConfig) (s : SavedState) : Prop :=
  fingerprint s = None \/ fingerprint s = Some fp.

(** ** Further vocabulary: the conduct of a run *)

(** The zones [getHostMachineConfig] can answer. *)
Definition hostZones : list string :=
  [ "Asia/Shanghai"; "Asia/Tokyo"; "Asia/Bangkok"; "Europe/London";
    "Europe/Berlin"; "America/New_York" ].

(** The texts of the nearest [rounds] ancestors, nearest first. *)
Fixpoint ancestorTexts (rounds : nat) (parent : option Element) : list string :=
  match rounds, parent with
  | S rounds', Some p =>
      JS.or_else (textContent p) EmptyString :: ancestorTexts rounds' (parentElement p)
  | _, _ => []
  end.

(** The saved search domain, when it is set and not empty. *)
Definition savedDomain (s : SavedState) : option string :=
  match googleDomain s with
  | Some d => if JS.truthy d then Some d else None
  | None => None
  end.

(** The storage snapshot a context is created with. *)
Definition loadedStorage (storageState : option string) : option string :=
  match storageState with
  | Some p => if JS.truthy p then Some p else None
  | None => None
  end.

(** Calls that carry nothing a policy could object to. *)
Definition inertCall (c : Call) : bool :=
  match c with
  | context_addInitScript | context_newPage | context_close | page_addInitScript
  | page_url | page_close | page_waitForNavigation | page_query _ | page_evalAll _
  | page_waitForSelector _ | page_waitForLoadState | searchInput_click
  | keyboard_press _ | tempContext_newPage
  | newBrowser_close | fs_existsSync _ => true
  | _ => false
  end.

(** [conducts J0 E Q m]: started in a state satisfying [J0], the computation
    records only events satisfying [E] and returns only values satisfying
    [Q]. *)
Definition conducts {A} (J0 : SavedState -> Prop) (E : Event -> Prop) (Q : A -> Prop)
  (m : M A) : Prop :=
  forall s, J0 (savedState s) ->
    Forall E (trace (m s)) /\ (forall a, out (m s) = Ok a -> Q a).

Definition isEmptyState (s : SavedState) : Prop := s = mkSavedState None None plainObject.

(** A policy for one call of [googleSearch]: an invariant [J] of the saved
    state from the load phase on, what the load phase leaves as storage
    snapshot ([S]), and the events [E] admitted, call site by call site. *)
Record Policy (host : Host) (world : World) (q : string) (options : SearchOptions)
  (existingBrowser : bool) (J : SavedState -> Prop) (S : option string -> Prop)
  (E : Event -> Prop) : Prop := mkPolicy {
  p_log : forall l m, isLoadWarning l m = false -> E (ELog l m);
  p_inert : forall c, inertCall c = true -> E (ECall c);
  p_goto : forall s d, J s -> googleDomain s = Some d -> E (ECall (page_goto d));
  p_type : forall d, (10 <= d <= 30)%nat -> E (ECall (keyboard_type q d));
  p_pause : forall ms, (100 <= ms <= 500)%nat -> E (ECall (page_waitForTimeout ms));
  p_close : existingBrowser = false -> debugOf options = false -> E (ECall browser_close);
  p_temp : debugOf options = false -> existingBrowser = true ->
           E (ECall (chromium_launch false));
  p_launch : forall h, (h = true -> debugOf options = false) ->
             existingBrowser = false -> E (ECall (chromium_launch h));
  p_enter : forall h, (h = true -> debugOf options = false) -> E (EEnter h);
  p_mkdir : noSaveStateOf options = false ->
            E (ECall (fs_mkdirSync (path_dirname host (stateFileOf host options))));
  p_storageDir : stateFile options = None ->
                 E (ECall (fs_mkdirSync (storageDirPath host)));
  p_snapshot : noSaveStateOf options = false ->
               E (ECall (context_storageState (stateFileOf host options)));
  p_sidecar : noSaveStateOf options = false -> forall s, J s -> fingerprint s <> None ->
              E (ECall (fs_writeFileSync
                          (fingerprintFileOf (stateFileOf host options)) s));
  p_context : forall ss, S ss -> forall s fp o,
              J s -> fingerprint s = Some fp -> presents o fp ->
              co_storageState o = loadedStorage ss ->
              E (ECall (browser_newContext o));
  p_disposable : existingBrowser = true -> debugOf options = false ->
                 forall s fp o, J s -> fingerprint s = Some fp -> presents o fp ->
                 co_storageState o = None ->
                 E (ECall (newBrowser_newContext o));
  p_fingerprint : forall s, J s -> fingerprint s = None ->
                  J (mkSavedState (Some (hostFingerprint host options)) (googleDomain s)
                       (shape s));
  p_domain : forall s i, (i < 4)%nat -> J s -> savedDomain s = None ->
             J (mkSavedState (fingerprint s) (Some (nth i googleDomains EmptyString))
                  (shape s));
  p_load : conducts isEmptyState E
             (fun ss => S ss)
             (loadSavedState host world (stateFileOf host options)
                (fingerprintFileOf (stateFileOf host options)))
           /\ forall s, isEmptyState (savedState s) ->
                J (savedState (final (loadSavedState host world (stateFileOf host options)
                                        (fingerprintFileOf (stateFileOf host options)) s)))
}.

(** *** Policies *)

(** The browser is not closed, and only the visible disposable browser is
    launched. *)
Definition keepsBrowser (ev : Event) : Prop :=
  match ev with
  | ECall browser_close => False
  | ECall (chromium_launch h) => h = false
  | _ => True
  end.

(** As [keepsBrowser], and every activation is visible. *)
Definition visibleOnly (ev : Event) : Prop :=
  match ev with
  | ECall browser_close => False
  | ECall (chromium_launch h) => h = false
  | EEnter h => h = false
  | _ => True
  end.

(** File-system calls touch only the snapshot, its sidecar and the two
    directories. *)
Definition confinedTo (snapshot sidecar stateDir storageDir : string) (ev : Event)
  : Prop :=
  match ev with
  | ECall (context_storageState p) => p = snapshot
  | ECall (fs_writeFileSync p _) => p = sidecar
  | ECall (fs_readFileSync p) => p = sidecar
  | ECall (fs_mkdirSync p) => p = stateDir \/ p = storageDir
  | _ => True
  end.

(** The query is typed as given, 10 to 30 ms a key, and timed pauses last
    100 to 500 ms. *)
Definition paced (q : string) (ev : Event) : Prop :=
  match ev with
  | ECall (keyboard_type text delay) => text = q /\ (10 <= delay <= 30)%nat
  | ECall (page_waitForTimeout ms) => (100 <= ms <= 500)%nat
  | _ => True
  end.

Definition navigatesWithin (allowed : string -> Prop) (ev : Event) : Prop :=
  match ev with
  | ECall (page_goto d) => allowed d
  | _ => True
  end.

(** A domain the sidecar text can hold, at some instant. *)
Definition sidecarDomain (host : Host) (world : World) (sidecar : string) (d : string)
  : Prop :=
  exists t parsed,
    JSON_parse host (file_at world t sidecar) = inr parsed
    /\ googleDomain (stored parsed) = Some d.

(** The run replays the persisted state: the contexts created in its browser
    present its fingerprint and load the snapshot, the context of the
    disposable browser presents its fingerprint and loads nothing, navigation
    goes to its domain, and what is written back is the state itself. *)
Definition replays (persisted : SavedState) (fp : FingerprintConfig) (d snapshot : string)
  (ev : Event) : Prop :=
  match ev with
  | ECall (browser_newContext o) =>
      presents o fp /\ co_storageState o = loadedStorage (Some snapshot)
  | ECall (newBrowser_newContext o) =>
      presents o fp /\ co_storageState o = None
  | ECall (page_goto u) => u = d
  | ECall (fs_writeFileSync _ data) => data = persisted
  | _ => True
  end.

Definition isBrowserClose (ev : Event) : bool :=
  match ev with ECall browser_close => true | _ => false end.

(** *** Further example environments *)

Module Scenarios.

Definition debugOptions : SearchOptions :=
  {| limit := None; timeout := None; stateFile := Some "/data/state.json";
     noSaveState := None; locale := None; debug := Some true |}.

(** A saved fingerprint whose device the registry does not know. *)
Definition strangerFingerprint : FingerprintConfig :=
  {| deviceName := "Pixel 5"; fp_locale := "en-GB"; timezoneId := "Europe/London";
     colorScheme := light; reducedMotion := no_preference; forcedColors := none |}.

Definition strangerState : St :=
  mkSt (mkSavedState (Some strangerFingerprint) None plainObject) 0.

(** A state path without the extension of the snapshot. *)
Definition bareOptions : SearchOptions :=
  {| limit := None; timeout := None; stateFile := Some "/data/state";
     noSaveState := None; locale := None; debug := None |}.

End Scenarios.

(** * Properties *)

(** ** The monad *)

Lemma triple_weaken {A} J E (P Q : A -> Prop) (m : M A) :
  (forall a, P a -> Q a) -> triple J E P m -> triple J E Q m.
Proof.
  intros HPQ Hm s Hs. destruct (Hm s Hs) as (HI & HE & HP).
  repeat split; auto.
Qed.

Lemma triple_ret {A} J E (Q : A -> Prop) (a : A) : Q a -> triple J E Q (ret a).
Proof.
  intros HQ s Hs. cbn. repeat split; auto. intros a' [= <-]. exact HQ.
Qed.

Lemma triple_throw {A} J E (Q : A -> Prop) e : triple J E Q (@throw A e).
Proof.
  intros s Hs. cbn. repeat split; auto. discriminate.
Qed.

Lemma triple_outOfFuel {A} J E (Q : A -> Prop) : triple J E Q (@outOfFuel A).
Proof.
  intros s Hs. cbn. repeat split; auto. discriminate.
Qed.

Lemma triple_bind {A B} J E (P : A -> Prop) (Q : B -> Prop) (m : M A) (f : A -> M B) :
  triple J E P m -> (forall a, P a -> triple J E Q (f a)) -> triple J E Q (bind m f).
Proof.
  intros Hm Hf s Hs. unfold bind.
  destruct (Hm s Hs) as (HI & HE & HP).
  destruct (out (m s)) as [a | e |] eqn:Ho; cbn.
  - destruct (Hf a (HP a eq_refl) (final (m s)) HI) as (HI' & HE' & HQ).
    repeat split; auto. apply Forall_app; auto.
  - repeat split; auto. discriminate.
  - repeat split; auto. discriminate.
Qed.

Lemma triple_try_catch {A} J E (Q : A -> Prop) (m : M A) (h : JS.Exn -> M A) :
  triple J E Q m -> (forall e, triple J E Q (h e)) -> triple J E Q (try_catch m h).
Proof.
  intros Hm Hh s Hs. unfold try_catch.
  destruct (Hm s Hs) as (HI & HE & HQ).
  destruct (out (m s)) as [a | e |] eqn:Ho; cbn.
  - rewrite Ho. repeat split; auto.
  - destruct (Hh e (final (m s)) HI) as (HI' & HE' & HQ').
    repeat split; auto. apply Forall_app; auto.
  - rewrite Ho. repeat split; auto.
Qed.

Lemma triple_emit J (E : Event -> Prop) (Q : unit -> Prop) ev :
  E ev -> Q tt -> triple J E Q (emit ev).
Proof.
  intros HE HQ s Hs. cbn. repeat split; auto. intros [] _. exact HQ.
Qed.

Lemma triple_getSavedState J E : triple J E J getSavedState.
Proof.
  intros s Hs. cbn. repeat split; auto. intros a [= <-]. exact Hs.
Qed.

Lemma triple_setSavedState (J : SavedState -> Prop) E (Q : unit -> Prop) v :
  J v -> Q tt -> triple J E Q (setSavedState v).
Proof.
  intros Hv HQ s Hs. cbn. repeat split; auto. intros [] _. exact HQ.
Qed.

Lemma triple_readProperty J E property : triple J E J (readProperty property).
Proof.
  intros s Hs. unfold readProperty.
  destruct (shape (savedState s)); cbn; repeat split; auto;
    first [intros a [= <-]; exact Hs | discriminate].
Qed.

Lemma triple_assignProperty (J : SavedState -> Prop) E (Q : unit -> Prop) property v :
  J v -> Q tt -> triple J E Q (assignProperty property v).
Proof.
  intros Hv HQ s Hs. unfold assignProperty.
  destruct (shape (savedState s)); cbn; repeat split; auto;
    first [intros [] _; exact HQ | discriminate].
Qed.

Lemma triple_tick J E : triple J E anyValue tick.
Proof.
  intros s Hs. cbn. repeat split; auto.
Qed.

Lemma triple_ask {A} w J (E : Event -> Prop) (Q : A -> Prop) c (answer : nat -> A) :
  E (ECall c) -> (forall t, Q (answer t)) -> triple J E Q (ask w c answer).
Proof.
  intros HE HQ. unfold ask.
  apply triple_bind with (P := anyValue); [apply triple_tick | intros t _].
  apply triple_bind with (P := anyValue); [apply triple_emit; [exact HE | exact I] | intros _ _].
  destruct (fails w t c); [apply triple_throw | apply triple_ret, HQ].
Qed.

Lemma triple_call w J (E : Event -> Prop) (Q : unit -> Prop) c :
  E (ECall c) -> Q tt -> triple J E Q (call w c).
Proof.
  intros HE HQ. apply triple_ask; auto.
Qed.

Lemma triple_observe {A} J (E : Event -> Prop) (Q : A -> Prop) c (answer : nat -> A) :
  E (ECall c) -> (forall t, Q (answer t)) -> triple J E Q (observe c answer).
Proof.
  intros HE HQ. unfold observe.
  apply triple_bind with (P := anyValue); [apply triple_tick | intros t _].
  apply triple_bind with (P := anyValue); [apply triple_emit; [exact HE | exact I] | intros _ _].
  apply triple_ret, HQ.
Qed.

Lemma triple_randomBelow w J E n : triple J E anyValue (randomBelow w n).
Proof.
  unfold randomBelow.
  apply triple_bind with (P := anyValue); [apply triple_tick | intros t _].
  apply triple_ret. exact I.
Qed.

Lemma triple_when J (E : Event -> Prop) (Q : unit -> Prop) b (m : M unit) :
  Q tt -> (b = true -> triple J E Q m) -> triple J E Q (when b m).
Proof.
  intros HQ Hm. destruct b; cbn; [auto | apply triple_ret, HQ].
Qed.

(** Side conditions of the rules: an event is admitted, a value satisfies a
    trivial postcondition. *)
Ltac side :=
  intros; cbn;
  first [ exact I | reflexivity | assumption | discriminate
        | solve [auto] | solve [repeat split; auto] ].

(** One step through the structure of a computation.  Loops and named
    blocks are left to the lemmas about them. *)
Ltac walk :=
  lazymatch goal with
  | |- triple _ _ _ (bind getSavedState _) =>
      eapply triple_bind; [apply triple_getSavedState | intros ? ?]
  | |- triple _ _ _ (bind (readProperty _) _) =>
      eapply triple_bind; [apply triple_readProperty | intros ? ?]
  | |- triple _ _ _ (bind _ _) =>
      eapply triple_bind with (P := anyValue); [ | intros ? _]
  | |- triple _ _ _ (try_catch _ _) => apply triple_try_catch; [ | intros ?]
  | |- triple _ _ _ (ret _) => apply triple_ret; try side
  | |- triple _ _ _ (throw _) => apply triple_throw
  | |- triple _ _ _ outOfFuel => apply triple_outOfFuel
  | |- triple _ _ _ (emit _) => apply triple_emit; try side
  | |- triple _ _ _ (logger_info _) => apply triple_emit; try side
  | |- triple _ _ _ (logger_warn _) => apply triple_emit; try side
  | |- triple _ _ _ (logger_error _) => apply triple_emit; try side
  | |- triple _ _ _ (setSavedState _) => apply triple_setSavedState; try side
  | |- triple _ _ _ (assignProperty _ _) => apply triple_assignProperty; try side
  | |- triple _ _ _ (ask _ _ _) => apply triple_ask; try side
  | |- triple _ _ _ (call _ _) => apply triple_call; try side
  | |- triple _ _ _ (observe _ _) => apply triple_observe; try side
  | |- triple _ _ _ (randomBelow _ _) =>
      eapply triple_weaken; [ | apply triple_randomBelow]; try side
  | |- triple _ _ _ (when _ _) => apply triple_when; [try side | intros ?]
  | |- triple _ _ _ (if ?b then _ else _) => destruct b eqn:?
  | |- triple _ _ _ (match ?x with _ => _ end) => destruct x eqn:?
  end.

Lemma triple_returns {A} (Q : A -> Prop) (m : M A) :
  triple anyState anyEvent Q m -> returns Q m.
Proof.
  intros H s a Ho. destruct (H s I) as (_ & _ & HQ). auto.
Qed.

(** *** Termination *)

Lemma terminates_ret {A} (a : A) : terminates (ret a).
Proof. intros s; cbn; discriminate. Qed.

Lemma terminates_throw {A} e : terminates (@throw A e).
Proof. intros s; cbn; discriminate. Qed.

Lemma terminates_emit ev : terminates (emit ev).
Proof. intros s; cbn; discriminate. Qed.

Lemma terminates_getSavedState : terminates getSavedState.
Proof. intros s; cbn; discriminate. Qed.

Lemma terminates_setSavedState v : terminates (setSavedState v).
Proof. intros s; cbn; discriminate. Qed.

Lemma terminates_readProperty property : terminates (readProperty property).
Proof. intros s; unfold readProperty; destruct (shape (savedState s)); discriminate. Qed.

Lemma terminates_assignProperty property v : terminates (assignProperty property v).
Proof. intros s; unfold assignProperty; destruct (shape (savedState s)); discriminate. Qed.

Lemma terminates_tick : terminates tick.
Proof. intros s; cbn; discriminate. Qed.

Lemma terminates_bind {A B} (m : M A) (f : A -> M B) :
  terminates m -> (forall a, terminates (f a)) -> terminates (bind m f).
Proof.
  intros Hm Hf s. unfold bind. specialize (Hm s).
  destruct (out (m s)) as [a | e |]; cbn; try discriminate; [apply Hf | congruence].
Qed.

Lemma terminates_try_catch {A} (m : M A) (h : JS.Exn -> M A) :
  terminates m -> (forall e, terminates (h e)) -> terminates (try_catch m h).
Proof.
  intros Hm Hh s. unfold try_catch. specialize (Hm s).
  destruct (out (m s)) as [a | e |] eqn:Ho; cbn; try rewrite Ho; try discriminate;
    [apply Hh | congruence].
Qed.

Lemma terminates_ask {A} w c (answer : nat -> A) : terminates (ask w c answer).
Proof.
  unfold ask. apply terminates_bind; [apply terminates_tick | intros t].
  apply terminates_bind; [apply terminates_emit | intros _].
  destruct (fails w t c); [apply terminates_throw | apply terminates_ret].
Qed.

Lemma terminates_call w c : terminates (call w c).
Proof. apply terminates_ask. Qed.

Lemma terminates_observe {A} c (answer : nat -> A) : terminates (observe c answer).
Proof.
  unfold observe. apply terminates_bind; [apply terminates_tick | intros t].
  apply terminates_bind; [apply terminates_emit | intros _]. apply terminates_ret.
Qed.

Lemma terminates_randomBelow w n : terminates (randomBelow w n).
Proof.
  unfold randomBelow. apply terminates_bind; [apply terminates_tick | intros t].
  apply terminates_ret.
Qed.

Ltac halts :=
  lazymatch goal with
  | |- terminates (bind _ _) => apply terminates_bind; [ | intros ?]
  | |- terminates (try_catch _ _) => apply terminates_try_catch; [ | intros ?]
  | |- terminates (ret _) => apply terminates_ret
  | |- terminates (throw _) => apply terminates_throw
  | |- terminates (emit _) => apply terminates_emit
  | |- terminates (logger_info _) => apply terminates_emit
  | |- terminates (logger_warn _) => apply terminates_emit
  | |- terminates (logger_error _) => apply terminates_emit
  | |- terminates getSavedState => apply terminates_getSavedState
  | |- terminates (setSavedState _) => apply terminates_setSavedState
  | |- terminates (readProperty _) => apply terminates_readProperty
  | |- terminates (assignProperty _ _) => apply terminates_assignProperty
  | |- terminates (ask _ _ _) => apply terminates_ask
  | |- terminates (call _ _) => apply terminates_call
  | |- terminates (observe _ _) => apply terminates_observe
  | |- terminates (randomBelow _ _) => apply terminates_randomBelow
  | |- terminates (when ?b _) => unfold when
  | |- terminates (if ?b then _ else _) => destruct b
  | |- terminates (match ?x with _ => _ end) => destruct x
  end.

(** *** Total correctness *)

Lemma total_weaken {A} (P Q : A -> Prop) (m : M A) :
  (forall a, P a -> Q a) -> total P m -> total Q m.
Proof.
  intros HPQ Hm s. destruct (Hm s) as (a & Ho & HP). eauto.
Qed.

Lemma total_ret {A} (Q : A -> Prop) (a : A) : Q a -> total Q (ret a).
Proof. intros HQ s. exists a. auto. Qed.

Lemma total_emit (Q : unit -> Prop) ev : Q tt -> total Q (emit ev).
Proof. intros HQ s. exists tt. auto. Qed.

Lemma total_getSavedState : total anyValue getSavedState.
Proof. intros s. exists (savedState s). split; [reflexivity | exact I]. Qed.

Lemma total_setSavedState (Q : unit -> Prop) v : Q tt -> total Q (setSavedState v).
Proof. intros HQ s. exists tt. auto. Qed.

Lemma total_tick : total anyValue tick.
Proof. intros s. exists (clock s). split; [reflexivity | exact I]. Qed.

Lemma total_bind {A B} (P : A -> Prop) (Q : B -> Prop) (m : M A) (f : A -> M B) :
  total P m -> (forall a, P a -> total Q (f a)) -> total Q (bind m f).
Proof.
  intros Hm Hf s. unfold bind. destruct (Hm s) as (a & Ho & HP). rewrite Ho. cbn.
  destruct (Hf a HP (final (m s))) as (b & Ho' & HQ). eauto.
Qed.

Lemma total_try_catch {A} (Q : A -> Prop) (m : M A) (h : JS.Exn -> M A) :
  terminates m -> returns Q m -> (forall e, total Q (h e)) -> total Q (try_catch m h).
Proof.
  intros Ht Hr Hh s. unfold try_catch. specialize (Ht s). specialize (Hr s).
  destruct (out (m s)) as [a | e |] eqn:Ho.
  - exists a. split; [exact Ho | auto].
  - cbn. apply Hh.
  - congruence.
Qed.

Lemma total_call w (Q : unit -> Prop) c :
  (forall t, fails w t c = None) -> Q tt -> total Q (call w c).
Proof.
  intros Hc HQ s. exists tt. split; [ | exact HQ].
  unfold call, ask, bind. cbn. rewrite Hc. reflexivity.
Qed.

Lemma total_observe {A} c (answer : nat -> A) : total anyValue (observe c answer).
Proof.
  intros s. exists (answer (clock s)). split; [reflexivity | exact I].
Qed.

Lemma total_randomBelow w n : total anyValue (randomBelow w n).
Proof.
  intros s. eexists. split; [reflexivity | exact I].
Qed.

Lemma returns_any {A} (m : M A) : returns anyValue m.
Proof. intros s a _. exact I. Qed.

Ltac lands :=
  lazymatch goal with
  | |- total _ (bind _ _) => eapply total_bind with (P := anyValue); [ | intros ? _]
  | |- total _ (ret _) => apply total_ret; try side
  | |- total _ (emit _) => apply total_emit; try side
  | |- total _ (logger_info _) => apply total_emit; try side
  | |- total _ (logger_warn _) => apply total_emit; try side
  | |- total _ (logger_error _) => apply total_emit; try side
  | |- total _ getSavedState => apply total_getSavedState
  | |- total _ (setSavedState _) => apply total_setSavedState; try side
  | |- total _ (observe _ _) => apply total_observe
  | |- total _ (randomBelow _ _) => apply total_randomBelow
  | |- total _ (when ?b _) => unfold when
  | |- total _ (if ?b then _ else _) => destruct b eqn:?
  | |- total _ (match ?x with _ => _ end) => destruct x eqn:?
  end.

(** Symbolic execution of a straight-line block. *)
Ltac execute :=
  cbv beta iota zeta delta
    [bind ret throw getSavedState setSavedState readProperty assignProperty emit
     logger_info logger_warn logger_error tick randomBelow observe ask call when
     try_catch out final trace savedState clock fst snd app fingerprint
     googleDomain shape].

(** ** The extraction callbacks *)

Lemma truthy_nonempty s : JS.truthy s = true -> s <> EmptyString.
Proof.
  unfold JS.truthy. intros H ->. discriminate.
Qed.

Lemma nonEmptyItem_wellFormed item : nonEmptyItem item = true -> wellFormed item.
Proof.
  unfold nonEmptyItem, wellFormed. intros H.
  apply andb_true_iff in H as [Ht Hl]. split; apply truthy_nonempty; assumption.
Qed.

Lemma filter_wellFormed l : Forall wellFormed (filter nonEmptyItem l).
Proof.
  apply Forall_forall. intros x Hx. apply filter_In in Hx as [_ Hx].
  apply nonEmptyItem_wellFormed, Hx.
Qed.

Lemma slice0_length {A} (n : Z) (l : list A) :
  0 <= n -> Z.of_nat (List.length (JS.slice0 n l)) <= n.
Proof.
  intros Hn. unfold JS.slice0.
  destruct (Z.ltb_spec n 0) as [Hneg | _]; [lia | ].
  rewrite length_firstn. lia.
Qed.

Lemma filter_map_slice_length {A} (f : SearchResult -> bool) (g : A -> SearchResult)
  (n : Z) (l : list A) :
  0 <= n -> Z.of_nat (List.length (filter f (map g (JS.slice0 n l)))) <= n.
Proof.
  intros Hn.
  pose proof (filter_length_le f (map g (JS.slice0 n l))) as Hf.
  rewrite length_map in Hf.
  pose proof (slice0_length n l Hn). lia.
Qed.

Lemma structuredCallback_extracted limit t sn els :
  extracted limit (structuredCallback limit t sn els).
Proof.
  split; [apply filter_wellFormed | apply filter_map_slice_length].
Qed.

Lemma fallbackCallback_extracted limit els :
  extracted limit (fallbackCallback limit els).
Proof.
  split; [apply filter_wellFormed | apply filter_map_slice_length].
Qed.

Lemma extracted_nil limit : extracted limit [].
Proof.
  split; [constructor | cbn; lia].
Qed.

(** ** The guarded region of [performSearch]

    The facts of this section hold for every invariant [J] of the saved
    state and every description [E] of the admitted events that satisfy the
    hypotheses below. *)

Section GuardedRegion.

Variable host : Host.
Variable world : World.
Variable query : string.
Variable limit : Z.
Variable stateFile : string.
Variable noSaveState : bool.
Variable debug : bool.
Variable fingerprintFile : string.

Variable J : SavedState -> Prop.
Variable E : Event -> Prop.

Hypothesis logs_admitted : forall l m, E (ELog l m).
Hypothesis page_admitted : forall c, pageCall c = true -> E (ECall c).
Hypothesis exists_admitted : forall p, E (ECall (fs_existsSync p)).
Hypothesis mkdir_admitted : forall p, E (ECall (fs_mkdirSync p)).
Hypothesis snapshot_admitted :
  noSaveState = false -> forall p, E (ECall (context_storageState p)).
Hypothesis sidecar_admitted :
  noSaveState = false -> forall s, J s -> E (ECall (fs_writeFileSync fingerprintFile s)).
Hypothesis J_domain :
  forall s d, J s -> J (mkSavedState (fingerprint s) (Some d) (shape s)).

Ltac admitted_event :=
  intros; cbn;
  first [ apply logs_admitted
        | apply page_admitted; reflexivity
        | apply exists_admitted
        | apply mkdir_admitted
        | exact I
        | reflexivity
        | discriminate
        | assumption ].

Ltac stroll := repeat (walk; try admitted_event).

Lemma triple_getRandomDelay lo hi : triple J E anyValue (getRandomDelay world lo hi).
Proof.
  unfold getRandomDelay. stroll.
Qed.

Lemma triple_restartVisible (Q : Flow -> Prop) bwp co detected detectedExternal :
  Q ReturnRetry ->
  triple J E Q (restartVisible world bwp co detected detectedExternal).
Proof.
  intros HQ. unfold restartVisible. stroll.
Qed.

Lemma triple_findSearchInput selectors :
  triple J E anyValue (findSearchInput world selectors).
Proof.
  induction selectors as [ | selector rest IH]; cbn [findSearchInput]; stroll.
Qed.

Lemma triple_waitForResults found selectors :
  triple J E anyValue (waitForResults world found selectors).
Proof.
  induction selectors as [ | selector rest IH]; cbn [waitForResults]; stroll.
Qed.

Lemma triple_structuredLoop selectors results :
  extracted limit results ->
  triple J E (extracted limit) (structuredLoop world limit selectors results).
Proof.
  revert results.
  induction selectors as [ | selector rest IH]; intros results Hres;
    cbn [structuredLoop].
  - apply triple_ret, Hres.
  - apply triple_bind with (P := fun p => extracted limit (fst p)).
    + apply triple_try_catch.
      * apply triple_bind with (P := extracted limit).
        -- apply triple_ask; [admitted_event | intros t].
           apply structuredCallback_extracted.
        -- intros found Hfound. stroll; exact Hfound.
      * intros e. apply triple_ret. exact Hres.
    + intros [found break] Hfound. cbn in Hfound.
      destruct break; [apply triple_ret, Hfound | apply IH, Hfound].
Qed.

Lemma triple_extractResults :
  triple J E (extracted limit) (extractResults world limit).
Proof.
  unfold extractResults.
  apply triple_bind with (P := extracted limit).
  { apply triple_structuredLoop, extracted_nil. }
  intros results Hres.
  apply triple_bind with (P := extracted limit).
  { destruct (List.length results =? 0)%nat.
    - walk; [stroll | ].
      apply triple_ask; [admitted_event | intros t]. apply fallbackCallback_extracted.
    - apply triple_ret, Hres. }
  intros results' Hres'. walk; [stroll | ]. apply triple_ret, Hres'.
Qed.

Lemma triple_saveStateOnSuccess :
  triple J E anyValue (saveStateOnSuccess host world stateFile noSaveState fingerprintFile).
Proof.
  unfold saveStateOnSuccess. destruct noSaveState eqn:Hno; cbn [negb].
  - stroll.
  - stroll.
Qed.

Lemma triple_saveStateOnError :
  triple J E anyValue (saveStateOnError host world stateFile noSaveState fingerprintFile).
Proof.
  unfold saveStateOnError. destruct noSaveState eqn:Hno; cbn [negb].
  - stroll.
  - stroll.
Qed.

Lemma triple_closeOrKeep bwp : triple J E anyValue (closeOrKeep world debug bwp).
Proof.
  unfold closeOrKeep. stroll.
Qed.

Lemma triple_extractAndReturn headless bwp :
  triple J E (stepSpec query limit headless)
    (extractAndReturn host world query limit stateFile noSaveState debug
       fingerprintFile bwp).
Proof.
  unfold extractAndReturn.
  walk; [apply triple_getRandomDelay | ].
  walk; [stroll | ].
  walk; [stroll | ].
  apply triple_bind with (P := extracted limit); [apply triple_extractResults | ].
  intros results Hres.
  walk; [apply triple_saveStateOnSuccess | ].
  walk; [apply triple_closeOrKeep | ].
  apply triple_ret. cbn. auto.
Qed.

Ltac amble :=
  repeat (first [ apply triple_restartVisible
                | apply triple_waitForResults
                | apply triple_findSearchInput
                | apply triple_getRandomDelay
                | walk ];
          try admitted_event).

Lemma triple_awaitResults headless bwp co :
  triple J E (stepSpec query limit headless)
    (awaitResults host world query limit stateFile noSaveState debug
       fingerprintFile headless bwp co).
Proof.
  unfold awaitResults.
  walk; [amble | ]. walk; [amble | ]. walk; [amble | ].
  apply triple_bind with (P := retryOnlyHeadless headless).
  - unfold retryOnlyHeadless. amble.
  - intros flow Hflow. destruct flow.
    + apply triple_extractAndReturn.
    + apply triple_ret. cbn. apply Hflow. reflexivity.
Qed.

Lemma triple_submitQuery headless bwp co :
  triple J E (stepSpec query limit headless)
    (submitQuery host world query limit stateFile noSaveState debug
       fingerprintFile headless bwp co).
Proof.
  unfold submitQuery.
  do 12 (walk; [amble | ]).
  apply triple_bind with (P := retryOnlyHeadless headless).
  - unfold retryOnlyHeadless. amble.
  - intros flow Hflow. destruct flow.
    + apply triple_awaitResults.
    + apply triple_ret. cbn. apply Hflow. reflexivity.
Qed.

Lemma triple_selectDomain : triple J E anyValue (selectDomain world).
Proof.
  unfold selectDomain. amble.
Qed.

Lemma triple_searchBody headless bwp co :
  triple J E (stepSpec query limit headless)
    (searchBody host world query limit stateFile noSaveState debug
       fingerprintFile headless bwp co).
Proof.
  unfold searchBody.
  walk; [apply triple_selectDomain | ].
  do 3 (walk; [amble | ]).
  apply triple_bind with (P := retryOnlyHeadless headless).
  - unfold retryOnlyHeadless. amble.
  - intros flow Hflow. destruct flow.
    + apply triple_submitQuery.
    + apply triple_ret. cbn. apply Hflow. reflexivity.
Qed.

Lemma triple_onSearchError headless bwp error :
  triple J E (stepSpec query limit headless)
    (onSearchError host world query stateFile noSaveState debug fingerprintFile
       bwp error).
Proof.
  unfold onSearchError.
  walk; [amble | ].
  walk; [apply triple_saveStateOnError | ].
  walk; [apply triple_closeOrKeep | ].
  apply triple_ret. cbn. split; [reflexivity | right; eauto].
Qed.

Lemma triple_guarded headless bwp co :
  triple J E (stepSpec query limit headless)
    (guarded host world query limit stateFile noSaveState debug fingerprintFile
       headless bwp co).
Proof.
  unfold guarded. apply triple_try_catch.
  - apply triple_searchBody.
  - intros e. apply triple_onSearchError.
Qed.

End GuardedRegion.

(** ** One call of [googleSearch]: admitted events and returned values *)

Section SearchFacts.

Variable host : Host.
Variable world : World.
Variable E : Event -> Prop.

Hypothesis logs_admitted : forall l m, E (ELog l m).
Hypothesis page_admitted : forall c, pageCall c = true -> E (ECall c).
Hypothesis exists_admitted : forall p, E (ECall (fs_existsSync p)).
Hypothesis mkdir_admitted : forall p, E (ECall (fs_mkdirSync p)).
Hypothesis context_admitted : forall o, E (ECall (browser_newContext o)).

Ltac admitted_event :=
  intros; cbn;
  first [ apply logs_admitted
        | apply page_admitted; reflexivity
        | apply exists_admitted
        | apply mkdir_admitted
        | apply context_admitted
        | exact I
        | reflexivity
        | discriminate
        | assumption ].

Ltac stroll := repeat (walk; try admitted_event).

Lemma triple_getStateFilePath filename :
  triple anyState E anyValue (getStateFilePath host world filename).
Proof.
  unfold getStateFilePath, getStorageStateDir. stroll.
Qed.

Section Closure.

Variable query : string.
Variable limit : Z.
Variable stateFile : string.
Variable noSaveState : bool.
Variable locale : string.
Variable debug : bool.
Variable existingBrowser : bool.
Variable storageState : option string.
Variable fingerprintFile : string.

Hypothesis snapshot_admitted :
  noSaveState = false -> forall p, E (ECall (context_storageState p)).
Hypothesis sidecar_admitted :
  noSaveState = false -> forall p s, E (ECall (fs_writeFileSync p s)).

Lemma triple_getDeviceConfig : triple anyState E anyValue (getDeviceConfig host world).
Proof.
  unfold getDeviceConfig. stroll.
Qed.

Lemma triple_resolveContextOptions :
  triple anyState E anyValue (resolveContextOptions host world locale).
Proof.
  unfold resolveContextOptions.
  walk; [apply triple_getDeviceConfig | ]. stroll.
Qed.

Lemma triple_acquireBrowser headless :
  triple anyState E anyValue (acquireBrowser world existingBrowser headless).
Proof.
  unfold acquireBrowser. stroll.
Qed.

Lemma triple_prepareAndSearch headless :
  triple anyState E (stepSpec query limit headless)
    (prepareAndSearch host world query limit stateFile noSaveState locale debug
       existingBrowser storageState fingerprintFile headless).
Proof.
  unfold prepareAndSearch.
  walk; [apply triple_acquireBrowser | ].
  walk; [apply triple_resolveContextOptions | ].
  do 5 (walk; [stroll | ]).
  apply triple_guarded; auto.
Qed.

Hypothesis enter_admitted : forall h, E (EEnter h).

Lemma triple_activation headless :
  triple anyState E (stepSpec query limit headless)
    (activation host world query limit stateFile noSaveState locale debug
       existingBrowser storageState fingerprintFile headless).
Proof.
  unfold activation. walk; [walk; apply enter_admitted | ].
  apply triple_prepareAndSearch.
Qed.

Lemma triple_performSearch fuel headless :
  triple anyState E (responseSpec query limit)
    (performSearch host world query limit stateFile noSaveState locale debug
       existingBrowser storageState fingerprintFile fuel headless).
Proof.
  revert headless. induction fuel as [ | fuel IH]; intros headless;
    cbn [performSearch].
  - apply triple_outOfFuel.
  - apply triple_bind with (P := stepSpec query limit headless).
    + apply triple_activation.
    + intros [r | ] Hstep; [apply triple_ret; exact Hstep | apply IH].
Qed.

End Closure.

Hypothesis enter_admitted : forall h, E (EEnter h).
Hypothesis read_admitted : forall p, E (ECall (fs_readFileSync p)).

Lemma triple_loadSavedState stateFile fingerprintFile :
  triple anyState E anyValue (loadSavedState host world stateFile fingerprintFile).
Proof.
  unfold loadSavedState. stroll.
Qed.

Lemma triple_googleSearch fuel query options existingBrowser :
  (noSaveStateOf options = false -> forall p, E (ECall (context_storageState p))) ->
  (noSaveStateOf options = false -> forall p s, E (ECall (fs_writeFileSync p s))) ->
  triple anyState E (responseSpec query (limitOf options))
    (googleSearch host world fuel query options existingBrowser).
Proof.
  intros Hsnap Hside. unfold googleSearch.
  walk.
  { destruct (stateFile options); [stroll | apply triple_getStateFilePath]. }
  walk; [stroll | ].
  walk; [apply triple_loadSavedState | ].
  apply triple_performSearch; auto.
Qed.

End SearchFacts.

(** ** FingerprintSynthesizer *)

(** At UTC+8 (offset -480) the code answers Asia/Shanghai; the table as the
    specification states it answers Asia/Bangkok. *)
Lemma zone_of_utc8_is_not_the_stated_one :
  timezoneId (getHostMachineConfig Examples.signalsUTC8 None)
  <> lookupZone statedZoneTable "America/New_York" (-480).
Proof.
  cbn. discriminate.
Qed.

(** At UTC+9 (offset -540) the first range already matches: code and stated
    table both answer Asia/Shanghai, and Asia/Tokyo starts at -600. *)
Lemma zone_of_utc9_and_utc10 :
  timezoneId (getHostMachineConfig (mkSignals None (-540) 12 "linux") None)
  = "Asia/Shanghai"
  /\ lookupZone statedZoneTable "America/New_York" (-540) = "Asia/Shanghai"
  /\ timezoneId (getHostMachineConfig (mkSignals None (-600) 12 "linux") None)
     = "Asia/Tokyo".
Proof.
  repeat split.
Qed.

(** C6 (amended).  For every host and every locale override, the timezone of
    the synthesized fingerprint is the first match of the UTC offset in the
    table (-600,-480] Asia/Shanghai, (-inf,-540] Asia/Tokyo, (-480,-420]
    Asia/Bangkok, (-60,0] Europe/London, (0,60] Europe/Berlin, (240,300]
    America/New_York, and America/New_York when nothing matches. *)
Theorem timezone_follows_implemented_table sig userLocale :
  timezoneId (getHostMachineConfig sig userLocale)
  = lookupZone implementedZoneTable "America/New_York" (timezoneOffset sig).
Proof.
  unfold getHostMachineConfig, implementedZoneTable. cbn.
  set (x := timezoneOffset sig).
  replace (x >? -600) with (-600 <? x) by (rewrite Z.gtb_ltb; reflexivity).
  replace (x >? -480) with (-480 <? x) by (rewrite Z.gtb_ltb; reflexivity).
  replace (x >? -60) with (-60 <? x) by (rewrite Z.gtb_ltb; reflexivity).
  replace (x >? 0) with (0 <? x) by (rewrite Z.gtb_ltb; reflexivity).
  replace (x >? 240) with (240 <? x) by (rewrite Z.gtb_ltb; reflexivity).
  rewrite !(andb_comm (x <=? _)).
  reflexivity.
Qed.

(** C9.  Whatever the platform, the locale, the offset and the hour, the
    synthesized fingerprint names the device profile Desktop Chrome. *)
Theorem device_is_always_desktop_chrome sig userLocale :
  deviceName (getHostMachineConfig sig userLocale) = "Desktop Chrome".
Proof.
  destruct sig as [lang offset hour os].
  unfold getHostMachineConfig. cbn [platform deviceName].
  destruct (os =? "darwin")%string, (os =? "win32")%string, (os =? "linux")%string;
    reflexivity.
Qed.

(** ** ResultExtractor and the shape of a response *)

(** A run whose navigation fails returns the diagnostic entry, whose link is
    empty. *)
Lemma failure_entry_has_empty_link :
  exists r item,
    out (run (googleSearch Examples.host (Examples.failing Examples.isGoto Examples.calm)
                2 "test" Examples.defaultOptions false)) = Ok r
    /\ In item (results r)
    /\ ~ (title item <> EmptyString /\ link item <> EmptyString).
Proof.
  eexists. eexists. split; [vm_compute; reflexivity | ].
  split; [left; reflexivity | ].
  cbn. intros [_ H]. apply H. reflexivity.
Qed.

(** C3 (amended).  Every result of a response returned by [googleSearch] has
    a non-empty title; every result has a non-empty link as well, unless the
    response is the one of the failure path, which holds the lone diagnostic
    entry (title "Search failed", empty link). *)
Theorem results_have_title_and_link host world fuel q options existingBrowser r :
  out (run (googleSearch host world fuel q options existingBrowser)) = Ok r ->
  Forall (fun item => title item <> EmptyString) (results r)
  /\ (Forall (fun item => link item <> EmptyString) (results r)
      \/ exists e, results r = [failureResult e]).
Proof.
  intros Hout.
  assert (Hspec : responseSpec q (limitOf options) r).
  { refine (triple_returns _ _ _ _ _ Hout).
    apply triple_googleSearch; intros; exact I. }
  destruct Hspec as (_ & [[Hwf _] | [e He]]).
  - split; [ | left]; eapply Forall_impl; try exact Hwf; intros item [Ht Hl]; assumption.
  - rewrite He. split; [ | right; eauto].
    constructor; [cbn; discriminate | constructor].
Qed.

Lemma results_have_title_and_link_witness :
  out (run (googleSearch Examples.host Examples.calm 2 "test" Examples.defaultOptions false))
  = Ok (mkResponse "test"
          [ mkResult "Rocq" "https://rocq-prover.org/" "The Rocq prover";
            mkResult "OCaml" "https://ocaml.org/" "The OCaml language";
            mkResult "Inria" "https://inria.fr/" "Research institute" ])
  /\ Forall (fun item => title item <> EmptyString)
       [ mkResult "Rocq" "https://rocq-prover.org/" "The Rocq prover";
         mkResult "OCaml" "https://ocaml.org/" "The OCaml language";
         mkResult "Inria" "https://inria.fr/" "Research institute" ].
Proof.
  split; [vm_compute; reflexivity | ].
  apply (results_have_title_and_link Examples.host Examples.calm 2 "test"
           Examples.defaultOptions false
           (mkResponse "test"
              [ mkResult "Rocq" "https://rocq-prover.org/" "The Rocq prover";
                mkResult "OCaml" "https://ocaml.org/" "The OCaml language";
                mkResult "Inria" "https://inria.fr/" "Research institute" ])).
  vm_compute. reflexivity.
Defined.

(** With limit 0, a run whose navigation fails returns one result. *)
Lemma failure_entry_exceeds_limit_zero :
  exists r,
    out (run (googleSearch Examples.host (Examples.failing Examples.isGoto Examples.calm)
                2 "test" (Examples.withLimit 0 Examples.defaultOptions) false)) = Ok r
    /\ ~ (Z.of_nat (List.length (results r))
          <= limitOf (Examples.withLimit 0 Examples.defaultOptions)).
Proof.
  eexists. split; [vm_compute; reflexivity | ].
  cbn. lia.
Qed.

(** A negative limit cuts from the end: with limit -1, two of the three
    blocks of the page are returned. *)
Lemma negative_limit_drops_from_the_end :
  exists r,
    out (run (googleSearch Examples.host Examples.calm 2 "test"
                (Examples.withLimit (-1) Examples.defaultOptions) false)) = Ok r
    /\ List.length (results r) = 2%nat.
Proof.
  eexists. split; [vm_compute; reflexivity | reflexivity].
Qed.

(** C4 (amended).  For a limit that is not negative (default 10), a response
    returned by [googleSearch] has at most [limit] results, except that the
    response of the failure path always holds exactly one result, which
    exceeds the limit when the limit is 0. *)
Theorem result_count_within_limit host world fuel q options existingBrowser r :
  0 <= limitOf options ->
  out (run (googleSearch host world fuel q options existingBrowser)) = Ok r ->
  Z.of_nat (List.length (results r)) <= limitOf options
  \/ (limitOf options = 0 /\ exists e, results r = [failureResult e]).
Proof.
  intros Hlimit Hout.
  assert (Hspec : responseSpec q (limitOf options) r).
  { refine (triple_returns _ _ _ _ _ Hout).
    apply triple_googleSearch; intros; exact I. }
  destruct Hspec as (_ & [[_ Hlen] | [e He]]).
  - left. auto.
  - destruct (Z.eq_dec (limitOf options) 0) as [H0 | Hpos].
    + right. eauto.
    + left. rewrite He. cbn. lia.
Qed.

Lemma result_count_within_limit_witness :
  0 <= limitOf (Examples.withLimit 2 Examples.defaultOptions)
  /\ (Z.of_nat (List.length
        [ mkResult "Rocq" "https://rocq-prover.org/" "The Rocq prover";
          mkResult "OCaml" "https://ocaml.org/" "The OCaml language" ])
      <= limitOf (Examples.withLimit 2 Examples.defaultOptions)
      \/ (limitOf (Examples.withLimit 2 Examples.defaultOptions) = 0
          /\ exists e,
               [ mkResult "Rocq" "https://rocq-prover.org/" "The Rocq prover";
                 mkResult "OCaml" "https://ocaml.org/" "The OCaml language" ]
               = [failureResult e])).
Proof.
  split; [cbn; lia | ].
  apply (result_count_within_limit Examples.host Examples.calm 2 "test"
           (Examples.withLimit 2 Examples.defaultOptions) false
           (mkResponse "test"
              [ mkResult "Rocq" "https://rocq-prover.org/" "The Rocq prover";
                mkResult "OCaml" "https://ocaml.org/" "The OCaml language" ])).
  - cbn; lia.
  - vm_compute. reflexivity.
Defined.

(** ** Persistence *)

(** C8.  With [options.noSaveState = true], a run of [googleSearch] makes no
    call that writes the storage snapshot or the identity sidecar, whatever
    the environment answers and however the run ends (response of the
    success path, response of the failure path, or exception). *)
Theorem no_state_written_when_disabled host world fuel q options existingBrowser :
  noSaveState options = Some true ->
  Forall (fun ev => isStateWrite ev = false)
    (trace (run (googleSearch host world fuel q options existingBrowser))).
Proof.
  intros Hno.
  assert (Hoff : noSaveStateOf options = true) by (unfold noSaveStateOf; rewrite Hno; reflexivity).
  refine (proj1 (proj2 (triple_googleSearch host world
                          (fun ev => isStateWrite ev = false)
                          _ _ _ _ _ _ _ fuel q options existingBrowser _ _
                          initialState I))).
  - intros; reflexivity.
  - intros c Hc. destruct c; try reflexivity; discriminate.
  - intros; reflexivity.
  - intros; reflexivity.
  - intros; reflexivity.
  - intros; reflexivity.
  - intros; reflexivity.
  - intros Hon. congruence.
  - intros Hon. congruence.
Qed.

Lemma no_state_written_when_disabled_witness :
  noSaveState (Examples.withNoSaveState Examples.defaultOptions) = Some true
  /\ Forall (fun ev => isStateWrite ev = false)
       (trace (run (googleSearch Examples.host Examples.calm 2 "test"
                      (Examples.withNoSaveState Examples.defaultOptions) false))).
Proof.
  split; [reflexivity | ].
  apply (no_state_written_when_disabled Examples.host Examples.calm 2 "test"
           (Examples.withNoSaveState Examples.defaultOptions) false).
  reflexivity.
Defined.

(** The failure path with the option set: nothing is written either. *)
Lemma no_state_written_after_failure_when_disabled :
  out (run (googleSearch Examples.host (Examples.failing Examples.isGoto Examples.calm)
              2 "test" (Examples.withNoSaveState Examples.defaultOptions) false))
  = Ok (mkResponse "test" [failureResult (JS.Error "Error" "browser unavailable")])
  /\ existsb isStateWrite
       (trace (run (googleSearch Examples.host
                      (Examples.failing Examples.isGoto Examples.calm) 2 "test"
                      (Examples.withNoSaveState Examples.defaultOptions) false)))
     = false.
Proof.
  split; vm_compute; reflexivity.
Qed.

(** Without the option the failure path does write. *)
Lemma state_written_after_failure_by_default :
  existsb isStateWrite
    (trace (run (googleSearch Examples.host
                   (Examples.failing Examples.isGoto Examples.calm) 2 "test"
                   Examples.defaultOptions false))) = true.
Proof.
  vm_compute. reflexivity.
Qed.

(** Without the option, the same run does write. *)
Lemma state_written_by_default :
  existsb isStateWrite
    (trace (run (googleSearch Examples.host Examples.calm 2 "test"
                   Examples.defaultOptions false))) = true.
Proof.
  vm_compute. reflexivity.
Qed.

(** ** The retry of [performSearch] *)

Lemma trace_bind {A B} (m : M A) (f : A -> M B) s :
  trace (bind m f s)
  = trace (m s) ++ match out (m s) with
                   | Ok a => trace (f a (final (m s)))
                   | _ => []
                   end.
Proof.
  unfold bind. destruct (out (m s)); cbn; rewrite ?app_nil_r; reflexivity.
Qed.

Lemma out_bind {A B} (m : M A) (f : A -> M B) s :
  out (bind m f s)
  = match out (m s) with
    | Ok a => out (f a (final (m s)))
    | Throw e => Throw e
    | OutOfFuel => OutOfFuel
    end.
Proof.
  unfold bind. destruct (out (m s)); reflexivity.
Qed.

Lemma bind_congr_on {A B} (m : M A) (f g : A -> M B) s :
  (forall a, out (m s) = Ok a -> f a (final (m s)) = g a (final (m s))) ->
  bind m f s = bind m g s.
Proof.
  intros H. unfold bind. destruct (out (m s)) as [a | e |]; try reflexivity.
  rewrite (H a eq_refl). reflexivity.
Qed.

Lemma entries_app tr1 tr2 : entries (tr1 ++ tr2) = (entries tr1 + entries tr2)%nat.
Proof.
  unfold entries. rewrite filter_app, length_app. reflexivity.
Qed.

Lemma entries_none tr : Forall (fun ev => isEnter ev = false) tr -> entries tr = 0%nat.
Proof.
  unfold entries. induction 1 as [ | ev tr Hev _ IH]; cbn; [reflexivity | ].
  rewrite Hev. exact IH.
Qed.

Lemma terminates_bind_returns {A B} (P : A -> Prop) (m : M A) (f : A -> M B) :
  terminates m -> returns P m -> (forall a, P a -> terminates (f a)) ->
  terminates (bind m f).
Proof.
  intros Hm HP Hf s. rewrite out_bind. specialize (Hm s). specialize (HP s).
  destruct (out (m s)) as [a | e |]; [apply Hf, HP; reflexivity | discriminate | congruence].
Qed.

Section Retry.

Variable host : Host.
Variable world : World.
Variable query : string.
Variable limit : Z.
Variable stateFile : string.
Variable noSaveState : bool.
Variable locale : string.
Variable debug : bool.
Variable existingBrowser : bool.
Variable storageState : option string.
Variable fingerprintFile : string.

Local Notation activation_ :=
  (activation host world query limit stateFile noSaveState locale debug
     existingBrowser storageState fingerprintFile).
Local Notation prepareAndSearch_ :=
  (prepareAndSearch host world query limit stateFile noSaveState locale debug
     existingBrowser storageState fingerprintFile).
Local Notation performSearch_ :=
  (performSearch host world query limit stateFile noSaveState locale debug
     existingBrowser storageState fingerprintFile).

Lemma terminates_findSearchInput selectors :
  terminates (findSearchInput world selectors).
Proof.
  induction selectors as [ | selector rest IH]; cbn [findSearchInput];
    repeat halts; exact IH.
Qed.

Lemma terminates_waitForResults found selectors :
  terminates (waitForResults world found selectors).
Proof.
  induction selectors as [ | selector rest IH]; cbn [waitForResults];
    repeat halts; exact IH.
Qed.

Lemma terminates_structuredLoop selectors results :
  terminates (structuredLoop world limit selectors results).
Proof.
  revert results.
  induction selectors as [ | selector rest IH]; intros results;
    cbn [structuredLoop]; repeat halts; apply IH.
Qed.

Ltac settle :=
  repeat first [ apply terminates_findSearchInput
               | apply terminates_waitForResults
               | apply terminates_structuredLoop
               | halts ].

Lemma terminates_searchBody headless bwp co :
  terminates (searchBody host world query limit stateFile noSaveState debug
                fingerprintFile headless bwp co).
Proof.
  unfold searchBody, selectDomain, submitQuery, awaitResults, extractAndReturn,
    extractResults, saveStateOnSuccess, closeOrKeep, restartVisible,
    getRandomDelay.
  settle.
Qed.

Lemma terminates_onSearchError bwp e :
  terminates (onSearchError host world query stateFile noSaveState debug
                fingerprintFile bwp e).
Proof.
  unfold onSearchError, saveStateOnError, closeOrKeep. settle.
Qed.

Lemma terminates_prepareAndSearch headless : terminates (prepareAndSearch_ headless).
Proof.
  unfold prepareAndSearch, acquireBrowser, resolveContextOptions, getDeviceConfig,
    guarded.
  settle; first [apply terminates_searchBody | apply terminates_onSearchError].
Qed.

Lemma terminates_activation headless : terminates (activation_ headless).
Proof.
  unfold activation. halts; [halts | apply terminates_prepareAndSearch].
Qed.

Lemma returns_activation headless :
  returns (stepSpec query limit headless) (activation_ headless).
Proof.
  apply triple_returns, triple_activation; intros; exact I.
Qed.

(** A visible activation never asks for a retry. *)
Lemma visible_activation_returns s :
  out (activation_ false s) <> Ok Retry.
Proof.
  intros H. apply returns_activation in H. discriminate H.
Qed.

Lemma entries_activation headless s :
  entries (trace (activation_ headless s)) = 1%nat.
Proof.
  unfold activation. rewrite trace_bind. cbn [emit trace out final].
  rewrite entries_app. cbn.
  rewrite entries_none; [reflexivity | ].
  apply (triple_prepareAndSearch host world (fun ev => isEnter ev = false));
    first [ exact I | intros; reflexivity ].
Qed.

Lemma entries_performSearch fuel headless s :
  (entries (trace (performSearch_ fuel headless s)) <= if headless then 2 else 1)%nat.
Proof.
  revert headless s. induction fuel as [ | fuel IH]; intros headless s.
  - cbn. destruct headless; lia.
  - cbn [performSearch]. rewrite trace_bind, entries_app, entries_activation.
    destruct (out (activation_ headless s)) as [[r | ] | e | ] eqn:Hout;
      cbn; try (destruct headless; lia).
    apply returns_activation in Hout. cbn in Hout. subst headless.
    specialize (IH false (final (activation_ true s))). cbn in IH. lia.
Qed.

Lemma performSearch_visible_fuel fuel s :
  performSearch_ (S fuel) false s = performSearch_ 1 false s.
Proof.
  cbn [performSearch]. apply bind_congr_on. intros [r | ] Hout; [reflexivity | ].
  exfalso. exact (visible_activation_returns s Hout).
Qed.

Lemma performSearch_fuel fuel headless s :
  (2 <= fuel)%nat -> performSearch_ fuel headless s = performSearch_ 2 headless s.
Proof.
  intros Hfuel. destruct fuel as [ | [ | fuel]]; try lia.
  cbn [performSearch]. apply bind_congr_on. intros [r | ] Hout; [reflexivity | ].
  exact (performSearch_visible_fuel fuel _).
Qed.

Lemma terminates_performSearch_visible : terminates (performSearch_ 1 false).
Proof.
  cbn [performSearch].
  apply terminates_bind_returns with (P := stepSpec query limit false).
  - apply terminates_activation.
  - apply returns_activation.
  - intros [r | ] Hstep; [apply terminates_ret | discriminate Hstep].
Qed.

Lemma terminates_performSearch fuel headless :
  (2 <= fuel)%nat -> terminates (performSearch_ fuel headless).
Proof.
  intros Hfuel s. rewrite (performSearch_fuel fuel headless s Hfuel). revert s.
  cbn [performSearch]. apply terminates_bind; [apply terminates_activation | ].
  intros [r | ]; [apply terminates_ret | apply terminates_performSearch_visible].
Qed.

End Retry.

Lemma entries_bind_quiet {A B} (m : M A) (f : A -> M B) n s :
  Forall (fun ev => isEnter ev = false) (trace (m s)) ->
  (forall a s', (entries (trace (f a s')) <= n)%nat) ->
  (entries (trace (bind m f s)) <= n)%nat.
Proof.
  intros Hm Hf. rewrite trace_bind, entries_app, (entries_none _ Hm).
  destruct (out (m s)); cbn; [apply Hf | lia | lia].
Qed.

Lemma quiet_prelude {A} (m : M A) s :
  triple anyState (fun ev => isEnter ev = false) anyValue m ->
  Forall (fun ev => isEnter ev = false) (trace (m s)).
Proof.
  intros H. exact (proj1 (proj2 (H s I))).
Qed.

Lemma entries_googleSearch host world fuel q options existingBrowser s :
  (entries (trace (googleSearch host world fuel q options existingBrowser s)) <= 2)%nat.
Proof.
  unfold googleSearch.
  apply entries_bind_quiet.
  { apply quiet_prelude.
    destruct (stateFile options);
      [apply triple_ret; exact I | apply triple_getStateFilePath; intros; reflexivity]. }
  intros stateFile_ s1. apply entries_bind_quiet.
  { apply quiet_prelude. apply triple_emit; [reflexivity | exact I]. }
  intros _ s2. apply entries_bind_quiet.
  { apply quiet_prelude.
    apply triple_loadSavedState; intros; reflexivity. }
  intros storageState s3.
  etransitivity; [apply entries_performSearch | ].
  destruct (negb (debugOf options)); lia.
Qed.

Lemma googleSearch_fuel host world fuel q options existingBrowser s :
  (2 <= fuel)%nat ->
  googleSearch host world fuel q options existingBrowser s
  = googleSearch host world 2 q options existingBrowser s.
Proof.
  intros Hfuel. unfold googleSearch.
  apply bind_congr_on; intros stateFile_ _.
  apply bind_congr_on; intros _ _.
  apply bind_congr_on; intros storageState _.
  apply performSearch_fuel, Hfuel.
Qed.

Lemma terminates_getStateFilePath host world filename :
  terminates (getStateFilePath host world filename).
Proof.
  unfold getStateFilePath, getStorageStateDir. repeat halts.
Qed.

Lemma terminates_loadSavedState host world stateFile fingerprintFile :
  terminates (loadSavedState host world stateFile fingerprintFile).
Proof.
  unfold loadSavedState. repeat halts.
Qed.

Lemma terminates_googleSearch host world fuel q options existingBrowser :
  (2 <= fuel)%nat ->
  terminates (googleSearch host world fuel q options existingBrowser).
Proof.
  intros Hfuel. unfold googleSearch.
  halts; [destruct (stateFile options);
          [apply terminates_ret | apply terminates_getStateFilePath] | ].
  halts; [halts | ].
  halts; [apply terminates_loadSavedState | ].
  apply terminates_performSearch, Hfuel.
Qed.

(** No environment makes a run enter [performSearch] a third time. *)
Lemma retries_are_bounded :
  ~ (forall n : nat,
       exists host world fuel q options existingBrowser,
         (n <= entries (trace (run (googleSearch host world fuel q options
                                      existingBrowser))))%nat).
Proof.
  intros H. destruct (H 3%nat) as (host & world & fuel & q & options & eb & Hn).
  pose proof (entries_googleSearch host world fuel q options eb initialState) as Hle.
  unfold run in Hn. lia.
Qed.

(** A target that answers every navigation with its challenge is retried
    once, in visible mode, and the run ends with the diagnostic response. *)
Lemma challenged_run_retries_once :
  filter isEnter
    (trace (run (googleSearch Examples.host (Examples.challenged Examples.calm) 7
                   "test" Examples.defaultOptions false)))
  = [EEnter true; EEnter false].
Proof.
  vm_compute. reflexivity.
Qed.

(** C5 (amended).  The CAPTCHA-retry path of [performSearch] recurses at
    most once: the recursive call passes headless = false, and a visible
    activation never recurses.  Whatever the target answers, a run of
    [googleSearch] enters [performSearch] at most twice; two units of fuel
    are always enough, and more fuel changes nothing. *)
Theorem retry_happens_at_most_once host world fuel q options existingBrowser :
  (entries (trace (run (googleSearch host world fuel q options existingBrowser))) <= 2)%nat
  /\ ((2 <= fuel)%nat ->
      out (run (googleSearch host world fuel q options existingBrowser)) <> OutOfFuel
      /\ run (googleSearch host world fuel q options existingBrowser)
         = run (googleSearch host world 2 q options existingBrowser)).
Proof.
  split; [apply entries_googleSearch | ].
  intros Hfuel. split.
  - apply terminates_googleSearch, Hfuel.
  - apply googleSearch_fuel, Hfuel.
Qed.

Lemma retry_happens_at_most_once_witness :
  (entries (trace (run (googleSearch Examples.host (Examples.challenged Examples.calm) 7
                          "test" Examples.defaultOptions false))) <= 2)%nat
  /\ out (run (googleSearch Examples.host (Examples.challenged Examples.calm) 7
                 "test" Examples.defaultOptions false)) <> OutOfFuel.
Proof.
  destruct (retry_happens_at_most_once Examples.host (Examples.challenged Examples.calm)
              7 "test" Examples.defaultOptions false) as [Hle Hfuel].
  split; [exact Hle | ].
  apply Hfuel. repeat constructor.
Defined.

(** ** Failure semantics of a single-query run *)

Lemma total_saveStateOnError host world stateFile noSaveState fingerprintFile :
  total anyValue (saveStateOnError host world stateFile noSaveState fingerprintFile).
Proof.
  unfold saveStateOnError. apply total_try_catch.
  - repeat halts.
  - apply returns_any.
  - intros e. apply total_emit. exact I.
Qed.

(** What the handler does with an error of the guarded region: it logs it,
    runs the save block of the failure path, takes the close-or-keep decision
    of the success path, and returns the diagnostic response unless closing
    the browser throws. *)
Lemma onSearchError_runs host world q stateFile noSaveState debug fingerprintFile
  bwp e s :
  exists s2,
    trace (onSearchError host world q stateFile noSaveState debug fingerprintFile bwp e s)
    = ELog LError ("[GoogleSearch] Error during search: " ^^ JS.String_ e)
      :: trace (saveStateOnError host world stateFile noSaveState fingerprintFile s)
      ++ trace (closeOrKeep world debug bwp s2)
    /\ out (onSearchError host world q stateFile noSaveState debug fingerprintFile bwp e s)
       = match out (closeOrKeep world debug bwp s2) with
         | Ok _ => Ok (Return (mkResponse q [failureResult e]))
         | Throw e' => Throw e'
         | OutOfFuel => OutOfFuel
         end.
Proof.
  exists (final (saveStateOnError host world stateFile noSaveState fingerprintFile s)).
  unfold onSearchError.
  destruct (total_saveStateOnError host world stateFile noSaveState fingerprintFile s)
    as ([] & Hsave & _).
  rewrite !trace_bind, !out_bind. cbn [logger_error emit out final trace].
  rewrite Hsave.
  destruct (out (closeOrKeep world debug bwp _)); cbn; rewrite ?app_nil_r; auto.
Qed.

Section Totality.

Variable host : Host.
Variable world : World.
Hypothesis reliable : dependable world.

Ltac arrive :=
  repeat first
    [ lazymatch goal with
      | |- total _ (call _ _) =>
          apply total_call; [intros; apply reliable; reflexivity | try side]
      end
    | lands ].

Lemma total_getStateFilePath filename :
  total (fun p => p = path_join host [storageDirPath host; filename])
    (getStateFilePath host world filename).
Proof.
  unfold getStateFilePath.
  apply total_bind with (P := fun d => d = storageDirPath host).
  - unfold getStorageStateDir.
    lands; [arrive | ]. lands; [arrive | ]. apply total_ret. reflexivity.
  - intros d ->. apply total_ret. reflexivity.
Qed.

Lemma total_loadSavedState stateFile fingerprintFile :
  total anyValue (loadSavedState host world stateFile fingerprintFile).
Proof.
  unfold loadSavedState. arrive.
  apply total_try_catch; [repeat halts | apply returns_any | ].
  intros e. arrive.
Qed.

Section Closure.

Variable query : string.
Variable limit : Z.
Variable stateFile : string.
Variable noSaveState : bool.
Variable locale : string.
Variable debug : bool.
Variable existingBrowser : bool.
Variable storageState : option string.
Variable fingerprintFile : string.

Lemma total_closeOrKeep bwp : total anyValue (closeOrKeep world debug bwp).
Proof.
  unfold closeOrKeep. arrive.
Qed.

Lemma total_onSearchError headless bwp e :
  total (stepSpec query limit headless)
    (onSearchError host world query stateFile noSaveState debug fingerprintFile bwp e).
Proof.
  unfold onSearchError.
  lands; [arrive | ].
  lands; [apply total_saveStateOnError | ].
  lands; [apply total_closeOrKeep | ].
  apply total_ret. cbn. split; [reflexivity | right; eauto].
Qed.

Lemma total_guarded headless bwp co :
  total (stepSpec query limit headless)
    (guarded host world query limit stateFile noSaveState debug fingerprintFile
       headless bwp co).
Proof.
  unfold guarded. apply total_try_catch.
  - apply terminates_searchBody.
  - apply triple_returns, triple_searchBody; intros; exact I.
  - intros e. apply total_onSearchError.
Qed.

Lemma totalOn_intro {A} J (Q P : A -> Prop) (m : M A) :
  total Q m -> triple J anyEvent P m -> totalOn J Q m.
Proof.
  intros Ht Hk s Hs. destruct (Ht s) as (a & Hout & HQ).
  destruct (Hk s Hs) as (HJ & _). exists a. auto.
Qed.

Lemma totalOn_bind {A B} J (P : A -> Prop) (Q : B -> Prop) (m : M A) (f : A -> M B) :
  totalOn J P m -> (forall a, P a -> totalOn J Q (f a)) -> totalOn J Q (bind m f).
Proof.
  intros Hm Hf s Hs. unfold bind. destruct (Hm s Hs) as (a & Ho & HP & HJ).
  rewrite Ho. cbn. exact (Hf a HP (final (m s)) HJ).
Qed.

(** On an object the context options are resolved without an exception. *)
Lemma resolveContextOptions_resolves :
  totalOn isObject anyValue (resolveContextOptions host world locale).
Proof.
  intros [[fpo dom sh] clk] Hs. unfold isObject in *. cbn [savedState shape] in Hs.
  unfold resolveContextOptions, getDeviceConfig, readProperty, assignProperty.
  destruct Hs as [-> | ->]; execute;
    (destruct fpo as [fp | ];
     [ destruct (JS.truthy (deviceName fp));
       [destruct (devices host (deviceName fp)) | ]
     | destruct (negb _) ]);
    execute; eexists; (split; [reflexivity | ]); (split; [exact I | cbn; auto]).
Qed.

Lemma total_activation headless :
  totalOn isObject (stepSpec query limit headless)
    (activation host world query limit stateFile noSaveState locale debug
       existingBrowser storageState fingerprintFile headless).
Proof.
  unfold activation, prepareAndSearch.
  apply totalOn_bind with (P := anyValue).
  { apply totalOn_intro with (P := anyValue); [arrive | repeat walk]. }
  intros _ _.
  apply totalOn_bind with (P := anyValue).
  { apply totalOn_intro with (P := anyValue);
      [unfold acquireBrowser; arrive | unfold acquireBrowser; repeat walk]. }
  intros bwp _.
  apply totalOn_bind with (P := anyValue); [apply resolveContextOptions_resolves | ].
  intros co _.
  do 5 (apply totalOn_bind with (P := anyValue);
        [apply totalOn_intro with (P := anyValue); [arrive | repeat walk] | intros ? _]).
  apply totalOn_intro with (P := stepSpec query limit headless);
    [apply total_guarded | ].
  apply triple_guarded; try (intros; exact I).
  intros s d Hs. exact Hs.
Qed.

Lemma total_performSearch fuel headless :
  (2 <= fuel)%nat ->
  totalOn isObject (responseSpec query limit)
    (performSearch host world query limit stateFile noSaveState locale debug
       existingBrowser storageState fingerprintFile fuel headless).
Proof.
  intros Hfuel. destruct fuel as [ | [ | fuel]]; try lia.
  cbn [performSearch].
  apply totalOn_bind with (P := stepSpec query limit headless);
    [apply total_activation | ].
  intros [r | ] Hstep.
  { apply totalOn_intro with (P := anyValue); [apply total_ret, Hstep | walk]. }
  apply totalOn_bind with (P := stepSpec query limit false);
    [apply total_activation | ].
  intros [r | ] Hstep'; [ | discriminate Hstep'].
  apply totalOn_intro with (P := anyValue); [apply total_ret, Hstep' | walk].
Qed.

End Closure.

(** The load phase leaves an object when the sidecar holds one. *)
Lemma loadSavedState_keeps_object stateFile fingerprintFile :
  sidecarIsObject host world fingerprintFile ->
  triple isObject anyEvent anyValue
    (loadSavedState host world stateFile fingerprintFile).
Proof.
  intros Hshape. unfold loadSavedState.
  walk; [repeat walk | ].
  destruct a; [ | repeat walk].
  walk; [repeat walk | ].
  walk; [repeat walk | ].
  walk; [ | repeat walk].
  apply triple_when; [exact I | intros _].
  apply triple_try_catch; [ | intros e; repeat walk].
  apply triple_bind
    with (P := fun data => exists t, data = file_at world t fingerprintFile).
  { apply triple_ask; [exact I | eauto]. }
  intros data [t ->].
  walk; [ | repeat walk].
  destruct (JSON_parse host (file_at world t fingerprintFile)) as [e | parsed] eqn:Hp.
  - apply triple_throw.
  - apply triple_setSavedState; [exact (Hshape t parsed Hp) | exact I].
Qed.

Lemma total_googleSearch fuel q options existingBrowser :
  (2 <= fuel)%nat ->
  sidecarIsObject host world (fingerprintFileOf (stateFileOf host options)) ->
  totalOn isObject (responseSpec q (limitOf options))
    (googleSearch host world fuel q options existingBrowser).
Proof.
  intros Hfuel Hshape. unfold googleSearch.
  apply totalOn_bind with (P := fun p => p = stateFileOf host options).
  { unfold stateFileOf. destruct (stateFile options).
    - apply totalOn_intro with (P := anyValue); [apply total_ret; reflexivity | walk].
    - apply totalOn_intro with (P := anyValue);
        [apply total_getStateFilePath
        | unfold getStateFilePath, getStorageStateDir; repeat walk]. }
  intros p ->.
  apply totalOn_bind with (P := anyValue).
  { apply totalOn_intro with (P := anyValue); [arrive | repeat walk]. }
  intros _ _.
  apply totalOn_bind with (P := anyValue).
  { apply totalOn_intro with (P := anyValue);
      [apply total_loadSavedState | apply loadSavedState_keeps_object, Hshape]. }
  intros storageState _.
  apply total_performSearch, Hfuel.
Qed.

End Totality.


(** A sidecar that holds [null]: it parses, the load phase succeeds, and the
    first read of a property throws before the guarded region is entered. *)
Lemma null_sidecar_reaches_the_caller :
  dependable Examples.nullSidecar
  /\ out (run (googleSearch Examples.host Examples.nullSidecar 2 "test"
                 Examples.defaultOptions false))
     = Throw (JS.Error "TypeError" "Cannot read properties of null (reading 'fingerprint')").
Proof.
  split; [intros t c Hc; reflexivity | vm_compute; reflexivity].
Qed.

(** A sidecar that holds a number: the fingerprint cannot be assigned to
    it. *)
Lemma primitive_sidecar_reaches_the_caller :
  out (run (googleSearch Examples.host
              (Examples.withFiles (fun _ => true) "5" Examples.calm) 2 "test"
              Examples.defaultOptions false))
  = Throw (JS.Error "TypeError" "Cannot create property 'fingerprint' on number '5'").
Proof.
  vm_compute. reflexivity.
Qed.

(** *** A response is the outcome of a guarded region *)

Lemma bind_returns {A B} (m : M A) (f : A -> M B) s b :
  out (bind m f s) = Ok b ->
  exists a,
    out (m s) = Ok a
    /\ out (f a (final (m s))) = Ok b
    /\ trace (bind m f s) = trace (m s) ++ trace (f a (final (m s))).
Proof.
  rewrite out_bind, trace_bind.
  destruct (out (m s)) as [a | e | ]; try discriminate.
  intros H. exists a. auto.
Qed.

Lemma acquireBrowser_returns world existingBrowser headless :
  returns (fun b => b = existingBrowser) (acquireBrowser world existingBrowser headless).
Proof.
  apply triple_returns. unfold acquireBrowser.
  destruct existingBrowser; repeat walk.
Qed.

Lemma getStateFilePath_returns host world filename :
  returns (fun p => p = path_join host [storageDirPath host; filename])
    (getStateFilePath host world filename).
Proof.
  apply triple_returns. unfold getStateFilePath.
  apply triple_bind with (P := fun d => d = storageDirPath host).
  - unfold getStorageStateDir.
    walk; [repeat walk | ]. walk; [repeat walk | ]. apply triple_ret. reflexivity.
  - intros d ->. apply triple_ret. reflexivity.
Qed.

Section LastRegion.

Variable host : Host.
Variable world : World.
Variable query : string.
Variable limit : Z.
Variable stateFile : string.
Variable noSaveState : bool.
Variable locale : string.
Variable debug : bool.
Variable existingBrowser : bool.
Variable storageState : option string.
Variable fingerprintFile : string.

Local Notation guarded_ :=
  (guarded host world query limit stateFile noSaveState debug fingerprintFile).

Lemma prepareAndSearch_ends_guarded headless s step :
  out (prepareAndSearch host world query limit stateFile noSaveState locale debug
         existingBrowser storageState fingerprintFile headless s) = Ok step ->
  exists before co s',
    trace (prepareAndSearch host world query limit stateFile noSaveState locale debug
             existingBrowser storageState fingerprintFile headless s)
    = before ++ trace (guarded_ headless existingBrowser co s')
    /\ out (guarded_ headless existingBrowser co s') = Ok step.
Proof.
  unfold prepareAndSearch. intros H.
  apply bind_returns in H. destruct H as (bwp & Hbwp & H & ->).
  apply acquireBrowser_returns in Hbwp. subst bwp.
  apply bind_returns in H. destruct H as (co & _ & H & ->).
  do 5 (apply bind_returns in H; destruct H as (? & _ & H & ->)).
  eexists. exists co. eexists. rewrite !app_assoc. split; [reflexivity | exact H].
Qed.

Lemma performSearch_ends_guarded fuel headless s r :
  out (performSearch host world query limit stateFile noSaveState locale debug
         existingBrowser storageState fingerprintFile fuel headless s) = Ok r ->
  exists before h co s',
    trace (performSearch host world query limit stateFile noSaveState locale debug
             existingBrowser storageState fingerprintFile fuel headless s)
    = before ++ trace (guarded_ h existingBrowser co s')
    /\ out (guarded_ h existingBrowser co s') = Ok (Return r).
Proof.
  revert headless s. induction fuel as [ | fuel IH]; intros headless s H;
    cbn [performSearch] in *; [discriminate H | ].
  apply bind_returns in H. destruct H as (step & Hstep & H & ->).
  destruct step as [r' | ].
  - injection H as <-. cbn [ret trace]. rewrite app_nil_r.
    unfold activation in *.
    apply bind_returns in Hstep. destruct Hstep as ([] & _ & Hstep & ->).
    destruct (prepareAndSearch_ends_guarded _ _ _ Hstep) as (before & co & s' & -> & Hout).
    exists (trace (emit (EEnter headless) s) ++ before), headless, co, s'.
    rewrite app_assoc. auto.
  - destruct (IH _ _ H) as (before & h & co & s' & -> & Hout).
    eexists. exists h, co, s'. rewrite app_assoc. split; [reflexivity | exact Hout].
Qed.

End LastRegion.

Lemma googleSearch_ends_guarded host world fuel q options existingBrowser r :
  out (run (googleSearch host world fuel q options existingBrowser)) = Ok r ->
  exists before headless co s,
    trace (run (googleSearch host world fuel q options existingBrowser))
    = before ++ trace (guarded host world q (limitOf options) (stateFileOf host options)
                         (noSaveStateOf options) (debugOf options)
                         (fingerprintFileOf (stateFileOf host options))
                         headless existingBrowser co s)
    /\ out (guarded host world q (limitOf options) (stateFileOf host options)
              (noSaveStateOf options) (debugOf options)
              (fingerprintFileOf (stateFileOf host options))
              headless existingBrowser co s) = Ok (Return r).
Proof.
  unfold run, googleSearch. intros H.
  apply bind_returns in H. destruct H as (p & Hp & H & ->).
  assert (Hpath : p = stateFileOf host options).
  { unfold stateFileOf. destruct (stateFile options).
    - injection Hp as <-. reflexivity.
    - exact (getStateFilePath_returns host world _ _ _ Hp). }
  subst p.
  apply bind_returns in H. destruct H as ([] & _ & H & ->).
  apply bind_returns in H. destruct H as (ss & _ & H & ->).
  destruct (performSearch_ends_guarded _ _ _ _ _ _ _ _ _ _ _ _ _ _ _ H)
    as (before & h & co & s' & -> & Hout).
  eexists. exists h, co, s'. rewrite !app_assoc. split; [reflexivity | exact Hout].
Qed.



(** ** MultiQueryCoordinator *)

Lemma total_try_finally {A} (Q : A -> Prop) (m : M A) (f : M unit) :
  total Q m -> total anyValue f -> total Q (try_finally m f).
Proof.
  intros Hm Hf s. unfold try_finally.
  destruct (Hm s) as (a & Hout & HQ). destruct (Hf (final (m s))) as ([] & Hout' & _).
  exists a. rewrite Hout'. cbn. auto.
Qed.

Lemma fulfilled_ok {A} (Q : A -> Prop) (settled : list (Result A)) :
  Forall (fun o => exists a, o = Ok a /\ Q a) settled ->
  exists l, fulfilled settled = Some l /\ map Ok l = settled /\ Forall Q l.
Proof.
  induction 1 as [ | o rest (a & -> & HQ) _ (l & Hl & Hmap & HQs)]; cbn.
  - exists []. auto.
  - exists (a :: l). rewrite Hl. cbn. rewrite Hmap. auto.
Qed.

Lemma promiseAll_ok {A} (Q : A -> Prop) race (settled : list (Result A)) :
  Forall (fun o => exists a, o = Ok a /\ Q a) settled ->
  exists l, promiseAll race settled = Ok l /\ map Ok l = settled /\ Forall Q l.
Proof.
  intros H. destruct (fulfilled_ok Q settled H) as (l & Hl & Hmap & HQ).
  exists l. unfold promiseAll. rewrite Hl. auto.
Qed.

Lemma getStateFilePath_resolves host world filename :
  (forall t p, fails world t (fs_mkdirSync p) = None) ->
  total (fun p => p = path_join host [storageDirPath host; filename])
    (getStateFilePath host world filename).
Proof.
  intros Hmkdir. unfold getStateFilePath.
  apply total_bind with (P := fun d => d = storageDirPath host).
  - unfold getStorageStateDir.
    lands; [lands | ].
    lands; [ | apply total_ret; reflexivity].
    unfold when. destruct (negb _); [ | apply total_ret; exact I].
    apply total_call; [intros; apply Hmkdir | exact I].
  - intros d ->. apply total_ret. reflexivity.
Qed.

Section CoordinatorFacts.

Variable host : Host.
Variable world : World.
Variable sessions : nat -> World.
Variable fuel : nat.
Variable race : nat.
Variable options : SearchOptions.

Hypothesis reliable : dependable world.

Lemma startAll_settles queries index :
  total (fun promises => promises = settledFrom host sessions fuel options index queries)
    (startAll host world sessions fuel options index queries).
Proof.
  revert index. induction queries as [ | q rest IH]; intros index;
    cbn [startAll settledFrom].
  - apply total_ret. reflexivity.
  - apply total_bind with (P := fun p => p = queryStateFile host options index).
    { unfold queryStateFile. destruct (stateFile options) as [p | ];
        [destruct (JS.truthy p) | ];
        first [ apply total_ret; reflexivity
              | apply getStateFilePath_resolves; intros; apply reliable; reflexivity ]. }
    intros p ->.
    lands; [lands | ].
    apply total_bind
      with (P := fun promise =>
                   promise = out (run (googleSearch host (sessions index) fuel q
                                         (queryOptions host options index) true))).
    { intros s. eexists. split; reflexivity. }
    intros promise ->.
    apply total_bind with (P := fun promises =>
                                  promises = settledFrom host sessions fuel options
                                               (S index) rest);
      [apply IH | ].
    intros promises ->. apply total_ret. reflexivity.
Qed.

Hypothesis reliable_sessions : forall i, dependable (sessions i).
Hypothesis shaped_sessions :
  forall i, sidecarIsObject host (sessions i)
              (fingerprintFileOf (queryStateFile host options i)).
Hypothesis enough_fuel : (2 <= fuel)%nat.

Lemma settled_all_ok queries index :
  Forall2 (fun q o => exists r, o = Ok r /\ query r = q) queries
    (settledFrom host sessions fuel options index queries).
Proof.
  revert index. induction queries as [ | q rest IH]; intros index; cbn [settledFrom];
    constructor; [ | apply IH].
  destruct (total_googleSearch host (sessions index) (reliable_sessions index) fuel q
              (queryOptions host options index) true enough_fuel
              (shaped_sessions index) initialState)
    as (r & Hout & (Hq & _) & _).
  { left. reflexivity. }
  exists r. auto.
Qed.

Lemma promiseAll_settled queries index :
  exists rs,
    promiseAll race (settledFrom host sessions fuel options index queries) = Ok rs
    /\ map Ok rs = settledFrom host sessions fuel options index queries
    /\ map query rs = queries.
Proof.
  assert (H : exists rs,
                fulfilled (settledFrom host sessions fuel options index queries) = Some rs
                /\ map Ok rs = settledFrom host sessions fuel options index queries
                /\ map query rs = queries).
  { pose proof (settled_all_ok queries index) as H.
    induction H as [ | q o queries' settled (r & -> & Hq) _ (rs & Hall & Hmap & Hqs)].
    - exists []. auto.
    - exists (r :: rs). cbn. rewrite Hall, Hmap, Hq, Hqs. auto. }
  destruct H as (rs & Hall & Hmap & Hqs).
  exists rs. unfold promiseAll. rewrite Hall. auto.
Qed.

Lemma multiGoogleSearch_returns queries :
  queries <> [] ->
  total (fun rs => map Ok rs = settledFrom host sessions fuel options 0 queries
                   /\ map query rs = queries)
    (multiGoogleSearch host world sessions fuel race queries options).
Proof.
  intros Hne. destruct queries as [ | q0 rest]; [congruence | ].
  unfold multiGoogleSearch.
  lands; [lands | ].
  lands; [apply total_call; [intros; apply reliable; reflexivity | exact I] | ].
  apply total_try_finally.
  - apply total_bind
      with (P := fun promises =>
                   promises = settledFrom host sessions fuel options 0 (q0 :: rest));
      [apply startAll_settles | ].
    intros promises ->.
    destruct (promiseAll_settled (q0 :: rest) 0) as (rs & Hall & Hmap & Hqs).
    rewrite Hall. cbn [await].
    apply total_bind with (P := fun searches => searches = rs);
      [apply total_ret; reflexivity | ].
    intros searches ->.
    lands; [lands | ].
    apply total_ret. auto.
  - destruct (negb _).
    + lands; [lands | ].
      apply total_call; [intros; apply reliable; reflexivity | exact I].
    + lands.
Qed.

End CoordinatorFacts.


(** The context of one query cannot be created: the whole call throws, and
    the response of the other query is lost. *)
Lemma multi_search_throws_on_context_failure :
  out (run (multiGoogleSearch Examples.host Examples.calm Examples.firstHasNoContext 2 0
              ["a"; "b"] Examples.defaultOptions))
  = Throw (JS.Error "Error" "browser unavailable").
Proof.
  vm_compute. reflexivity.
Qed.

(** Scenario C: the run of the first query fails in its guarded region; its
    slot holds the diagnostic response and the second slot real results. *)
Lemma multi_search_scenario_C :
  out (run (multiGoogleSearch Examples.host Examples.calm Examples.firstFails 2 0
              ["a"; "b"] Examples.defaultOptions))
  = Ok [ mkResponse "a" [failureResult (JS.Error "Error" "browser unavailable")];
         mkResponse "b"
           [ mkResult "Rocq" "https://rocq-prover.org/" "The Rocq prover";
             mkResult "OCaml" "https://ocaml.org/" "The OCaml language";
             mkResult "Inria" "https://inria.fr/" "Research institute" ] ].
Proof.
  vm_compute. reflexivity.
Qed.

(** Two runs are rejected: which rejection the caller sees depends on the
    scheduling. *)
Lemma multi_search_rejection_depends_on_the_race :
  out (run (multiGoogleSearch Examples.host Examples.calm Examples.twoRejections 2 0
              ["a"; "b"] Examples.defaultOptions))
  = Throw (JS.Error "Error" "browser unavailable")
  /\ out (run (multiGoogleSearch Examples.host Examples.calm Examples.twoRejections 2 1
                 ["a"; "b"] Examples.defaultOptions))
     = Throw (JS.Error "TypeError" "Cannot read properties of null (reading 'fingerprint')").
Proof.
  split; vm_compute; reflexivity.
Qed.



(** ** Traces, call by call *)

Lemma In_trace_bind {A B} (m : M A) (f : A -> M B) s a ev :
  out (m s) = Ok a -> In ev (trace (f a (final (m s)))) -> In ev (trace (bind m f s)).
Proof.
  intros Hout Hin. rewrite trace_bind, Hout. apply in_or_app. right. exact Hin.
Qed.

Lemma In_trace_bind_l {A B} (m : M A) (f : A -> M B) s ev :
  In ev (trace (m s)) -> In ev (trace (bind m f s)).
Proof.
  intros Hin. rewrite trace_bind. apply in_or_app. left. exact Hin.
Qed.

Lemma trace_bind_call {B} w c (f : unit -> M B) s :
  trace (bind (call w c) f s)
  = ECall c :: match fails w (clock s) c with
               | None => trace (f tt (mkSt (savedState s) (S (clock s))))
               | Some _ => []
               end.
Proof.
  unfold call, ask, bind, tick, emit. cbn.
  destruct (fails w (clock s) c); reflexivity.
Qed.

Lemma out_bind_call {B} w c (f : unit -> M B) s :
  out (bind (call w c) f s)
  = match fails w (clock s) c with
    | None => out (f tt (mkSt (savedState s) (S (clock s))))
    | Some e => Throw e
    end.
Proof.
  unfold call, ask, bind, tick, emit. cbn.
  destruct (fails w (clock s) c); reflexivity.
Qed.

Lemma trace_bind_emit {B} ev (f : unit -> M B) s :
  trace (bind (emit ev) f s) = ev :: trace (f tt s).
Proof. reflexivity. Qed.

Lemma out_bind_emit {B} ev (f : unit -> M B) s :
  out (bind (emit ev) f s) = out (f tt s).
Proof. reflexivity. Qed.

Lemma trace_try_catch {A} (m : M A) (h : JS.Exn -> M A) s :
  trace (try_catch m h s)
  = trace (m s) ++ match out (m s) with
                   | Throw e => trace (h e (final (m s)))
                   | _ => []
                   end.
Proof.
  unfold try_catch. destruct (out (m s)); cbn [trace]; rewrite ?app_nil_r; reflexivity.
Qed.

Lemma out_try_catch {A} (m : M A) (h : JS.Exn -> M A) s :
  out (try_catch m h s)
  = match out (m s) with
    | Throw e => out (h e (final (m s)))
    | r => r
    end.
Proof.
  unfold try_catch. destruct (out (m s)) eqn:H; cbn [out]; rewrite ?H; reflexivity.
Qed.

Ltac unroll :=
  unfold logger_info, logger_warn, logger_error;
  repeat first [ rewrite trace_bind_call | rewrite out_bind_call
               | rewrite trace_bind_emit | rewrite out_bind_emit ];
  cbn [clock savedState].

Lemma trace_call w c s : trace (call w c s) = [ECall c].
Proof.
  unfold call, ask, bind, tick, emit. cbn.
  destruct (fails w (clock s) c); reflexivity.
Qed.

Lemma trace_try_finally {A} (m : M A) (f : M unit) s :
  trace (try_finally m f s) = trace (m s) ++ trace (f (final (m s))).
Proof.
  unfold try_finally. destruct (out (f (final (m s)))); reflexivity.
Qed.

(** ** The conduct of a run, call site by call site

    One traversal of [googleSearch] under a [Policy]; the properties that
    follow are instances of it. *)

Lemma triple_randomBelow_lt w J E n :
  (0 < n)%nat -> triple J E (fun i => (i < n)%nat) (randomBelow w n).
Proof.
  intros Hn. unfold randomBelow.
  apply triple_bind with (P := anyValue); [apply triple_tick | intros t _].
  apply triple_ret. apply Nat.mod_upper_bound. lia.
Qed.

Lemma triple_getRandomDelay_bounds w J E lo hi :
  (lo <= hi)%nat ->
  triple J E (fun d => (lo <= d <= hi)%nat) (getRandomDelay w lo hi).
Proof.
  intros Hle. unfold getRandomDelay.
  apply triple_bind with (P := fun r => (r < hi - lo + 1)%nat);
    [apply triple_randomBelow_lt; lia | intros r Hr].
  apply triple_ret. lia.
Qed.

Lemma conducts_of_triple {A} J E (Q : A -> Prop) (m : M A) :
  triple J E Q m -> conducts J E Q m.
Proof.
  intros H s Hs. destruct (H s Hs) as (_ & HE & HQ). auto.
Qed.

Lemma conducts_bind {A B} J0 E (P : A -> Prop) (Q : B -> Prop) (m : M A) (f : A -> M B) :
  triple J0 E P m -> (forall a, P a -> conducts J0 E Q (f a)) ->
  conducts J0 E Q (bind m f).
Proof.
  intros Hm Hf s Hs. destruct (Hm s Hs) as (HJ & HE & HP).
  rewrite trace_bind, out_bind.
  destruct (out (m s)) as [a | e | ].
  - destruct (Hf a (HP a eq_refl) (final (m s)) HJ) as (HE' & HQ).
    split; [apply Forall_app; auto | exact HQ].
  - rewrite app_nil_r. split; [exact HE | discriminate].
  - rewrite app_nil_r. split; [exact HE | discriminate].
Qed.

Lemma conducts_switch {A B} J0 J1 E (P : A -> Prop) (Q : B -> Prop)
  (m : M A) (f : A -> M B) :
  conducts J0 E P m ->
  (forall s, J0 (savedState s) -> J1 (savedState (final (m s)))) ->
  (forall a, P a -> triple J1 E Q (f a)) ->
  conducts J0 E Q (bind m f).
Proof.
  intros Hm HJ1 Hf s Hs. destruct (Hm s Hs) as (HE & HP).
  rewrite trace_bind, out_bind.
  destruct (out (m s)) as [a | e | ].
  - destruct (Hf a (HP a eq_refl) (final (m s)) (HJ1 s Hs)) as (_ & HE' & HQ).
    split; [apply Forall_app; auto | exact HQ].
  - rewrite app_nil_r. split; [exact HE | discriminate].
  - rewrite app_nil_r. split; [exact HE | discriminate].
Qed.

(** A step after which the invariant is the stronger [J1]. *)
Lemma triple_narrow {A B} (J0 J1 : SavedState -> Prop) E (P : A -> Prop) (Q : B -> Prop)
  (m : M A) (f : A -> M B) :
  (forall s, J1 s -> J0 s) ->
  triple J0 E P m ->
  (forall s a, J0 (savedState s) -> out (m s) = Ok a -> J1 (savedState (final (m s)))) ->
  (forall a, P a -> triple J1 E Q (f a)) ->
  triple J0 E Q (bind m f).
Proof.
  intros Hweak Hm HJ1 Hf s Hs. destruct (Hm s Hs) as (HJ & HE & HP). unfold bind.
  destruct (out (m s)) as [a | e | ] eqn:Ho; cbn.
  - destruct (Hf a (HP a eq_refl) (final (m s)) (HJ1 s a Hs Ho)) as (HJ' & HE' & HQ).
    repeat split; auto. apply Forall_app; auto.
  - repeat split; auto. discriminate.
  - repeat split; auto. discriminate.
Qed.

(** When the context options are resolved, the saved state holds a
    fingerprint. *)
Lemma resolveContextOptions_sets_fingerprint host world locale s o :
  out (resolveContextOptions host world locale s) = Ok o ->
  fingerprint (savedState (final (resolveContextOptions host world locale s))) <> None.
Proof.
  destruct s as [[fpo dom sh] clk].
  unfold resolveContextOptions, getDeviceConfig.
  destruct sh; execute; try discriminate;
    (destruct fpo as [fp | ];
     [ destruct (JS.truthy (deviceName fp));
       [destruct (devices host (deviceName fp)) | ]
     | destruct (negb _) ]);
    execute; intros H; try discriminate H; cbn; discriminate.
Qed.

Section Conduct.

Variable host : Host.
Variable world : World.
Variable q : string.
Variable options : SearchOptions.
Variable existingBrowser : bool.
Variable J : SavedState -> Prop.
Variable S : option string -> Prop.
Variable E : Event -> Prop.

Hypothesis policy : Policy host world q options existingBrowser J S E.

(** The invariant inside the guarded region: the fingerprint is set. *)
Local Notation K := (fun s : SavedState => J s /\ fingerprint s <> None).

Ltac permit :=
  intros; cbn;
  first [ apply (p_log _ _ _ _ _ _ _ _ policy); reflexivity
        | apply (p_inert _ _ _ _ _ _ _ _ policy); reflexivity
        | exact I
        | reflexivity
        | discriminate
        | assumption ].

Ltac pace :=
  repeat (first
            [ lazymatch goal with
              | |- triple _ _ _ (bind (getRandomDelay _ ?lo ?hi) _) =>
                  eapply triple_bind with (P := fun d => (lo <= d <= hi)%nat);
                  [apply triple_getRandomDelay_bounds; lia | intros ? ?]
              end
            | walk ];
          try permit).

Lemma conduct_findSearchInput selectors :
  triple K E anyValue (findSearchInput world selectors).
Proof.
  induction selectors as [ | selector rest IH]; cbn [findSearchInput]; pace.
Qed.

Lemma conduct_waitForResults found selectors :
  triple K E anyValue (waitForResults world found selectors).
Proof.
  induction selectors as [ | selector rest IH]; cbn [waitForResults]; pace.
Qed.

Lemma conduct_structuredLoop selectors results :
  triple K E anyValue (structuredLoop world (limitOf options) selectors results).
Proof.
  revert results.
  induction selectors as [ | selector rest IH]; intros results;
    cbn [structuredLoop]; pace.
  apply IH.
Qed.

Lemma conduct_restartVisible co detected detectedExternal :
  debugOf options = false ->
  (existingBrowser = true -> E (ECall (newBrowser_newContext co))) ->
  isLoadWarning LWarn detected = false ->
  isLoadWarning LWarn detectedExternal = false ->
  triple K E anyValue
    (restartVisible world existingBrowser co detected detectedExternal).
Proof.
  intros Hdebug Hco Hdetected Hexternal. unfold restartVisible. pace;
    first [ apply (p_log _ _ _ _ _ _ _ _ policy); assumption
          | apply (p_temp _ _ _ _ _ _ _ _ policy); solve [auto]
          | apply (p_close _ _ _ _ _ _ _ _ policy); solve [auto]
          | apply Hco; solve [auto] ].
Qed.

Ltac unpack :=
  repeat match goal with
         | H : (fun _ => _) _ |- _ => cbv beta in H
         | H : _ /\ _ |- _ => destruct H
         end.

Lemma conduct_saveStateOnSuccess :
  triple K E anyValue
    (saveStateOnSuccess host world (stateFileOf host options) (noSaveStateOf options)
       (fingerprintFileOf (stateFileOf host options))).
Proof.
  unfold saveStateOnSuccess. destruct (noSaveStateOf options) eqn:Hno; cbn [negb]; pace.
  - apply (p_mkdir _ _ _ _ _ _ _ _ policy), Hno.
  - apply (p_snapshot _ _ _ _ _ _ _ _ policy), Hno.
  - unpack. apply (p_sidecar _ _ _ _ _ _ _ _ policy); auto.
Qed.

Lemma conduct_saveStateOnError :
  triple K E anyValue
    (saveStateOnError host world (stateFileOf host options) (noSaveStateOf options)
       (fingerprintFileOf (stateFileOf host options))).
Proof.
  unfold saveStateOnError. destruct (noSaveStateOf options) eqn:Hno; cbn [negb]; pace.
  - apply (p_mkdir _ _ _ _ _ _ _ _ policy), Hno.
  - apply (p_snapshot _ _ _ _ _ _ _ _ policy), Hno.
  - unpack. apply (p_sidecar _ _ _ _ _ _ _ _ policy); auto.
Qed.

Lemma conduct_closeOrKeep :
  triple K E anyValue (closeOrKeep world (debugOf options) existingBrowser).
Proof.
  unfold closeOrKeep.
  destruct (negb existingBrowser && negb (debugOf options)) eqn:Hown; pace.
  apply andb_true_iff in Hown as [Hb Hd].
  apply negb_true_iff in Hb. apply negb_true_iff in Hd.
  apply (p_close _ _ _ _ _ _ _ _ policy); auto.
Qed.

Ltac allow :=
  intros; cbn;
  first [ apply (p_log _ _ _ _ _ _ _ _ policy); reflexivity
        | apply (p_inert _ _ _ _ _ _ _ _ policy); reflexivity
        | apply (p_pause _ _ _ _ _ _ _ _ policy); lia
        | apply (p_type _ _ _ _ _ _ _ _ policy); lia
        | exact I
        | reflexivity
        | discriminate
        | assumption ].

Ltac march :=
  repeat (first
            [ apply conduct_findSearchInput
            | apply conduct_waitForResults
            | apply conduct_structuredLoop
            | apply conduct_restartVisible
            | apply conduct_saveStateOnSuccess
            | apply conduct_saveStateOnError
            | apply conduct_closeOrKeep
            | lazymatch goal with
              | |- triple _ _ _ (bind (getRandomDelay _ ?lo ?hi) _) =>
                  eapply triple_bind with (P := fun d => (lo <= d <= hi)%nat);
                  [apply triple_getRandomDelay_bounds; lia | intros ? ?]
              end
            | walk ];
          try allow).

Lemma conduct_extractAndReturn :
  triple K E anyValue
    (extractAndReturn host world q (limitOf options) (stateFileOf host options)
       (noSaveStateOf options) (debugOf options)
       (fingerprintFileOf (stateFileOf host options)) existingBrowser).
Proof.
  unfold extractAndReturn, extractResults. march.
Qed.

Lemma conduct_awaitResults headless co :
  (headless = true -> debugOf options = false) ->
  (headless = true -> existingBrowser = true -> E (ECall (newBrowser_newContext co))) ->
  triple K E anyValue
    (awaitResults host world q (limitOf options) (stateFileOf host options)
       (noSaveStateOf options) (debugOf options)
       (fingerprintFileOf (stateFileOf host options)) headless existingBrowser co).
Proof.
  intros Hh Hco. unfold awaitResults. march; auto.
  apply conduct_extractAndReturn.
Qed.

Lemma conduct_submitQuery headless co :
  (headless = true -> debugOf options = false) ->
  (headless = true -> existingBrowser = true -> E (ECall (newBrowser_newContext co))) ->
  triple K E anyValue
    (submitQuery host world q (limitOf options) (stateFileOf host options)
       (noSaveStateOf options) (debugOf options)
       (fingerprintFileOf (stateFileOf host options)) headless existingBrowser co).
Proof.
  intros Hh Hco. unfold submitQuery. march; auto.
  apply conduct_awaitResults; assumption.
Qed.

Lemma savedDomain_some s d : savedDomain s = Some d -> googleDomain s = Some d.
Proof.
  unfold savedDomain. destruct (googleDomain s) as [d' | ]; [ | discriminate].
  destruct (JS.truthy d'); [congruence | discriminate].
Qed.

(** The domain navigated to is the one the saved state holds afterwards. *)
Lemma conduct_selectDomain :
  triple K E (fun d => exists s, J s /\ googleDomain s = Some d) (selectDomain world).
Proof.
  unfold selectDomain.
  apply triple_bind with (P := K); [apply triple_readProperty | intros saved [Hsaved Hset]].
  fold (savedDomain saved). destruct (savedDomain saved) as [d | ] eqn:Hdom.
  - walk; [march | ]. apply triple_ret. exists saved.
    split; [exact Hsaved | apply savedDomain_some, Hdom].
  - apply triple_bind with (P := fun i => (i < 4)%nat);
      [apply triple_randomBelow_lt; cbn; lia | intros i Hi].
    assert (HJ : J (mkSavedState (fingerprint saved)
                      (Some (nth i googleDomains EmptyString)) (shape saved)))
      by (apply (p_domain _ _ _ _ _ _ _ _ policy); assumption).
    walk; [apply triple_assignProperty; [split; [exact HJ | exact Hset] | exact I] | ].
    walk; [march | ]. apply triple_ret. eexists. split; [exact HJ | reflexivity].
Qed.

Lemma conduct_searchBody headless co :
  (headless = true -> debugOf options = false) ->
  (headless = true -> existingBrowser = true -> E (ECall (newBrowser_newContext co))) ->
  triple K E anyValue
    (searchBody host world q (limitOf options) (stateFileOf host options)
       (noSaveStateOf options) (debugOf options)
       (fingerprintFileOf (stateFileOf host options)) headless existingBrowser co).
Proof.
  intros Hh Hco. unfold searchBody.
  eapply triple_bind; [apply conduct_selectDomain | intros d (s & Hs & Hd)].
  walk; [march | ].
  walk; [apply triple_ask; [apply (p_goto _ _ _ _ _ _ _ _ policy s d Hs Hd) | exact (fun _ => I)] | ].
  march; auto.
  apply conduct_submitQuery; assumption.
Qed.

Lemma conduct_guarded headless co :
  (headless = true -> debugOf options = false) ->
  (headless = true -> existingBrowser = true -> E (ECall (newBrowser_newContext co))) ->
  triple K E anyValue
    (guarded host world q (limitOf options) (stateFileOf host options)
       (noSaveStateOf options) (debugOf options)
       (fingerprintFileOf (stateFileOf host options)) headless existingBrowser co).
Proof.
  intros Hh Hco. unfold guarded. apply triple_try_catch.
  - apply conduct_searchBody; assumption.
  - intros e. unfold onSearchError. march.
Qed.

(** The context options present the fingerprint the saved state holds
    afterwards. *)
Lemma conduct_resolveContextOptions :
  triple J E
    (fun o => co_storageState o = None
              /\ exists s fp, J s /\ fingerprint s = Some fp /\ presents o fp)
    (resolveContextOptions host world (localeOf options)).
Proof.
  unfold resolveContextOptions.
  walk; [unfold getDeviceConfig; march | ].
  destruct a as [deviceName_ deviceConfig].
  apply triple_bind with (P := J); [apply triple_readProperty | intros saved Hsaved].
  destruct (fingerprint saved) as [fp | ] eqn:Hfp.
  - walk; [march | ]. apply triple_ret. split; [reflexivity | ].
    exists saved, fp. repeat split; auto.
  - assert (HJ : J (mkSavedState (Some (hostFingerprint host options))
                      (googleDomain saved) (shape saved)))
      by (apply (p_fingerprint _ _ _ _ _ _ _ _ policy); assumption).
    walk; [march | ].
    walk; [apply triple_assignProperty; [exact HJ | exact I] | ].
    walk; [march | ]. apply triple_ret. split; [reflexivity | ].
    eexists. exists (hostFingerprint host options).
    split; [exact HJ | ]. repeat split; reflexivity.
Qed.

Lemma conduct_prepareAndSearch ss headless :
  S ss ->
  (headless = true -> debugOf options = false) ->
  triple J E anyValue
    (prepareAndSearch host world q (limitOf options) (stateFileOf host options)
       (noSaveStateOf options) (localeOf options) (debugOf options) existingBrowser
       ss (fingerprintFileOf (stateFileOf host options)) headless).
Proof.
  intros Hss Hh. unfold prepareAndSearch.
  apply triple_bind with (P := fun b => b = existingBrowser).
  { unfold acquireBrowser. destruct existingBrowser eqn:Hown.
    - march.
    - march. apply (p_launch _ _ _ _ _ _ _ _ policy); auto. }
  intros bwp ->.
  apply triple_narrow
    with (J1 := K)
         (P := fun o => co_storageState o = None
                        /\ exists s fp, J s /\ fingerprint s = Some fp /\ presents o fp).
  { intros s [Hs _]. exact Hs. }
  { apply conduct_resolveContextOptions. }
  { intros s o Hs Hout. split.
    - exact (proj1 (conduct_resolveContextOptions s Hs)).
    - exact (resolveContextOptions_sets_fingerprint host world _ s o Hout). }
  intros o (Hnone & s & fp & Hs & Hfp & Ho).
  walk; [march | ].
  walk.
  { apply triple_call; [ | exact I].
    apply (p_context _ _ _ _ _ _ _ _ policy ss Hss s fp); auto.
    - destruct ss as [p | ]; [destruct (JS.truthy p) | ]; exact Ho.
    - unfold loadedStorage. destruct ss as [p | ]; [destruct (JS.truthy p) | ];
        first [reflexivity | exact Hnone]. }
  do 3 (walk; [march | ]).
  apply conduct_guarded; [exact Hh | ].
  intros Hheadless Hown.
  apply (p_disposable _ _ _ _ _ _ _ _ policy Hown (Hh Hheadless) s fp); assumption.
Qed.

Lemma conduct_performSearch ss fuel headless :
  S ss ->
  (headless = true -> debugOf options = false) ->
  triple J E anyValue
    (performSearch host world q (limitOf options) (stateFileOf host options)
       (noSaveStateOf options) (localeOf options) (debugOf options) existingBrowser
       ss (fingerprintFileOf (stateFileOf host options)) fuel headless).
Proof.
  intros Hss. revert headless. induction fuel as [ | fuel IH]; intros headless Hh;
    cbn [performSearch].
  - apply triple_outOfFuel.
  - walk.
    + unfold activation.
      walk; [walk; apply (p_enter _ _ _ _ _ _ _ _ policy), Hh | ].
      apply conduct_prepareAndSearch; assumption.
    + destruct a as [r | ]; [apply triple_ret; exact I | ].
      apply IH. discriminate.
Qed.

Lemma conduct_getStateFilePath filename :
  stateFile options = None ->
  triple isEmptyState E
    (fun p => p = path_join host [storageDirPath host; filename])
    (getStateFilePath host world filename).
Proof.
  intros Hdefault. unfold getStateFilePath.
  apply triple_bind with (P := fun d => d = storageDirPath host).
  - unfold getStorageStateDir.
    walk; [march | ].
    walk; [ | apply triple_ret; reflexivity].
    march. apply (p_storageDir _ _ _ _ _ _ _ _ policy), Hdefault.
  - intros d ->. apply triple_ret. reflexivity.
Qed.

(** Every event of a run is one the policy admits. *)
Lemma conduct_googleSearch fuel :
  Forall E (trace (run (googleSearch host world fuel q options existingBrowser))).
Proof.
  assert (H : conducts isEmptyState E anyValue
                (googleSearch host world fuel q options existingBrowser)).
  { unfold googleSearch.
    apply conducts_bind with (P := fun p => p = stateFileOf host options).
    { unfold stateFileOf. destruct (stateFile options) eqn:Hsf;
        [apply triple_ret; reflexivity | apply conduct_getStateFilePath, Hsf]. }
    intros p ->.
    apply conducts_bind with (P := anyValue); [march | intros _ _].
    destruct (p_load _ _ _ _ _ _ _ _ policy) as [Hload HJ].
    apply conducts_switch with (J1 := J) (P := fun ss => S ss).
    - exact Hload.
    - exact HJ.
    - intros ss Hss. apply conduct_performSearch; [exact Hss | ].
      intros Hh. apply negb_true_iff in Hh. exact Hh. }
  apply (H initialState). reflexivity.
Qed.

End Conduct.

Lemma load_conducts host world stateFile fingerprintFile
  (J : SavedState -> Prop) (E : Event -> Prop) :
  (forall l m, E (ELog l m)) ->
  (forall c, inertCall c = true -> E (ECall c)) ->
  E (ECall (fs_readFileSync fingerprintFile)) ->
  (forall t parsed,
     JSON_parse host (file_at world t fingerprintFile) = inr parsed ->
     J (stored parsed)) ->
  triple J E (fun ss => ss = None \/ ss = Some stateFile)
    (loadSavedState host world stateFile fingerprintFile).
Proof.
  intros Hlog Hinert Hread Hparse. unfold loadSavedState.
  walk; [apply triple_observe; [apply Hinert; reflexivity | exact (fun _ => I)] | ].
  destruct a.
  - walk; [walk; apply Hlog | ].
    walk; [apply triple_observe; [apply Hinert; reflexivity | exact (fun _ => I)] | ].
    walk; [ | apply triple_ret; auto].
    apply triple_when; [exact I | intros _].
    apply triple_try_catch; [ | intros e; walk; apply Hlog].
    apply triple_bind
      with (P := fun data => exists t, data = file_at world t fingerprintFile).
    { apply triple_ask; [exact Hread | eauto]. }
    intros data [t ->].
    walk; [ | walk; apply Hlog].
    destruct (JSON_parse host (file_at world t fingerprintFile)) as [e | parsed] eqn:Hp.
    + apply triple_throw.
    + apply triple_setSavedState; [exact (Hparse t parsed Hp) | exact I].
  - walk; [walk; apply Hlog | apply triple_ret; auto].
Qed.

(** The load phase of a policy whose invariant holds of the empty state and
    of every state the sidecar can hold. *)
Lemma load_policy host world stateFile fingerprintFile
  (J : SavedState -> Prop) (E : Event -> Prop) :
  (forall l m, E (ELog l m)) ->
  (forall c, inertCall c = true -> E (ECall c)) ->
  E (ECall (fs_readFileSync fingerprintFile)) ->
  J (mkSavedState None None plainObject) ->
  (forall t parsed,
     JSON_parse host (file_at world t fingerprintFile) = inr parsed ->
     J (stored parsed)) ->
  conducts isEmptyState E (fun ss => ss = None \/ ss = Some stateFile)
    (loadSavedState host world stateFile fingerprintFile)
  /\ forall s, isEmptyState (savedState s) ->
       J (savedState (final (loadSavedState host world stateFile fingerprintFile s))).
Proof.
  intros Hlog Hinert Hread Hempty Hparse.
  pose proof (load_conducts host world stateFile fingerprintFile J E Hlog Hinert Hread
                Hparse) as H.
  split.
  - intros s Hs. unfold isEmptyState in Hs.
    destruct (H s) as (_ & HE & HQ); [rewrite Hs; exact Hempty | auto].
  - intros s Hs. unfold isEmptyState in Hs.
    destruct (H s) as (HJ & _); [rewrite Hs; exact Hempty | exact HJ].
Qed.

(** ** Identity: the sidecar and the synthesized fingerprint *)

(** Without the snapshot the load phase tests the snapshot, logs that there
    is none, and is over. *)
Lemma load_without_snapshot host world stateFile fingerprintFile s :
  (forall t, exists_at world t stateFile = false) ->
  loadSavedState host world stateFile fingerprintFile s
  = mkRun (Ok None) (mkSt (savedState s) (S (clock s)))
      [ ECall (fs_existsSync stateFile);
        ELog LInfo "[GoogleSearch] No browser state file found, will create new browser session and fingerprint" ].
Proof.
  intros Habsent. destruct s as [saved clk]. unfold loadSavedState. execute.
  rewrite Habsent. reflexivity.
Qed.

(** A corrupted sidecar next to its snapshot: the load phase warns, does not
    throw, and leaves the saved state as it was. *)
Lemma load_corrupted_warns host world stateFile fingerprintFile s :
  (forall t, exists_at world t stateFile = true) ->
  (forall t, exists_at world t fingerprintFile = true) ->
  (forall t, exists e, JSON_parse host (file_at world t fingerprintFile) = inl e) ->
  out (loadSavedState host world stateFile fingerprintFile s) = Ok (Some stateFile)
  /\ savedState (final (loadSavedState host world stateFile fingerprintFile s))
     = savedState s
  /\ In (ELog LWarn loadWarning)
       (trace (loadSavedState host world stateFile fingerprintFile s)).
Proof.
  intros Hsnap Hside Hparse. destruct s as [saved clk].
  unfold loadSavedState. execute.
  rewrite Hsnap. execute. rewrite Hside. execute.
  destruct (fails world _ _) as [e | ]; execute.
  - repeat split. cbn. auto 10.
  - destruct (Hparse (S (S clk))) as [e ->]. execute.
    repeat split. cbn. auto 10.
Qed.

(** The policy of a run that starts from the empty state: it presents and
    records the fingerprint of the host. *)
Lemma fresh_policy host world q options existingBrowser (S : option string -> Prop) :
  conducts isEmptyState (identityIs (hostFingerprint host options)) (fun ss => S ss)
    (loadSavedState host world (stateFileOf host options)
       (fingerprintFileOf (stateFileOf host options))) ->
  (forall s, isEmptyState (savedState s) ->
     isEmptyState
       (savedState (final (loadSavedState host world (stateFileOf host options)
                             (fingerprintFileOf (stateFileOf host options)) s)))) ->
  Policy host world q options existingBrowser
    (fun s => shape s = plainObject /\ freshOrNone (hostFingerprint host options) s)
    S (identityIs (hostFingerprint host options)).
Proof.
  intros Hload Hempty.
  constructor; try (intros; exact I).
  - intros c Hc. destruct c; try discriminate Hc; exact I.
  - intros _ s [Hshape [Hnone | Hfp]] Hset; [congruence | split; assumption].
  - intros ss _ s fp o [_ [Hnone | Hfp']] Hfp Ho _; cbn; congruence.
  - intros _ _ s fp o [_ [Hnone | Hfp']] Hfp Ho _; cbn; congruence.
  - intros s [Hshape _] _. split; [exact Hshape | right; reflexivity].
  - intros s i _ Hs _. exact Hs.
  - split; [exact Hload | ].
    intros s Hs. rewrite (Hempty s Hs). split; [reflexivity | left; reflexivity].
Qed.

(** The policy of a run that finds no snapshot: it reads no file and does
    not log the warning of the load phase. *)
Lemma unread_policy host world q options existingBrowser :
  (forall t, exists_at world t (stateFileOf host options) = false) ->
  Policy host world q options existingBrowser anyState anyValue ignoresSidecar.
Proof.
  intros Habsent.
  constructor; try (intros; exact I).
  - intros l m Hlm. exact Hlm.
  - intros c Hc. destruct c; try discriminate Hc; exact I.
  - split; [ | intros; exact I].
    intros s _. rewrite (load_without_snapshot _ _ _ _ s Habsent). cbn [trace out].
    split; [ | intros; exact I].
    repeat constructor.
Qed.

(** *** The fingerprint is synthesized *)

Lemma acquireBrowser_acquires world existingBrowser headless s :
  (existingBrowser = true \/ forall t h, fails world t (chromium_launch h) = None) ->
  out (acquireBrowser world existingBrowser headless s) = Ok existingBrowser
  /\ savedState (final (acquireBrowser world existingBrowser headless s)) = savedState s.
Proof.
  intros H. destruct s as [saved clk]. unfold acquireBrowser.
  destruct existingBrowser; execute; [auto | ].
  destruct H as [H | H]; [discriminate H | ].
  rewrite H. execute. auto.
Qed.

Lemma resolveContextOptions_synthesizes host world locale s :
  isEmptyState (savedState s) ->
  exists o,
    out (resolveContextOptions host world locale s) = Ok o
    /\ presents o (getHostMachineConfig (signals host) (Some locale))
    /\ co_storageState o = None
    /\ In (synthesisLog (getHostMachineConfig (signals host) (Some locale)))
         (trace (resolveContextOptions host world locale s)).
Proof.
  destruct s as [saved clk]. unfold isEmptyState. cbn [savedState]. intros ->.
  unfold resolveContextOptions, getDeviceConfig, synthesisLog. execute.
  destruct (negb _); execute; eexists; (split; [reflexivity | ]);
    (split; [repeat split | ]); (split; [reflexivity | ]); cbn; auto.
Qed.

Lemma out_when_log b message s : out (when b (logger_info message) s) = Ok tt.
Proof.
  destruct b; reflexivity.
Qed.

Lemma prepareAndSearch_synthesizes host world query limit stateFile noSaveState locale
  debug existingBrowser storageState fingerprintFile headless s :
  isEmptyState (savedState s) ->
  (existingBrowser = true \/ forall t h, fails world t (chromium_launch h) = None) ->
  In (synthesisLog (getHostMachineConfig (signals host) (Some locale)))
    (trace (prepareAndSearch host world query limit stateFile noSaveState locale debug
              existingBrowser storageState fingerprintFile headless s))
  /\ exists o,
       In (ECall (browser_newContext o))
         (trace (prepareAndSearch host world query limit stateFile noSaveState locale
                   debug existingBrowser storageState fingerprintFile headless s))
       /\ presents o (getHostMachineConfig (signals host) (Some locale))
       /\ co_storageState o = loadedStorage storageState.
Proof.
  intros Hempty Hbrowser. unfold prepareAndSearch.
  destruct (acquireBrowser_acquires world existingBrowser headless s Hbrowser)
    as [Hacquired Hstate].
  rewrite <- Hstate in Hempty.
  destruct (resolveContextOptions_synthesizes host world locale _ Hempty)
    as (o & Hout & Hpresents & Hnone & Hlog).
  split.
  - eapply In_trace_bind; [exact Hacquired | ]. apply In_trace_bind_l. exact Hlog.
  - exists (match storageState with
            | Some p => if JS.truthy p then withStorageState o p else o
            | None => o
            end).
    split; [ | split].
    + eapply In_trace_bind; [exact Hacquired | ].
      eapply In_trace_bind; [exact Hout | ].
      eapply In_trace_bind; [apply out_when_log | ].
      apply In_trace_bind_l. rewrite trace_call. left. reflexivity.
    + destruct storageState as [p | ]; [destruct (JS.truthy p) | ]; exact Hpresents.
    + unfold loadedStorage.
      destruct storageState as [p | ]; [destruct (JS.truthy p) | ];
        first [reflexivity | exact Hnone].
Qed.

(** A run that reaches [performSearch] with the empty state synthesizes the
    fingerprint of the host and creates a context that presents it. *)
Lemma fresh_identity_is_synthesized host world fuel q options existingBrowser ss :
  (stateFile options <> None \/ forall t p, fails world t (fs_mkdirSync p) = None) ->
  (forall s, isEmptyState (savedState s) ->
     out (loadSavedState host world (stateFileOf host options)
            (fingerprintFileOf (stateFileOf host options)) s) = Ok ss
     /\ isEmptyState
          (savedState (final (loadSavedState host world (stateFileOf host options)
                                (fingerprintFileOf (stateFileOf host options)) s)))) ->
  (existingBrowser = true \/ forall t h, fails world t (chromium_launch h) = None) ->
  (1 <= fuel)%nat ->
  In (synthesisLog (hostFingerprint host options))
    (trace (run (googleSearch host world fuel q options existingBrowser)))
  /\ exists o,
       In (ECall (browser_newContext o))
         (trace (run (googleSearch host world fuel q options existingBrowser)))
       /\ presents o (hostFingerprint host options)
       /\ co_storageState o = loadedStorage ss.
Proof.
  intros Hpath Hload Hbrowser Hfuel.
  destruct fuel as [ | fuel]; [lia | ].
  assert (Hprelude :
            exists p, out (match stateFile options with
                           | Some p => ret p
                           | None => getStateFilePath host world "browser-state.json"
                           end initialState) = Ok p
                      /\ p = stateFileOf host options
                      /\ isEmptyState
                           (savedState
                              (final (match stateFile options with
                                      | Some p => ret p
                                      | None => getStateFilePath host world
                                                  "browser-state.json"
                                      end initialState)))).
  { unfold stateFileOf. destruct (stateFile options) as [p | ].
    - exists p. repeat split.
    - destruct Hpath as [Hsome | Hmkdir]; [congruence | ].
      destruct (getStateFilePath_resolves host world "browser-state.json" Hmkdir
                  initialState) as (p & Hout & Hp).
      exists p. split; [exact Hout | ]. split; [exact Hp | ].
      assert (Hkeeps : triple isEmptyState anyEvent anyValue
                         (getStateFilePath host world "browser-state.json"))
        by (unfold getStateFilePath, getStorageStateDir; repeat walk).
      apply (Hkeeps initialState). reflexivity. }
  destruct Hprelude as (p & Hout & -> & Hempty).
  destruct (Hload _ Hempty) as [Hloaded Hempty'].
  destruct (prepareAndSearch_synthesizes host world q (limitOf options)
              (stateFileOf host options) (noSaveStateOf options) (localeOf options)
              (debugOf options) existingBrowser ss
              (fingerprintFileOf (stateFileOf host options))
              (negb (debugOf options)) _ Hempty' Hbrowser)
    as (Hlog & o & Hctx & Hpresents & Hstorage).
  assert (Hreach :
            forall ev,
              In ev (trace (prepareAndSearch host world q (limitOf options)
                              (stateFileOf host options) (noSaveStateOf options)
                              (localeOf options) (debugOf options) existingBrowser ss
                              (fingerprintFileOf (stateFileOf host options))
                              (negb (debugOf options))
                              (final (loadSavedState host world (stateFileOf host options)
                                        (fingerprintFileOf (stateFileOf host options))
                                        (final (match stateFile options with
                                                | Some p => ret p
                                                | None => getStateFilePath host world
                                                            "browser-state.json"
                                                end initialState)))))) ->
              In ev (trace (run (googleSearch host world (Datatypes.S fuel) q options
                                   existingBrowser)))).
  { intros ev Hev. unfold run, googleSearch.
    eapply In_trace_bind; [exact Hout | ].
    eapply In_trace_bind; [reflexivity | ].
    eapply In_trace_bind; [exact Hloaded | ].
    cbn [performSearch]. apply In_trace_bind_l.
    unfold activation. eapply In_trace_bind; [reflexivity | ].
    exact Hev. }
  split; [apply Hreach, Hlog | ].
  exists o. split; [apply Hreach, Hctx | ]. split; assumption.
Qed.

(** Without its snapshot a corrupted sidecar goes unnoticed: no warning is
    logged. *)
Lemma corrupted_sidecar_without_snapshot_is_silent :
  exists_at Examples.corruptedSidecarOnly 0
    (fingerprintFileOf (stateFileOf Examples.host Examples.defaultOptions)) = true
  /\ JSON_parse Examples.host
       (file_at Examples.corruptedSidecarOnly 0
          (fingerprintFileOf (stateFileOf Examples.host Examples.defaultOptions)))
     = inl (JS.Error "SyntaxError" "Unexpected token")
  /\ existsb isWarning
       (trace (run (googleSearch Examples.host Examples.corruptedSidecarOnly 2 "test"
                      Examples.defaultOptions false))) = false.
Proof.
  repeat split; vm_compute; reflexivity.
Qed.

(** C7 (amended).  Let the identity sidecar exist and fail to parse as JSON.
    If the storage snapshot exists, the load phase does not throw, logs its
    warning and leaves the saved state untouched, and the run proceeds as if
    no prior identity existed: every browsing context it creates (in its
    browser or in the disposable browser of the CAPTCHA recovery) presents
    the fingerprint of the host, every sidecar it writes records that
    fingerprint, and, when the browser is acquired, a fresh fingerprint is
    synthesized from the host and a context that presents it and loads the
    snapshot is created.  If the snapshot does not exist, the sidecar is not
    consulted: the run reads no file and does not log the load warning. *)
Theorem corrupted_sidecar_is_ignored host world fuel q options existingBrowser :
  (forall t, exists_at world t (fingerprintFileOf (stateFileOf host options)) = true) ->
  (forall t, exists e,
     JSON_parse host (file_at world t (fingerprintFileOf (stateFileOf host options)))
     = inl e) ->
  ((forall t, exists_at world t (stateFileOf host options) = true) ->
   (forall s,
      out (loadSavedState host world (stateFileOf host options)
             (fingerprintFileOf (stateFileOf host options)) s)
      = Ok (Some (stateFileOf host options))
      /\ savedState (final (loadSavedState host world (stateFileOf host options)
                              (fingerprintFileOf (stateFileOf host options)) s))
         = savedState s)
   /\ Forall (identityIs (hostFingerprint host options))
        (trace (run (googleSearch host world fuel q options existingBrowser)))
   /\ ((stateFile options <> None \/ forall t p, fails world t (fs_mkdirSync p) = None) ->
       In (ELog LWarn loadWarning)
         (trace (run (googleSearch host world fuel q options existingBrowser)))
       /\ ((existingBrowser = true
            \/ forall t h, fails world t (chromium_launch h) = None) ->
           (1 <= fuel)%nat ->
           In (synthesisLog (hostFingerprint host options))
             (trace (run (googleSearch host world fuel q options existingBrowser)))
           /\ exists o,
                In (ECall (browser_newContext o))
                  (trace (run (googleSearch host world fuel q options existingBrowser)))
                /\ presents o (hostFingerprint host options)
                /\ co_storageState o = loadedStorage (Some (stateFileOf host options)))))
  /\ ((forall t, exists_at world t (stateFileOf host options) = false) ->
      Forall ignoresSidecar
        (trace (run (googleSearch host world fuel q options existingBrowser)))).
Proof.
  intros Hside Hparse. split.
  - intros Hsnap.
    assert (Hload : forall s,
               out (loadSavedState host world (stateFileOf host options)
                      (fingerprintFileOf (stateFileOf host options)) s)
               = Ok (Some (stateFileOf host options))
               /\ savedState (final (loadSavedState host world (stateFileOf host options)
                                       (fingerprintFileOf (stateFileOf host options)) s))
                  = savedState s).
    { intros s.
      destruct (load_corrupted_warns host world _ _ s Hsnap Hside Hparse)
        as (Hout & Hst & _).
      split; assumption. }
    split; [exact Hload | ]. split.
    + apply (conduct_googleSearch host world q options existingBrowser
               (fun s => shape s = plainObject
                         /\ freshOrNone (hostFingerprint host options) s)
               (fun ss => ss = None \/ ss = Some (stateFileOf host options))).
      apply fresh_policy.
      * refine (proj1 (load_policy host world _ _ anyState _ _ _ _ _ _));
          try (intros; exact I).
        intros c Hc. destruct c; try discriminate Hc; exact I.
      * intros s Hs. rewrite (proj2 (Hload s)). exact Hs.
    + intros Hpath. split.
      * unfold run, googleSearch.
        assert (Hresolved :
                  exists p, out (match stateFile options with
                                 | Some p => ret p
                                 | None => getStateFilePath host world
                                             "browser-state.json"
                                 end initialState) = Ok p
                            /\ p = stateFileOf host options).
        { unfold stateFileOf. destruct (stateFile options) as [p | ].
          - exists p. split; reflexivity.
          - destruct Hpath as [Hsome | Hmkdir]; [congruence | ].
            apply (getStateFilePath_resolves host world "browser-state.json" Hmkdir). }
        destruct Hresolved as (p & Hout & ->).
        eapply In_trace_bind; [exact Hout | ].
        eapply In_trace_bind; [reflexivity | ].
        apply In_trace_bind_l.
        apply load_corrupted_warns; assumption.
      * intros Hbrowser Hfuel.
        apply fresh_identity_is_synthesized; try assumption.
        intros s Hs. destruct (Hload s) as [Hout Hst].
        split; [exact Hout | rewrite Hst; exact Hs].
  - intros Habsent.
    apply (conduct_googleSearch host world q options existingBrowser anyState anyValue).
    apply unread_policy, Habsent.
Qed.

Lemma corrupted_sidecar_is_ignored_witness :
  In (ELog LWarn loadWarning)
    (trace (run (googleSearch Examples.host Examples.corruptedSidecar 2 "test"
                   Examples.defaultOptions false)))
  /\ Forall (identityIs (hostFingerprint Examples.host Examples.defaultOptions))
       (trace (run (googleSearch Examples.host Examples.corruptedSidecar 2 "test"
                      Examples.defaultOptions false)))
  /\ In (synthesisLog (hostFingerprint Examples.host Examples.defaultOptions))
       (trace (run (googleSearch Examples.host Examples.corruptedSidecar 2 "test"
                      Examples.defaultOptions false))).
Proof.
  destruct (corrupted_sidecar_is_ignored Examples.host Examples.corruptedSidecar 2 "test"
              Examples.defaultOptions false) as [Hwith _].
  - intros t. reflexivity.
  - intros t. eexists. vm_compute. reflexivity.
  - destruct Hwith as (_ & Hid & Hrun).
    + intros t. reflexivity.
    + destruct Hrun as [Hwarn Hfresh].
      * left. discriminate.
      * destruct Hfresh as [Hlog _].
        -- right. intros t h. reflexivity.
        -- repeat constructor.
        -- repeat split; assumption.
Defined.

(** With its snapshot, a sidecar that parses is the identity the run
    presents: the round trip. *)
Lemma persisted_identity_is_reused :
  existsb (Examples.presentsLocale "fr-FR")
    (trace (run (googleSearch Examples.host Examples.returningUser 2 "test"
                   Examples.defaultOptions false))) = true.
Proof.
  vm_compute. reflexivity.
Qed.

(** C10.  When the storage snapshot at [stateFile] does not exist,
    [googleSearch] never reads the sidecar, whether it exists and parses or
    not; every browsing context the run creates presents the fingerprint of
    the host and every sidecar it writes records that fingerprint; and, when
    the browser is acquired, a fresh fingerprint is synthesized from the host
    and a context that presents it, and loads no snapshot, is created: the
    persisted identity does not come back. *)
Theorem sidecar_needs_its_snapshot host world fuel q options existingBrowser :
  (forall t, exists_at world t (stateFileOf host options) = false) ->
  Forall (fun ev => isFileRead ev = false)
    (trace (run (googleSearch host world fuel q options existingBrowser)))
  /\ Forall (identityIs (hostFingerprint host options))
       (trace (run (googleSearch host world fuel q options existingBrowser)))
  /\ ((stateFile options <> None \/ forall t p, fails world t (fs_mkdirSync p) = None) ->
      (existingBrowser = true \/ forall t h, fails world t (chromium_launch h) = None) ->
      (1 <= fuel)%nat ->
      In (synthesisLog (hostFingerprint host options))
        (trace (run (googleSearch host world fuel q options existingBrowser)))
      /\ exists o,
           In (ECall (browser_newContext o))
             (trace (run (googleSearch host world fuel q options existingBrowser)))
           /\ presents o (hostFingerprint host options)
           /\ co_storageState o = None).
Proof.
  intros Habsent. split; [ | split].
  - eapply Forall_impl;
      [ | apply (conduct_googleSearch host world q options existingBrowser anyState
                   anyValue ignoresSidecar), unread_policy, Habsent].
    intros [l m | c | h] Hev; try reflexivity.
    destruct c; try reflexivity. destruct Hev.
  - apply (conduct_googleSearch host world q options existingBrowser
             (fun s => shape s = plainObject
                       /\ freshOrNone (hostFingerprint host options) s)
             anyValue).
    apply fresh_policy.
    + intros s _. rewrite (load_without_snapshot _ _ _ _ s Habsent). cbn [trace out].
      split; [repeat constructor | intros; exact I].
    + intros s Hs. rewrite (load_without_snapshot _ _ _ _ s Habsent). exact Hs.
  - intros Hpath Hbrowser Hfuel.
    apply (fresh_identity_is_synthesized host world fuel q options existingBrowser None);
      try assumption.
    intros s Hs. rewrite (load_without_snapshot _ _ _ _ s Habsent).
    split; [reflexivity | exact Hs].
Qed.

Lemma sidecar_needs_its_snapshot_witness :
  exists_at Examples.sidecarOnly 0
    (fingerprintFileOf (stateFileOf Examples.host Examples.defaultOptions)) = true
  /\ JSON_parse Examples.host
       (file_at Examples.sidecarOnly 0
          (fingerprintFileOf (stateFileOf Examples.host Examples.defaultOptions)))
     = inr Examples.parsedIdentity
  /\ Forall (fun ev => isFileRead ev = false)
       (trace (run (googleSearch Examples.host Examples.sidecarOnly 2 "test"
                      Examples.defaultOptions false)))
  /\ Forall (identityIs (hostFingerprint Examples.host Examples.defaultOptions))
       (trace (run (googleSearch Examples.host Examples.sidecarOnly 2 "test"
                      Examples.defaultOptions false)))
  /\ In (synthesisLog (hostFingerprint Examples.host Examples.defaultOptions))
       (trace (run (googleSearch Examples.host Examples.sidecarOnly 2 "test"
                      Examples.defaultOptions false))).
Proof.
  split; [reflexivity | ]. split; [reflexivity | ].
  destruct (sidecar_needs_its_snapshot Examples.host Examples.sidecarOnly 2 "test"
              Examples.defaultOptions false) as (Hread & Hid & Hfresh).
  - intros t. reflexivity.
  - destruct Hfresh as [Hlog _].
    + left. discriminate.
    + right. intros t h. reflexivity.
    + repeat constructor.
    + repeat split; assumption.
Defined.

(** ** Ownership of the browser *)

(** X1: a run given a browser by its caller never closes it, and launches no
    browser except the visible disposable one of the CAPTCHA recovery. *)
Theorem supplied_browser_is_never_closed host world fuel q options :
  Forall keepsBrowser (trace (run (googleSearch host world fuel q options true))).
Proof.
  apply (conduct_googleSearch host world q options true anyState
           (fun ss => ss = None \/ ss = Some (stateFileOf host options))).
  constructor; try (intros; exact I); try discriminate.
  - intros c Hc. destruct c; try discriminate Hc; exact I.
  - intros; reflexivity.
  - apply load_policy; try (intros; exact I).
    intros c Hc. destruct c; try discriminate Hc; exact I.
Qed.

(** X2: in debug mode every activation is visible and the browser is never
    closed, nor launched headless. *)
Theorem debug_run_is_visible_and_keeps_browser host world fuel q options existingBrowser :
  debugOf options = true ->
  Forall visibleOnly
    (trace (run (googleSearch host world fuel q options existingBrowser))).
Proof.
  intros Hdebug.
  apply (conduct_googleSearch host world q options existingBrowser anyState
           (fun ss => ss = None \/ ss = Some (stateFileOf host options))).
  constructor; try (intros; exact I); try (intros; congruence).
  - intros c Hc. destruct c; try discriminate Hc; exact I.
  - intros h Hh _. destruct h; [rewrite Hdebug in Hh; discriminate (Hh eq_refl) | reflexivity].
  - intros h Hh. destruct h; [rewrite Hdebug in Hh; discriminate (Hh eq_refl) | reflexivity].
  - apply load_policy; try (intros; exact I).
    intros c Hc. destruct c; try discriminate Hc; exact I.
Qed.

Lemma debug_run_is_visible_and_keeps_browser_witness :
  debugOf Scenarios.debugOptions = true
  /\ Forall visibleOnly
       (trace (run (googleSearch Examples.host (Examples.challenged Examples.calm) 2
                      "test" Scenarios.debugOptions false))).
Proof.
  split; [reflexivity | ].
  apply (debug_run_is_visible_and_keeps_browser Examples.host
           (Examples.challenged Examples.calm) 2 "test" Scenarios.debugOptions false).
  reflexivity.
Defined.

(** ** What a run touches on disk *)


(** ** Pacing *)

(** X4: the text typed into the search box is the query itself, with a delay
    of 10 to 30 ms a key, and every timed pause of a run lasts between 100
    and 500 ms. *)
Theorem typing_and_pauses_are_paced host world fuel q options existingBrowser :
  Forall (paced q) (trace (run (googleSearch host world fuel q options existingBrowser))).
Proof.
  apply (conduct_googleSearch host world q options existingBrowser anyState
           (fun ss => ss = None \/ ss = Some (stateFileOf host options))).
  constructor; try (intros; exact I); try solve [intros; cbn; auto].
  - intros c Hc. destruct c; try discriminate Hc; exact I.
  - apply load_policy; try (intros; exact I).
    intros c Hc. destruct c; try discriminate Hc; exact I.
Qed.

(** ** Navigation *)

Lemma nth_googleDomains i : (i < 4)%nat -> In (nth i googleDomains EmptyString) googleDomains.
Proof.
  intros Hi. apply nth_In. exact Hi.
Qed.

(** X5: a run navigates only to one of the four built-in search domains, or
    to a domain the sidecar holds. *)
Theorem navigation_stays_on_known_domains host world fuel q options existingBrowser :
  Forall (navigatesWithin
            (fun d => In d googleDomains
                      \/ sidecarDomain host world
                           (fingerprintFileOf (stateFileOf host options)) d))
    (trace (run (googleSearch host world fuel q options existingBrowser))).
Proof.
  apply (conduct_googleSearch host world q options existingBrowser
           (fun s => forall d, googleDomain s = Some d ->
                       In d googleDomains
                       \/ sidecarDomain host world
                            (fingerprintFileOf (stateFileOf host options)) d)
           (fun ss => ss = None \/ ss = Some (stateFileOf host options))).
  constructor; try (intros; exact I).
  - intros c Hc. destruct c; try discriminate Hc; exact I.
  - intros s d Hs Hd. exact (Hs d Hd).
  - intros s Hs _ d Hd. cbn in Hd. exact (Hs d Hd).
  - intros s i Hi Hs _ d Hd. cbn in Hd. injection Hd as <-.
    left. apply nth_googleDomains, Hi.
  - apply (load_policy host world _ _
             (fun s => forall d, googleDomain s = Some d ->
                         In d googleDomains
                         \/ sidecarDomain host world
                              (fingerprintFileOf (stateFileOf host options)) d));
      try (intros; exact I).
    + intros c Hc. destruct c; try discriminate Hc; exact I.
    + intros d Hd. discriminate Hd.
    + intros t parsed Hp d Hd. right. exists t, parsed. auto.
Qed.

(** ** The round trip of the persisted state *)

Lemma load_persisted host world stateFile fingerprintFile parsed s :
  (forall t, exists_at world t stateFile = true) ->
  (forall t, exists_at world t fingerprintFile = true) ->
  (forall t, fails world t (fs_readFileSync fingerprintFile) = None) ->
  (forall t, JSON_parse host (file_at world t fingerprintFile) = inr parsed) ->
  out (loadSavedState host world stateFile fingerprintFile s) = Ok (Some stateFile)
  /\ savedState (final (loadSavedState host world stateFile fingerprintFile s))
     = stored parsed
  /\ Forall (fun ev => match ev with
                       | ELog _ _ => True
                       | ECall c => inertCall c = true
                                    \/ c = fs_readFileSync fingerprintFile
                       | EEnter _ => False
                       end)
       (trace (loadSavedState host world stateFile fingerprintFile s)).
Proof.
  intros Hsnap Hside Hread Hparse. destruct s as [saved clk].
  unfold loadSavedState. execute.
  rewrite Hsnap. execute. rewrite Hside. execute. rewrite Hread. execute.
  rewrite Hparse. execute.
  repeat split.
  repeat (apply Forall_cons;
          [cbn; first [exact I | left; reflexivity | right; reflexivity] | ]).
  apply Forall_nil.
Qed.

(** X6: when snapshot and sidecar exist and the sidecar parses to an object
    holding a fingerprint and a search domain, the run replays that state:
    every context created in its browser presents the persisted fingerprint
    and loads the snapshot, the context of the disposable browser of the
    CAPTCHA recovery presents the persisted fingerprint and loads nothing,
    every navigation goes to the persisted domain, and every sidecar written
    holds exactly the persisted state. *)
Theorem persisted_state_round_trip host world fuel q options existingBrowser
  parsed fp d :
  (forall t, exists_at world t (stateFileOf host options) = true) ->
  (forall t, exists_at world t (fingerprintFileOf (stateFileOf host options)) = true) ->
  (forall t, fails world t
               (fs_readFileSync (fingerprintFileOf (stateFileOf host options))) = None) ->
  (forall t, JSON_parse host
               (file_at world t (fingerprintFileOf (stateFileOf host options)))
             = inr parsed) ->
  fingerprint (stored parsed) = Some fp ->
  savedDomain (stored parsed) = Some d ->
  Forall (replays (stored parsed) fp d (stateFileOf host options))
    (trace (run (googleSearch host world fuel q options existingBrowser))).
Proof.
  intros Hsnap Hside Hread Hparse Hfp Hdom.
  apply (conduct_googleSearch host world q options existingBrowser
           (fun s => s = stored parsed)
           (fun ss => ss = Some (stateFileOf host options))).
  constructor; try (intros; exact I).
  - intros c Hc. destruct c; try discriminate Hc; exact I.
  - intros s u -> Hu. cbn. apply savedDomain_some in Hdom. congruence.
  - intros _ s -> _. reflexivity.
  - intros ss -> s fp' o -> Hfp' Ho Hst. cbn. split; [congruence | exact Hst].
  - intros _ _ s fp' o -> Hfp' Ho Hst. cbn. split; [congruence | exact Hst].
  - intros s -> Hnone. congruence.
  - intros s i _ -> Hnone. congruence.
  - split.
    + intros s _.
      destruct (load_persisted host world _ _ parsed s Hsnap Hside Hread Hparse)
        as (Hout & _ & Hev).
      split.
      * eapply Forall_impl; [ | exact Hev].
        intros [l m | c | h]; cbn; try tauto.
        intros [Hc | ->]; [destruct c; try discriminate Hc; exact I | exact I].
      * intros a Ha. congruence.
    + intros s _.
      apply (load_persisted host world _ _ parsed s Hsnap Hside Hread Hparse).
Qed.

Lemma persisted_state_round_trip_witness :
  Forall (replays Examples.savedIdentity
            {| deviceName := "Desktop Safari"; fp_locale := "fr-FR";
               timezoneId := "Europe/Paris"; colorScheme := dark;
               reducedMotion := reduce; forcedColors := active |}
            "https://www.google.ca" "/data/state.json")
    (trace (run (googleSearch Examples.host
                   (Examples.challenged Examples.returningUser) 2 "test"
                   Examples.defaultOptions true))).
Proof.
  apply (persisted_state_round_trip Examples.host
           (Examples.challenged Examples.returningUser) 2 "test"
           Examples.defaultOptions true Examples.parsedIdentity); reflexivity.
Defined.

(** ** The shape of the retry *)

Lemma filter_isEnter_none tr :
  Forall (fun ev => isEnter ev = false) tr -> filter isEnter tr = [].
Proof.
  induction 1 as [ | ev tr Hev _ IH]; cbn; [reflexivity | ].
  rewrite Hev. exact IH.
Qed.

Section Activations.

Variable host : Host.
Variable world : World.
Variable query : string.
Variable limit : Z.
Variable stateFile : string.
Variable noSaveState : bool.
Variable locale : string.
Variable debug : bool.
Variable existingBrowser : bool.
Variable storageState : option string.
Variable fingerprintFile : string.

Local Notation activation_ :=
  (activation host world query limit stateFile noSaveState locale debug
     existingBrowser storageState fingerprintFile).
Local Notation performSearch_ :=
  (performSearch host world query limit stateFile noSaveState locale debug
     existingBrowser storageState fingerprintFile).

Lemma enters_activation headless s :
  filter isEnter (trace (activation_ headless s)) = [EEnter headless].
Proof.
  unfold activation. rewrite trace_bind. cbn [emit trace out final].
  rewrite filter_app. cbn [filter isEnter app]. f_equal.
  apply filter_isEnter_none.
  apply (triple_prepareAndSearch host world (fun ev => isEnter ev = false));
    first [ exact I | intros; reflexivity ].
Qed.

Lemma enters_performSearch fuel headless s :
  filter isEnter (trace (performSearch_ fuel headless s)) = []
  \/ filter isEnter (trace (performSearch_ fuel headless s)) = [EEnter headless]
  \/ (headless = true
      /\ filter isEnter (trace (performSearch_ fuel headless s))
         = [EEnter true; EEnter false]).
Proof.
  destruct fuel as [ | fuel]; [left; reflexivity | ].
  cbn [performSearch]. rewrite trace_bind, filter_app, enters_activation.
  destruct (out (activation_ headless s)) as [[r | ] | e | ] eqn:Hout;
    cbn [filter app ret trace]; auto.
  apply (returns_activation host world query limit stateFile noSaveState locale debug
           existingBrowser storageState fingerprintFile) in Hout.
  cbn in Hout. subst headless.
  destruct fuel as [ | fuel]; [right; left; reflexivity | ].
  right. right. split; [reflexivity | ].
  cbn [performSearch]. rewrite trace_bind, filter_app, enters_activation.
  destruct (out (activation_ false _)) as [[r | ] | e | ] eqn:Hout'; cbn; auto.
  exfalso.
  exact (visible_activation_returns host world query limit stateFile noSaveState locale
           debug existingBrowser storageState fingerprintFile _ Hout').
Qed.

End Activations.

Lemma filter_isEnter_bind_quiet {A B} (m : M A) (f : A -> M B) (P : list Event -> Prop) s :
  Forall (fun ev => isEnter ev = false) (trace (m s)) ->
  P [] ->
  (forall a s', P (filter isEnter (trace (f a s')))) ->
  P (filter isEnter (trace (bind m f s))).
Proof.
  intros Hm Hnil Hf. rewrite trace_bind, filter_app, (filter_isEnter_none _ Hm).
  destruct (out (m s)); cbn; auto.
Qed.

(** X7: the activations of [performSearch] a run records are: none (the run
    threw before), one in the mode the options ask for (headless unless
    debug), or a headless one followed by a visible one.  A retry is always
    visible, follows a headless activation only, and never happens in debug
    mode. *)
Theorem activations_are_headless_then_visible host world fuel q options existingBrowser :
  filter isEnter (trace (run (googleSearch host world fuel q options existingBrowser))) = []
  \/ filter isEnter (trace (run (googleSearch host world fuel q options existingBrowser)))
     = [EEnter (negb (debugOf options))]
  \/ (debugOf options = false
      /\ filter isEnter (trace (run (googleSearch host world fuel q options
                                       existingBrowser)))
         = [EEnter true; EEnter false]).
Proof.
  unfold run, googleSearch.
  apply filter_isEnter_bind_quiet with (P := fun l => l = [] \/ l = [EEnter (negb (debugOf options))] \/ (debugOf options = false /\ l = [EEnter true; EEnter false])); auto.
  { apply quiet_prelude.
    destruct (stateFile options);
      [apply triple_ret; exact I | apply triple_getStateFilePath; intros; reflexivity]. }
  intros stateFile_ s1.
  apply filter_isEnter_bind_quiet with (P := fun l => l = [] \/ l = [EEnter (negb (debugOf options))] \/ (debugOf options = false /\ l = [EEnter true; EEnter false])); auto.
  { apply quiet_prelude. apply triple_emit; [reflexivity | exact I]. }
  intros _ s2.
  apply filter_isEnter_bind_quiet with (P := fun l => l = [] \/ l = [EEnter (negb (debugOf options))] \/ (debugOf options = false /\ l = [EEnter true; EEnter false])); auto.
  { apply quiet_prelude. apply triple_loadSavedState; intros; reflexivity. }
  intros storageState s3.
  destruct (enters_performSearch host world q (limitOf options) stateFile_
              (noSaveStateOf options) (localeOf options) (debugOf options)
              existingBrowser storageState (fingerprintFileOf stateFile_) fuel
              (negb (debugOf options)) s3) as [H | [H | [Hh H]]]; auto.
  right. right. apply negb_true_iff in Hh. auto.
Qed.

(** ** The response *)

(** X8: whatever the environment answers, also when the search fails, a
    response returned by [googleSearch] carries the query it was called
    with. *)
Theorem response_echoes_the_query host world fuel q options existingBrowser r :
  out (run (googleSearch host world fuel q options existingBrowser)) = Ok r ->
  query r = q.
Proof.
  intros Hout.
  assert (Hspec : responseSpec q (limitOf options) r).
  { refine (triple_returns _ _ _ _ _ Hout).
    apply triple_googleSearch; intros; exact I. }
  destruct Hspec as (Hq & _). exact Hq.
Qed.

Lemma response_echoes_the_query_witness :
  query (mkResponse "test" [failureResult (JS.Error "Error" "browser unavailable")])
  = "test".
Proof.
  apply (response_echoes_the_query Examples.host
           (Examples.failing Examples.isGoto Examples.calm) 2 "test"
           Examples.defaultOptions false
           (mkResponse "test" [failureResult (JS.Error "Error" "browser unavailable")])).
  vm_compute. reflexivity.
Defined.

(** ** The synthesized fingerprint *)

Lemma or_else_truthy a b : JS.truthy b = true -> JS.truthy (JS.or_else a b) = true.
Proof.
  intros Hb. unfold JS.or_else. destruct a as [s | ]; [ | exact Hb].
  destruct (JS.truthy s) eqn:Hs; [exact Hs | exact Hb].
Qed.

(** X9: the locale of a synthesized fingerprint is never empty: it is the
    caller's locale when that is a non-empty string, and an empty or missing
    one falls through to [LANG], then to en-US. *)
Theorem host_locale_is_never_empty sig userLocale :
  JS.truthy (fp_locale (getHostMachineConfig sig userLocale)) = true
  /\ (forall l, userLocale = Some l -> JS.truthy l = true ->
        fp_locale (getHostMachineConfig sig userLocale) = l)
  /\ (JS.or_else userLocale EmptyString = EmptyString ->
      fp_locale (getHostMachineConfig sig userLocale)
      = JS.or_else (env_LANG sig) "en-US").
Proof.
  unfold getHostMachineConfig. cbn [fp_locale]. split; [ | split].
  - apply or_else_truthy, or_else_truthy. reflexivity.
  - intros l -> Hl. unfold JS.or_else at 1. rewrite Hl. reflexivity.
  - unfold JS.or_else. destruct userLocale as [l | ]; [ | reflexivity].
    destruct (JS.truthy l) eqn:Hl; [ | reflexivity].
    intros ->. discriminate Hl.
Qed.

(** X10: the synthesizer answers Asia/Tokyo exactly for the offsets of at most
    -600 minutes: the offsets from -599 to -540, which the Tokyo test admits,
    are taken by the Shanghai test before it. *)
Theorem tokyo_needs_offset_at_most_minus_600 sig userLocale :
  timezoneId (getHostMachineConfig sig userLocale) = "Asia/Tokyo"
  <-> timezoneOffset sig <= -600.
Proof.
  unfold getHostMachineConfig. cbn [timezoneId].
  destruct (Z.leb_spec (timezoneOffset sig) (-480));
    destruct (Z.ltb_spec (-600) (timezoneOffset sig));
    rewrite ?Z.gtb_ltb; cbn [andb].
  all: repeat match goal with
         | |- context [Z.ltb ?a ?b] => destruct (Z.ltb_spec a b)
         | |- context [Z.leb ?a ?b] => destruct (Z.leb_spec a b)
         end; cbn [andb]; split; intros; try lia; try discriminate; try reflexivity.
Qed.

(** ** The emulated device *)

Lemma nth_deviceList i : In (nth (i mod 4) deviceList EmptyString) deviceList.
Proof.
  apply nth_In. apply Nat.mod_upper_bound. discriminate.
Qed.

(** X11: every browsing context is a desktop one (not mobile, no touch).  With
    no saved fingerprint it emulates Desktop Chrome whatever device the random
    draw picked; with a saved one it emulates the saved device when that has
    a name the device registry knows, and otherwise the device of the desktop
    list that the random draw picks. *)
Theorem emulated_device_is_a_desktop host world locale s o :
  out (resolveContextOptions host world locale s) = Ok o ->
  co_isMobile o = Some false /\ co_hasTouch o = Some false
  /\ match fingerprint (savedState s) with
     | None => co_device o = devices host "Desktop Chrome"
     | Some fp =>
         (JS.truthy (deviceName fp) = true -> devices host (deviceName fp) <> None ->
          co_device o = devices host (deviceName fp))
         /\ (JS.truthy (deviceName fp) = false \/ devices host (deviceName fp) = None ->
             co_device o
             = devices host
                 (nth (random_at world (clock s) mod List.length deviceList)
                    deviceList EmptyString)
             /\ In (nth (random_at world (clock s) mod List.length deviceList)
                      deviceList EmptyString) deviceList)
     end.
Proof.
  destruct s as [[fpo dom sh] clk]. cbn [savedState fingerprint clock].
  assert (Hdrawn : In (nth (random_at world clk mod List.length deviceList)
                         deviceList EmptyString) deviceList)
    by apply nth_deviceList.
  revert Hdrawn. unfold resolveContextOptions, getDeviceConfig.
  destruct sh; execute; try discriminate;
    (destruct fpo as [fp | ];
     [ destruct (JS.truthy (deviceName fp)) eqn:Hname;
       [destruct (devices host (deviceName fp)) as [d | ] eqn:Hdev | ]
     | change (deviceName (getHostMachineConfig (signals host) (Some locale)))
         with "Desktop Chrome";
       destruct (negb _) eqn:Hsame ]);
    execute; intros Hdrawn H; try discriminate H; injection H as <-;
    cbn [co_device co_isMobile co_hasTouch contextOptionsOf];
    repeat split; try congruence; try discriminate; try tauto;
    try (intros [Hc | Hc]; congruence);
    try (apply negb_false_iff, String.eqb_eq in Hsame; f_equal; symmetry; exact Hsame);
    try match goal with
        | Hc : _ \/ _ |- _ => destruct Hc as [Hc | Hc]; discriminate Hc
        end.
Qed.

Lemma emulated_device_is_a_desktop_witness :
  co_device (contextOptionsOf (Some "Desktop Chrome") Scenarios.strangerFingerprint)
  = Some "Desktop Chrome"
  /\ In "Desktop Chrome" deviceList.
Proof.
  apply (proj2 (proj2 (proj2 (emulated_device_is_a_desktop Examples.host Examples.calm
                                "en-US" Scenarios.strangerState
                                (contextOptionsOf (Some "Desktop Chrome")
                                   Scenarios.strangerFingerprint)
                                eq_refl)))).
  right. reflexivity.
Defined.

(** ** Substrings *)

Lemma prefix_spec p s : prefix p s = true <-> exists v, s = p ^^ v.
Proof.
  revert s. induction p as [ | c p IH]; intros s.
  - split; [intros _; exists s; reflexivity | intros _; destruct s; reflexivity].
  - destruct s as [ | c' s].
    + split; [discriminate | intros [v Hv]; discriminate Hv].
    + simpl. destruct (ascii_dec c c') as [-> | Hc].
      * rewrite IH. split; intros [v Hv]; exists v; congruence.
      * split; [discriminate | intros [v Hv]; congruence].
Qed.

Lemma append_assoc' (a b c : string) : (a ^^ b) ^^ c = a ^^ b ^^ c.
Proof.
  induction a as [ | x a IH]; cbn; [reflexivity | rewrite IH; reflexivity].
Qed.

Lemma includes_spec s p : JS.includes s p = true <-> exists u v, s = u ^^ p ^^ v.
Proof.
  induction s as [ | c s IH]; cbn [JS.includes]; rewrite orb_true_iff, prefix_spec.
  - split.
    + intros [[v Hv] | H]; [exists EmptyString, v; exact Hv | discriminate H].
    + intros (u & v & H). left. destruct u; [exists v; exact H | discriminate H].
  - rewrite IH. split.
    + intros [[v Hv] | (u & v & H)].
      * exists EmptyString, v. exact Hv.
      * exists (String c u), v. cbn. rewrite H. reflexivity.
    + intros (u & v & H). destruct u as [ | c' u].
      * left. exists v. exact H.
      * right. exists u, v. cbn in H. congruence.
Qed.

Lemma includes_trans s a b :
  JS.includes a b = true -> JS.includes s a = true -> JS.includes s b = true.
Proof.
  rewrite !includes_spec. intros (u & v & ->) (u' & v' & ->).
  exists (u' ^^ u), (v ^^ v'). rewrite !append_assoc'. reflexivity.
Qed.

(** X12: the CAPTCHA test on the address of the page (the test of the second
    and the third checkpoint) answers as the test on three of its five
    patterns alone: an address holding google.com/sorry/index holds
    google.com/sorry, and one holding recaptcha holds captcha. *)
Theorem blocked_iff_three_patterns url :
  isBlocked url
  = JS.includes url "google.com/sorry" || JS.includes url "captcha"
    || JS.includes url "unusual traffic".
Proof.
  unfold isBlocked, captchaPatterns. cbn [existsb]. rewrite orb_false_r.
  destruct (JS.includes url "google.com/sorry") eqn:Hsorry.
  - rewrite orb_true_r. reflexivity.
  - destruct (JS.includes url "google.com/sorry/index") eqn:Hindex.
    + rewrite (includes_trans url "google.com/sorry/index" "google.com/sorry") in Hsorry;
        [discriminate Hsorry | reflexivity | exact Hindex].
    + cbn [orb]. destruct (JS.includes url "captcha") eqn:Hcaptcha.
      * rewrite orb_true_r. reflexivity.
      * destruct (JS.includes url "recaptcha") eqn:Hre; [ | reflexivity].
        rewrite (includes_trans url "recaptcha" "captcha") in Hcaptcha;
          [discriminate Hcaptcha | reflexivity | exact Hre].
Qed.

(** ** The path of the sidecar *)

Lemma length_append' (a b : string) :
  String.length (a ^^ b) = (String.length a + String.length b)%nat.
Proof.
  induction a as [ | c a IH]; cbn; [reflexivity | rewrite IH; reflexivity].
Qed.

Lemma drop_append p v : JS.drop (String.length p) (p ^^ v) = v.
Proof.
  induction p as [ | c p IH]; cbn; [destruct v; reflexivity | exact IH].
Qed.

Lemma replace_absent s pat rep : JS.includes s pat = false -> JS.replace s pat rep = s.
Proof.
  induction s as [ | c s IH]; cbn [JS.includes JS.replace]; intros H;
    apply orb_false_iff in H; destruct H as [Hp Hs]; rewrite Hp.
  - reflexivity.
  - rewrite (IH Hs). reflexivity.
Qed.

Lemma replace_length s pat rep :
  JS.includes s pat = true ->
  (String.length (JS.replace s pat rep) + String.length pat
   = String.length s + String.length rep)%nat.
Proof.
  induction s as [ | c s IH]; cbn [JS.includes JS.replace]; intros H;
    destruct (prefix pat _) eqn:Hp.
  - apply prefix_spec in Hp. destruct Hp as [v ->].
    rewrite drop_append, !length_append'. lia.
  - discriminate H.
  - apply prefix_spec in Hp. destruct Hp as [v ->].
    rewrite drop_append, !length_append'. lia.
  - cbn [orb] in H. cbn [String.length]. specialize (IH H). lia.
Qed.

(** X13: the sidecar path is the snapshot path itself exactly when that path
    holds no .json: then the identity is written over the snapshot.
    Otherwise the sidecar path is twelve characters longer. *)
Theorem sidecar_path_is_snapshot_path_without_json stateFile :
  (fingerprintFileOf stateFile = stateFile <-> JS.includes stateFile ".json" = false)
  /\ (JS.includes stateFile ".json" = true ->
      String.length (fingerprintFileOf stateFile) = (String.length stateFile + 12)%nat).
Proof.
  unfold fingerprintFileOf.
  assert (Hlen : JS.includes stateFile ".json" = true ->
                 String.length (JS.replace stateFile ".json" "-fingerprint.json")
                 = (String.length stateFile + 12)%nat).
  { intros H. pose proof (replace_length stateFile ".json" "-fingerprint.json" H) as Hl.
    cbn [String.length] in Hl. lia. }
  split; [ | exact Hlen].
  split.
  - intros Heq. destruct (JS.includes stateFile ".json") eqn:H; [ | reflexivity].
    specialize (Hlen eq_refl). rewrite Heq in Hlen. lia.
  - apply replace_absent.
Qed.

(** ** Extraction *)

(** X14: the structured extractor looks at the first [limit] candidates only:
    what follows them never makes up for a candidate dropped for want of a
    title or a link. *)
Theorem structured_candidates_beyond_limit_are_ignored limit titleSelector
  snippetSelector els more :
  0 <= limit <= Z.of_nat (List.length els) ->
  structuredCallback limit titleSelector snippetSelector (els ++ more)
  = structuredCallback limit titleSelector snippetSelector els.
Proof.
  intros Hl. unfold structuredCallback, JS.slice0.
  destruct (Z.ltb_spec limit 0) as [Hneg | _]; [lia | ].
  rewrite length_app, Nat2Z.inj_add, !Z.min_l by lia.
  rewrite firstn_app.
  replace (Z.to_nat limit - List.length els)%nat with 0%nat by lia.
  cbn [firstn]. rewrite app_nil_r. reflexivity.
Qed.

Lemma structured_candidates_beyond_limit_are_ignored_witness :
  structuredCallback 1 "h3" ".VwiC3b"
    ([Examples.resultBlock EmptyString "https://a.example/" "first"]
     ++ [Examples.resultBlock "Rocq" "https://rocq-prover.org/" "second"])
  = [].
Proof.
  rewrite (structured_candidates_beyond_limit_are_ignored 1 "h3" ".VwiC3b"
             [Examples.resultBlock EmptyString "https://a.example/" "first"]
             [Examples.resultBlock "Rocq" "https://rocq-prover.org/" "second"]).
  - reflexivity.
  - cbn. lia.
Defined.

Lemma surroundingText_spec rounds parent title acc :
  (surroundingText rounds parent title acc = acc
   \/ (In (surroundingText rounds parent title acc) (ancestorTexts rounds parent)
       /\ surroundingText rounds parent title acc <> title))
  /\ (String.length acc <= String.length (surroundingText rounds parent title acc))%nat
  /\ (forall t, In t (ancestorTexts rounds parent) -> t <> title ->
        (String.length t <= String.length (surroundingText rounds parent title acc))%nat).
Proof.
  revert parent acc. induction rounds as [ | rounds IH]; intros parent acc.
  - cbn. repeat split; auto. intros t [].
  - destruct parent as [p | ]; [ | cbn; repeat split; auto; intros t []].
    cbn [surroundingText ancestorTexts].
    set (text := JS.or_else (textContent p) EmptyString).
    destruct ((String.length acc <? String.length text)%nat
              && negb (text =? title)%string) eqn:Htake.
    + apply andb_true_iff in Htake. destruct Htake as [Hlt Hne].
      apply Nat.ltb_lt in Hlt. apply negb_true_iff, String.eqb_neq in Hne.
      destruct (IH (parentElement p) text) as ([Hsame | [Hin Hnt]] & Hlen & Hall).
      * rewrite Hsame. repeat split.
        -- right. split; [left; reflexivity | exact Hne].
        -- lia.
        -- intros t [<- | Ht] Htn; [lia | ]. specialize (Hall t Ht Htn).
           rewrite Hsame in Hall. exact Hall.
      * repeat split.
        -- right. split; [right; exact Hin | exact Hnt].
        -- lia.
        -- intros t [<- | Ht] Htn; [exact Hlen | exact (Hall t Ht Htn)].
    + destruct (IH (parentElement p) acc) as (Hcase & Hlen & Hall).
      repeat split.
      * destruct Hcase as [Hsame | [Hin Hnt]]; [left; exact Hsame | ].
        right. split; [right; exact Hin | exact Hnt].
      * exact Hlen.
      * intros t [<- | Ht] Htn; [ | exact (Hall t Ht Htn)].
        apply andb_false_iff in Htake. destruct Htake as [Hge | Heq].
        -- apply Nat.ltb_ge in Hge. lia.
        -- apply negb_false_iff, String.eqb_eq in Heq. congruence.
Qed.

(** X15: the snippet of a fallback result is a longest text among those of the
    three nearest ancestors of the anchor that differ from its title, and is
    empty when there is none: it never repeats the title, unless both are
    empty. *)
Theorem fallback_snippet_is_longest_ancestor_text el :
  (snippet (fallbackItem el) = EmptyString
   \/ (In (snippet (fallbackItem el)) (ancestorTexts 3 (parentElement el))
       /\ snippet (fallbackItem el) <> title (fallbackItem el)))
  /\ (forall t, In t (ancestorTexts 3 (parentElement el)) ->
        t <> title (fallbackItem el) ->
        (String.length t <= String.length (snippet (fallbackItem el)))%nat).
Proof.
  unfold fallbackItem. cbn [snippet title].
  destruct (surroundingText_spec 3 (parentElement el)
              (JS.or_else (textContent el) EmptyString) EmptyString)
    as (Hcase & _ & Hall).
  split; [exact Hcase | exact Hall].
Qed.

(** ** The state files of a multiple search *)

Lemma append_inj_l (p a b : string) : p ^^ a = p ^^ b -> a = b.
Proof.
  induction p as [ | c p IH]; cbn; intros H; [exact H | ].
  injection H as H. exact (IH H).
Qed.

Lemma string_of_uint_inj d d' :
  NilZero.string_of_uint d = NilZero.string_of_uint d' ->
  d <> Decimal.Nil -> d' <> Decimal.Nil -> d = d'.
Proof.
  intros H Hd Hd'.
  pose proof (NilZero.usu d Hd) as H1. pose proof (NilZero.usu d' Hd') as H2.
  rewrite H in H1. congruence.
Qed.

Lemma to_uint_nonnil n : Nat.to_uint n <> Decimal.Nil.
Proof.
  intros H. pose proof (Unsigned.of_to n) as Hn. rewrite H in Hn. cbn in Hn. subst n.
  discriminate H.
Qed.

Lemma showNat_inj i j : JS.showNat i = JS.showNat j -> i = j.
Proof.
  unfold JS.showNat. intros H.
  apply Unsigned.to_uint_inj, string_of_uint_inj; auto using to_uint_nonnil.
Qed.

Lemma snapshot_path_of_run host world fuel q options existingBrowser p :
  In (ECall (context_storageState p))
    (trace (run (googleSearch host world fuel q options existingBrowser))) ->
  p = stateFileOf host options.
Proof.
  intros Hin.
  assert (H : Forall (fun ev => match ev with
                                | ECall (context_storageState p') =>
                                    p' = stateFileOf host options
                                | _ => True
                                end)
                (trace (run (googleSearch host world fuel q options existingBrowser)))).
  { apply (conduct_googleSearch host world q options existingBrowser anyState
             (fun ss => ss = None \/ ss = Some (stateFileOf host options))).
    constructor; try (intros; exact I); try (intros; reflexivity).
    - intros c Hc. destruct c; try discriminate Hc; exact I.
    - apply load_policy; try (intros; exact I).
      intros c Hc. destruct c; try discriminate Hc; exact I. }
  rewrite Forall_forall in H. exact (H _ Hin).
Qed.

Lemma startAll_runs host world sessions fuel options p queries :
  stateFile options = Some p -> JS.truthy p = true ->
  forall index s,
    startAll host world sessions fuel options index queries s
    = mkRun (Ok (settledFrom host sessions fuel options index queries)) s
        (tracesFrom host sessions fuel options index queries).
Proof.
  intros Hp Ht. induction queries as [ | q rest IH]; intros index s.
  - reflexivity.
  - cbn [startAll settledFrom tracesFrom]. rewrite Hp, Ht.
    assert (Hoptions :
              {| limit := limit options; timeout := timeout options;
                 stateFile := Some (p ^^ "-" ^^ JS.showNat index);
                 noSaveState := noSaveState options; locale := locale options;
                 debug := debug options |}
              = queryOptions host options index).
    { unfold queryOptions, queryStateFile. rewrite Hp, Ht. reflexivity. }
    unfold run.
    cbv beta iota zeta delta [bind ret logger_info emit startSearch out final trace].
    rewrite Hoptions, IH. cbn [out final trace app]. rewrite app_nil_r. reflexivity.
Qed.



(** ** Saving never fails a search *)

Lemma logged_failure_is_swallowed (m : M unit) (h : JS.Exn -> M unit) :
  terminates m -> (forall e s, out (h e s) = Ok tt) ->
  forall s, out (try_catch m h s) = Ok tt.
Proof.
  intros Hm Hh s. unfold try_catch. specialize (Hm s).
  destruct (out (m s)) as [[] | e | ] eqn:Hout; cbn [out];
    [exact Hout | apply Hh | congruence].
Qed.

(** X17: neither block that saves the state (after the extraction, and in the
    error handler) throws, whatever the file system and the browsing context
    answer: a failure to save is logged, and the response is returned all
    the same. *)
Theorem saving_state_never_throws host world stateFile noSaveState fingerprintFile s :
  out (saveStateOnSuccess host world stateFile noSaveState fingerprintFile s) = Ok tt
  /\ out (saveStateOnError host world stateFile noSaveState fingerprintFile s) = Ok tt.
Proof.
  split.
  - unfold saveStateOnSuccess.
    apply logged_failure_is_swallowed; [repeat halts | reflexivity].
  - unfold saveStateOnError.
    apply logged_failure_is_swallowed; [repeat halts | reflexivity].
Qed.

(** ** The disposable browser of the recovery *)

(** The [try { ... } catch { await newBrowser.close(); throw }] of the
    recovery. *)
Lemma disposable_block_closes world (contextOptions : BrowserContextOptions) s :
  In (ECall newBrowser_close)
    (trace (try_catch
              (call world (newBrowser_newContext contextOptions) ;;
               call world tempContext_newPage ;;
               call world newBrowser_close ;;
               ret ReturnRetry)
              (fun error => call world newBrowser_close ;; throw error) s))
  /\ out (try_catch
            (call world (newBrowser_newContext contextOptions) ;;
             call world tempContext_newPage ;;
             call world newBrowser_close ;;
             ret ReturnRetry)
            (fun error => call world newBrowser_close ;; throw error) s)
     <> Ok Continue.
Proof.
  rewrite trace_try_catch, out_try_catch.
  set (s' := final _). clearbody s'.
  unroll.
  destruct (fails world (clock s) _) as [e | ].
  { unroll. split; [cbn; tauto | destruct (fails world (clock s') _); discriminate]. }
  destruct (fails world (S (clock s)) _) as [e | ].
  { unroll. split; [cbn; tauto | destruct (fails world (clock s') _); discriminate]. }
  destruct (fails world (S (S (clock s))) _) as [e | ].
  { unroll. split; [cbn; tauto | destruct (fails world (clock s') _); discriminate]. }
  split; [cbn; tauto | cbn; discriminate].
Qed.

(** X18: in the CAPTCHA recovery of a run on a supplied browser, a disposable
    browser that was launched is closed before the recovery ends, also when
    its context or its page cannot be created; the recovery then ends in a
    retry or in an error, and the search does not go on in the blocked
    page. *)
Theorem disposable_browser_is_always_closed world contextOptions detected
  detectedExternal s :
  (forall t, fails world t (chromium_launch false) = None) ->
  In (ECall (chromium_launch false))
    (trace (restartVisible world true contextOptions detected detectedExternal s)) ->
  In (ECall newBrowser_close)
    (trace (restartVisible world true contextOptions detected detectedExternal s))
  /\ out (restartVisible world true contextOptions detected detectedExternal s)
     <> Ok Continue.
Proof.
  intros Hlaunch. unfold restartVisible.
  unroll. rewrite Hlaunch.
  destruct (fails world (clock s) page_close) as [e | ].
  { cbn [In]. intros [H | [H | []]]; discriminate H. }
  destruct (fails world (S (clock s)) context_close) as [e | ].
  { cbn [In]. intros [H | [H | [H | []]]]; discriminate H. }
  intros _.
  destruct (disposable_block_closes world contextOptions
              (mkSt (savedState s) (S (S (S (clock s)))))) as [Hin Hout].
  split; [ | exact Hout].
  do 5 right. exact Hin.
Qed.

Lemma disposable_browser_is_always_closed_witness :
  In (ECall newBrowser_close)
    (trace (restartVisible (Examples.failing Examples.isNewContext Examples.calm) true
              (contextOptionsOf None (getHostMachineConfig Examples.signalsUTC8 None))
              "detected" "detected on a supplied browser" initialState)).
Proof.
  apply (disposable_browser_is_always_closed
           (Examples.failing Examples.isNewContext Examples.calm)
           (contextOptionsOf None (getHostMachineConfig Examples.signalsUTC8 None))
           "detected" "detected on a supplied browser" initialState).
  - reflexivity.
  - vm_compute. tauto.
Defined.

(** ** The shared browser of a multiple search *)

Lemma filter_spares tr :
  Forall (fun ev => isBrowserClose ev = false) tr -> filter isBrowserClose tr = [].
Proof.
  induction 1 as [ | ev tr Hev _ IH]; cbn; [reflexivity | ].
  rewrite Hev. exact IH.
Qed.


Lemma googleSearch_spares_supplied_browser host world fuel q options :
  Forall (fun ev => isBrowserClose ev = false)
    (trace (run (googleSearch host world fuel q options true))).
Proof.
  apply (conduct_googleSearch host world q options true anyState
           (fun ss => ss = None \/ ss = Some (stateFileOf host options))).
  constructor; try (intros; exact I); try (intros; reflexivity); try discriminate.
  - intros c Hc. destruct c; try discriminate Hc; reflexivity.
  - apply load_policy; try (intros; exact I); try (intros; reflexivity).
    intros c Hc. destruct c; try discriminate Hc; reflexivity.
Qed.

Lemma startAll_spares_browser host world sessions fuel options index queries :
  triple anyState (fun ev => isBrowserClose ev = false) anyValue
    (startAll host world sessions fuel options index queries).
Proof.
  revert index. induction queries as [ | q rest IH]; intros index; cbn [startAll].
  - apply triple_ret. exact I.
  - walk.
    { destruct (stateFile options) as [p | ]; [destruct (JS.truthy p) | ];
        first [ apply triple_ret; exact I
              | apply triple_getStateFilePath; intros; reflexivity ]. }
    walk; [apply triple_emit; [reflexivity | exact I] | ].
    walk.
    { intros s _. cbn [startSearch final trace out]. repeat split.
      apply googleSearch_spares_supplied_browser. }
    walk; [apply IH | apply triple_ret; exact I].
Qed.

(** X19: a multiple search that launched its shared browser closes it exactly
    once, also when a query or the preparation of a state file throws, and
    the runs of the queries never close it; in debug mode nobody closes
    it. *)
Theorem shared_browser_is_closed_once host world sessions fuel race queries options :
  queries <> [] ->
  (forall t, fails world t (chromium_launch (negb (debugOf options))) = None) ->
  filter isBrowserClose
    (trace (run (multiGoogleSearch host world sessions fuel race queries options)))
  = (if debugOf options then [] else [ECall browser_close]).
Proof.
  intros Hne Hlaunch. destruct queries as [ | q0 rest]; [congruence | ].
  unfold run, multiGoogleSearch. fold (debugOf options).
  set (body := bind (startAll _ _ _ _ _ _ _) _).
  set (closing := if negb (debugOf options) then _ else _).
  assert (Hspares : triple anyState (fun ev => isBrowserClose ev = false) anyValue body).
  { unfold body. walk; [apply startAll_spares_browser | ].
    walk.
    { destruct (promiseAll race a); intros s _; repeat split; constructor. }
    walk; [apply triple_emit; [reflexivity | exact I] | apply triple_ret; exact I]. }
  unfold logger_info at 1.
  rewrite trace_bind_emit, trace_bind_call, Hlaunch, trace_try_finally.
  cbn [filter isBrowserClose]. rewrite filter_app.
  rewrite (filter_spares _ (proj1 (proj2 (Hspares _ I)))). cbn [app].
  unfold closing. destruct (debugOf options); cbn [negb].
  - reflexivity.
  - unfold logger_info. rewrite trace_bind_emit, trace_call. reflexivity.
Qed.

Lemma shared_browser_is_closed_once_witness :
  filter isBrowserClose
    (trace (run (multiGoogleSearch Examples.host Examples.calm Examples.firstHasNoContext 2
                   0 ["a"; "b"] Examples.defaultOptions)))
  = [ECall browser_close].
Proof.
  apply (shared_browser_is_closed_once Examples.host Examples.calm
           Examples.firstHasNoContext 2 0 ["a"; "b"] Examples.defaultOptions).
  - discriminate.
  - reflexivity.
Defined.
